(** * iLearning -> ICS generators: a verified model of the extraction core

    Shallow embedding of the two scrapers of the repository,

    - [ilearning_to_ics.py]       (Moodle-like sites,  module [Moodle])
    - [ilearning_to_ics_nchu.py]  (NCHU ee-class,      module [Nchu])

    Python [str] values are sequences of Unicode code points, exceptions are
    an error monad over the HTTP session, and the third-party libraries the
    scripts call (hashlib, re, datetime, BeautifulSoup) are modelled by the
    executable definitions of the first modules.  The date parser of
    [dateutil] and [urllib.parse.urljoin] stay parameters of the code. *)

From Stdlib Require Import String Ascii DecimalString.
From Stdlib Require Import List NArith ZArith Bool Lia.
Import ListNotations.

Set Implicit Arguments.
Set Warnings "-register-all".

(* ================================================================== *)
(** ** Python text: code points, UTF-8, whitespace and digits *)

Module Text.

(** A Python [str]: the list of its code points. *)
Definition str := list N.

Local Open Scope N_scope.

Definition bytes_of_string (s : string) : list N :=
  map N_of_ascii (list_ascii_of_string s).

(** Source literals are written as UTF-8 string literals and decoded. *)
Fixpoint utf8_decode (bs : list N) : str :=
  match bs with
  | [] => []
  | b0 :: r0 =>
    if b0 <? 0x80 then b0 :: utf8_decode r0
    else match r0 with
      | [] => []
      | b1 :: r1 =>
        if b0 <? 0xE0 then
          ((b0 mod 0x20) * 0x40 + b1 mod 0x40) :: utf8_decode r1
        else match r1 with
          | [] => []
          | b2 :: r2 =>
            if b0 <? 0xF0 then
              ((b0 mod 0x10) * 0x1000 + (b1 mod 0x40) * 0x40 + b2 mod 0x40)
                :: utf8_decode r2
            else match r2 with
              | [] => []
              | b3 :: r3 =>
                ((b0 mod 0x08) * 0x40000 + (b1 mod 0x40) * 0x1000
                 + (b2 mod 0x40) * 0x40 + b3 mod 0x40) :: utf8_decode r3
              end
          end
      end
  end.

Definition u (s : string) : str := utf8_decode (bytes_of_string s).

(** [c] can be encoded: a Unicode scalar value (no lone surrogate). *)
Definition encodable (c : N) : bool :=
  (c <? 0xD800) || ((0xDFFF <? c) && (c <? 0x110000)).

Definition encode_char (c : N) : list N :=
  if c <? 0x80 then [c]
  else if c <? 0x800 then [0xC0 + c / 0x40; 0x80 + c mod 0x40]
  else if c <? 0x10000 then
    [0xE0 + c / 0x1000; 0x80 + (c / 0x40) mod 0x40; 0x80 + c mod 0x40]
  else
    [0xF0 + c / 0x40000; 0x80 + (c / 0x1000) mod 0x40;
     0x80 + (c / 0x40) mod 0x40; 0x80 + c mod 0x40].

(** [s.encode("utf-8")]; [None] is Python's UnicodeEncodeError. *)
Fixpoint encode_utf8 (s : str) : option (list N) :=
  match s with
  | [] => Some []
  | c :: t =>
    if encodable c then
      match encode_utf8 t with
      | Some bs => Some (encode_char c ++ bs)
      | None => None
      end
    else None
  end.

Definition str_eqb (a b : str) : bool :=
  (length a =? length b)%nat && forallb (fun p => fst p =? snd p) (combine a b).

(** [str.isspace] on one code point, which is also [\s] of [re] on [str]
    patterns (Unicode 14 table of CPython 3.11). *)
Definition isspace (c : N) : bool :=
  ((0x09 <=? c) && (c <=? 0x0D)) || ((0x1C <=? c) && (c <=? 0x20))
  || (c =? 0x85) || (c =? 0xA0) || (c =? 0x1680)
  || ((0x2000 <=? c) && (c <=? 0x200A))
  || (c =? 0x2028) || (c =? 0x2029) || (c =? 0x202F) || (c =? 0x205F)
  || (c =? 0x3000).

(** First code point of every decimal-digit block (category Nd). *)
Definition decimal_zeros : list N :=
  [0x30; 0x660; 0x6f0; 0x7c0; 0x966; 0x9e6; 0xa66; 0xae6; 0xb66; 0xbe6;
   0xc66; 0xce6; 0xd66; 0xde6; 0xe50; 0xed0; 0xf20; 0x1040; 0x1090; 0x17e0;
   0x1810; 0x1946; 0x19d0; 0x1a80; 0x1a90; 0x1b50; 0x1bb0; 0x1c40; 0x1c50;
   0xa620; 0xa8d0; 0xa900; 0xa9d0; 0xa9f0; 0xaa50; 0xabf0; 0xff10; 0x104a0;
   0x10d30; 0x11066; 0x110f0; 0x11136; 0x111d0; 0x112f0; 0x11450; 0x114d0;
   0x11650; 0x116c0; 0x11730; 0x118e0; 0x11950; 0x11c50; 0x11d50; 0x11da0;
   0x16a60; 0x16ac0; 0x16b50; 0x1d7ce; 0x1d7d8; 0x1d7e2; 0x1d7ec; 0x1d7f6;
   0x1e140; 0x1e2f0; 0x1e950; 0x1fbf0].

(** [\d] of [re] on [str] patterns: any Unicode decimal digit. *)
Definition isdecimal (c : N) : bool :=
  existsb (fun z => (z <=? c) && (c <=? z + 9)) decimal_zeros.

(** Lower-casing of the ASCII letters; the letters of the source's
    case-insensitive patterns (d, u, e, a, t) have no other case variants. *)
Definition lower (c : N) : N :=
  if (0x41 <=? c) && (c <=? 0x5A) then c + 0x20 else c.

(** [sep.join(parts)] *)
Fixpoint join (sep : str) (parts : list str) : str :=
  match parts with
  | [] => []
  | [p] => p
  | p :: rest => p ++ sep ++ join sep rest
  end.

Fixpoint lstrip_by (p : N -> bool) (s : str) : str :=
  match s with
  | [] => []
  | c :: t => if p c then lstrip_by p t else s
  end.

Definition rstrip_by (p : N -> bool) (s : str) : str :=
  rev (lstrip_by p (rev s)).

(** [s.strip()] *)
Definition strip (s : str) : str := rstrip_by isspace (lstrip_by isspace s).

(** [s.startswith(p)] *)
Fixpoint startswith (p s : str) : bool :=
  match p, s with
  | [], _ => true
  | _ :: _, [] => false
  | a :: p', b :: s' => (a =? b) && startswith p' s'
  end.

(** [p in s] on strings *)
Fixpoint contains (p s : str) : bool :=
  startswith p s ||
  match s with
  | [] => false
  | _ :: t => contains p t
  end.

(** Truth value of a string: [if s] / [if not s]. *)
Definition truthy (s : str) : bool :=
  match s with [] => false | _ => true end.

(** [os.path.dirname] (posixpath): the path up to and with its last [/],
    then without the slashes at its end unless it holds nothing else. *)
Definition dirname (p : str) : str :=
  let slash := fun c => c =? 47 in
  let head := rev (lstrip_by (fun c => negb (slash c)) (rev p)) in
  if truthy head && negb (forallb slash head) then rstrip_by slash head
  else head.

End Text.

Import Text.


(* ================================================================== *)
(** ** Regular expressions: the fragment of Python's [re] the scripts use

    A backtracking matcher with Python's priorities: alternatives are tried
    left to right, [?] and the counted repetitions are greedy, and [search]
    returns the leftmost match.  Only whole matches are needed: the one group
    the scripts read, [m.group(1)] of the Moodle date pattern, spans the whole
    pattern. *)

Module Re.

Inductive re : Type :=
| Eps                                        (* empty pattern *)
| Chr (c : N)                                (* a literal character *)
| Cls (p : N -> bool)                        (* [...] , \d , \s *)
| Bol                                        (* ^ without MULTILINE *)
| Cat (r1 r2 : re)
| Alt (r1 r2 : re)                           (* r1|r2 *)
| Opt (r : re)                               (* r? *)
| Rep (p : N -> bool) (lo : nat) (hi : option nat).
                                             (* c{lo,hi}, c*, c+ on a class *)

Fixpoint lit (s : str) : re :=
  match s with
  | [] => Eps
  | [c] => Chr c
  | c :: t => Cat (Chr c) (lit t)
  end.

Definition one_of (cs : str) : N -> bool := fun c => existsb (N.eqb c) cs.

Section Exec.

(** [re.I]: literals compare up to ASCII case. *)
Variable icase : bool.
Variable R : Type.

Definition chr_eq (a c : N) : bool :=
  if icase then (lower a =? lower c)%N else (a =? c)%N.

(** Length of the longest run of [p] at the head of [s], at most [hi]. *)
Fixpoint run_len (p : N -> bool) (hi : option nat) (s : str) : nat :=
  match s with
  | [] => 0
  | c :: t =>
    match hi with
    | Some 0 => 0
    | Some (S h) => if p c then S (run_len p (Some h) t) else 0
    | None => if p c then S (run_len p None t) else 0
    end
  end.

(** Greedy repetition: the longest run first, then shorter ones, no fewer
    than [lo]. *)
Fixpoint rep_back (k : nat -> str -> option R) (pos : nat) (s : str)
    (lo i : nat) : option R :=
  match k (pos + i) (skipn i s) with
  | Some x => Some x
  | None =>
    match i with
    | 0 => None
    | S j => if lo <=? j then rep_back k pos s lo j else None
    end
  end.

(** [exec r pos s k]: match [r] at position [pos], where the rest of the
    subject is [s], and hand the end position and remaining text to the
    continuation; [None] asks for the next alternative. *)
Fixpoint exec (r : re) (pos : nat) (s : str)
    (k : nat -> str -> option R) : option R :=
  match r with
  | Eps => k pos s
  | Chr c =>
    match s with
    | a :: t => if chr_eq a c then k (S pos) t else None
    | [] => None
    end
  | Cls p =>
    match s with
    | a :: t => if p a then k (S pos) t else None
    | [] => None
    end
  | Bol => if pos =? 0 then k pos s else None
  | Cat r1 r2 => exec r1 pos s (fun pos' s' => exec r2 pos' s' k)
  | Alt r1 r2 =>
    match exec r1 pos s k with
    | Some x => Some x
    | None => exec r2 pos s k
    end
  | Opt r1 =>
    match exec r1 pos s k with
    | Some x => Some x
    | None => k pos s
    end
  | Rep p lo hi =>
    let n := run_len p hi s in
    if n <? lo then None else rep_back k pos s lo n
  end.

End Exec.

(** End position of the match of [r] that starts at [pos]. *)
Definition match_at (icase : bool) (r : re) (pos : nat) (s : str)
  : option nat :=
  exec icase r pos s (fun e _ => Some e).

(** [re.search(r, s)]: start position and text of the leftmost match. *)
Fixpoint search_from (icase : bool) (r : re) (pos : nat) (s : str)
  : option (nat * str) :=
  match match_at icase r pos s with
  | Some e => Some (pos, firstn (e - pos) s)
  | None =>
    match s with
    | [] => None
    | _ :: t => search_from icase r (S pos) t
    end
  end.

Definition search (icase : bool) (r : re) (s : str) : option (nat * str) :=
  search_from icase r 0 s.

(** [m.group(0)] of [re.search(r, s)]. *)
Definition search_text (icase : bool) (r : re) (s : str) : option str :=
  option_map snd (search icase r s).

(** [if re.search(r, s)] *)
Definition found (icase : bool) (r : re) (s : str) : bool :=
  match search icase r s with Some _ => true | None => false end.

(** [re.sub(r, "", s)]: every non-overlapping match, left to right, is
    replaced by the empty string.  [skip] counts the characters of the
    current match still to drop. *)
Fixpoint sub_from (icase : bool) (r : re) (pos skip : nat) (s : str) : str :=
  match s with
  | [] => []
  | c :: t =>
    match skip with
    | S n => sub_from icase r (S pos) n t
    | 0 =>
      match match_at icase r pos s with
      | Some e =>
        match e - pos with
        | 0 => c :: sub_from icase r (S pos) 0 t
        | S n => sub_from icase r (S pos) n t
        end
      | None => c :: sub_from icase r (S pos) 0 t
      end
    end
  end.

Definition sub_empty (icase : bool) (r : re) (s : str) : str :=
  sub_from icase r 0 0 s.

(** [s] starts with [k], up to ASCII case under [re.I]. *)
Fixpoint starts (icase : bool) (k s : str) : bool :=
  match k, s with
  | [], _ => true
  | _ :: _, [] => false
  | c :: k', a :: s' => chr_eq icase a c && starts icase k' s'
  end.

(** [f] holds of some suffix of [s]. *)
Fixpoint anywhere (f : str -> bool) (s : str) : bool :=
  f s || match s with
         | [] => false
         | _ :: t => anywhere f t
         end.

(** The keyword [k] occurs in [s], up to ASCII case under [re.I]. *)
Definition occurs (icase : bool) (k s : str) : bool :=
  anywhere (starts icase k) s.

(** [r] matches at position [pos], where the rest of the subject is [s]. *)
Definition accepts (icase : bool) (r : re) (pos : nat) (s : str) : bool :=
  match match_at icase r pos s with Some _ => true | None => false end.

(** A character that is no ASCII letter: [re.I] leaves it alone. *)
Definition caseless (c : N) : bool :=
  negb (((0x41 <=? c) && (c <=? 0x5A)) || ((0x61 <=? c) && (c <=? 0x7A)))%N.

End Re.

(* ================================================================== *)
(** ** [hashlib.sha1]: SHA-1 (FIPS 180-4) on a list of bytes *)

Module Sha1.

Local Open Scope N_scope.

Definition w32 (x : N) : N := x mod 0x100000000.
Definition add32 (x y : N) : N := w32 (x + y).
Definition rotl (n x : N) : N :=
  w32 (N.lor (N.shiftl x n) (N.shiftr x (32 - n))).
Definition not32 (x : N) : N := 0xFFFFFFFF - w32 x.

(** Padding: a 1 bit, zeros up to 56 mod 64, the bit length on 64 bits. *)
Definition be_bytes (n : nat) (x : N) : list N :=
  map (fun i => (x / 256 ^ N.of_nat i) mod 256) (rev (seq 0 n)).

Definition pad (msg : list N) : list N :=
  let len := N.of_nat (length msg) in
  let zeros := N.to_nat ((119 - len mod 64) mod 64) in
  msg ++ [0x80] ++ repeat 0 zeros ++ be_bytes 8 (8 * len).

Definition be_word (bs : list N) : N :=
  fold_left (fun acc b => acc * 256 + b) bs 0.

Fixpoint words (n : nat) (bs : list N) : list N :=
  match n with
  | O => []
  | S m => be_word (firstn 4 bs) :: words m (skipn 4 bs)
  end.

(** Message schedule: the sixteen words of the block extended to eighty. *)
Fixpoint extend (n : nat) (ws : list N) : list N :=
  match n with
  | O => ws
  | S m =>
    let t := length ws in
    let at_ i := nth (t - i) ws 0 in
    extend m (ws ++ [rotl 1 (N.lxor (N.lxor (at_ 3%nat) (at_ 8%nat))
                                        (N.lxor (at_ 14%nat) (at_ 16%nat)))])
  end.

Definition f_round (t : nat) (b c d : N) : N :=
  if (t <? 20)%nat then N.lor (N.land b c) (N.land (not32 b) d)
  else if (t <? 40)%nat then N.lxor (N.lxor b c) d
  else if (t <? 60)%nat then
    N.lor (N.lor (N.land b c) (N.land b d)) (N.land c d)
  else N.lxor (N.lxor b c) d.

Definition k_round (t : nat) : N :=
  if (t <? 20)%nat then 0x5A827999
  else if (t <? 40)%nat then 0x6ED9EBA1
  else if (t <? 60)%nat then 0x8F1BBCDC
  else 0xCA62C1D6.

Definition state : Type := N * N * N * N * N.

Definition round (st : state) (tw : nat * N) : state :=
  let '(a, b, c, d, e) := st in
  let '(t, wt) := tw in
  let tmp :=
    add32 (add32 (add32 (add32 (rotl 5 a) (f_round t b c d)) e) (k_round t))
          wt in
  (tmp, a, rotl 30 b, c, d).

Definition compress (h : state) (block : list N) : state :=
  let ws := extend 64 (words 16 block) in
  let '(a, b, c, d, e) := fold_left round (combine (seq 0 80) ws) h in
  let '(h0, h1, h2, h3, h4) := h in
  (add32 h0 a, add32 h1 b, add32 h2 c, add32 h3 d, add32 h4 e).

Fixpoint blocks (n : nat) (h : state) (bs : list N) : state :=
  match n with
  | O => h
  | S m => blocks m (compress h (firstn 64 bs)) (skipn 64 bs)
  end.

Definition init : state :=
  (0x67452301, 0xEFCDAB89, 0x98BADCFE, 0x10325476, 0xC3D2E1F0).

(** [hashlib.sha1(msg).digest()]: twenty bytes. *)
Definition digest (msg : list N) : list N :=
  let p := pad msg in
  let '(h0, h1, h2, h3, h4) := blocks (length p / 64) init p in
  flat_map (be_bytes 4) [h0; h1; h2; h3; h4].

Definition hex_digit (d : N) : N :=
  if d <? 10 then 0x30 + d else 0x61 + (d - 10).

(** [.hexdigest()]: two lower-case hexadecimal digits for each byte. *)
Definition hex (bs : list N) : str :=
  flat_map (fun b => [hex_digit (b / 16); hex_digit (b mod 16)]) bs.

Definition hexdigest (msg : list N) : str := hex (digest msg).

End Sha1.

(* ================================================================== *)
(** ** [datetime]: calendar values, naive or carrying a zone

    Zones are fixed offsets from UTC, in seconds (Asia/Taipei, the default
    zone of both scripts, is UTC+8 all year).  The day arithmetic follows
    CPython's [_ymd2ord] and [_ord2ymd]. *)

Module Datetime.

Local Open Scope Z_scope.

Record tz : Type := { tzname : str; utcoffset : Z }.

Record datetime : Type := {
  year : Z; month : Z; day : Z;
  hour : Z; minute : Z; second : Z; microsecond : Z;
  tzinfo : option tz
}.

(** [dt.replace(tzinfo=z)] *)
Definition replace_tzinfo (dt : datetime) (z : option tz) : datetime :=
  {| year := year dt; month := month dt; day := day dt;
     hour := hour dt; minute := minute dt; second := second dt;
     microsecond := microsecond dt; tzinfo := z |}.

Definition is_leap (y : Z) : bool :=
  (y mod 4 =? 0) && (negb (y mod 100 =? 0) || (y mod 400 =? 0)).

Definition days_before_year (y : Z) : Z :=
  let p := y - 1 in p * 365 + p / 4 - p / 100 + p / 400.

Definition days_in_month_table : list Z :=
  [31; 28; 31; 30; 31; 30; 31; 31; 30; 31; 30; 31].

Definition days_in_month (y m : Z) : Z :=
  if (m =? 2) && is_leap y then 29
  else nth (Z.to_nat (m - 1)) days_in_month_table 0.

Definition days_before_month (y m : Z) : Z :=
  fold_left Z.add (firstn (Z.to_nat (m - 1)) days_in_month_table) 0
  + (if (2 <? m) && is_leap y then 1 else 0).

Definition ymd2ord (y m d : Z) : Z :=
  days_before_year y + days_before_month y m + d.

Definition ord2ymd (n0 : Z) : Z * Z * Z :=
  let n := n0 - 1 in
  let n400 := n / 146097 in let n := n mod 146097 in
  let n100 := n / 36524 in let n := n mod 36524 in
  let n4 := n / 1461 in let n := n mod 1461 in
  let n1 := n / 365 in let n := n mod 365 in
  let y := n400 * 400 + 1 + n100 * 100 + n4 * 4 + n1 in
  if (n1 =? 4) || (n100 =? 4) then (y - 1, 12, 31)
  else
    let leap := (n1 =? 3) && (negb (n4 =? 24) || (n100 =? 3)) in
    let m := Z.shiftr (n + 50) 5 in
    let preceding :=
      fold_left Z.add (firstn (Z.to_nat (m - 1)) days_in_month_table) 0
      + (if (2 <? m) && leap then 1 else 0) in
    if n <? preceding then
      let m' := m - 1 in
      let preceding' :=
        preceding - (nth (Z.to_nat (m' - 1)) days_in_month_table 0
                     + (if (m' =? 2) && leap then 1 else 0)) in
      (y, m', n - preceding' + 1)
    else (y, m, n - preceding + 1).

(** Seconds of the wall clock since the start of day 0. *)
Definition wall_seconds (dt : datetime) : Z :=
  ((ymd2ord (year dt) (month dt) (day dt) * 24 + hour dt) * 60 + minute dt)
  * 60 + second dt.

Definition max_ordinal : Z := 3652059.   (* 9999-12-31 *)

(** The value at wall-clock second [t]; [None] is OverflowError. *)
Definition of_wall_seconds (t us : Z) (z : option tz) : option datetime :=
  let ord := t / 86400 in
  let r := t mod 86400 in
  if (1 <=? ord) && (ord <=? max_ordinal) then
    let '(y, m, d) := ord2ymd ord in
    Some {| year := y; month := m; day := d;
            hour := r / 3600; minute := (r / 60) mod 60; second := r mod 60;
            microsecond := us; tzinfo := z |}
  else None.

(** [dt.astimezone(dst)] for a value whose zone is [src]:
    [utc = (self - offset).replace(tzinfo=dst)], then [dst.fromutc(utc)]. *)
Definition astimezone (src : tz) (dt : datetime) (dst : tz)
  : option datetime :=
  match of_wall_seconds (wall_seconds dt - utcoffset src) (microsecond dt)
          (Some dst) with
  | Some utc =>
    of_wall_seconds (wall_seconds utc + utcoffset dst) (microsecond dt)
      (Some dst)
  | None => None
  end.

Definition naive (y m d hh mm ss : Z) : datetime :=
  {| year := y; month := m; day := d; hour := hh; minute := mm;
     second := ss; microsecond := 0; tzinfo := None |}.

Definition aware (dt : datetime) : Prop := tzinfo dt <> None.

End Datetime.

(* ================================================================== *)
(** ** BeautifulSoup: the parsed document and the queries the scripts make *)

Module Soup.

(** The tree BeautifulSoup makes of a page: the tags, and between them the
    strings [get_text] yields ([NavigableString]).  Comments and the text
    of [script], [style] and [template] elements, which [get_text] passes
    over, are no part of the tree. *)
Inductive node : Type :=
| Text (s : str)                                            (* NavigableString *)
| Tag (name : str) (attrs : list (str * str)) (children : list node).

(** [tag.descendants]: document order. *)
Fixpoint descendants (n : node) : list node :=
  match n with
  | Text _ => []
  | Tag _ _ cs => flat_map (fun c => c :: descendants c) cs
  end.

Definition is_tag (name : str) (n : node) : bool :=
  match n with
  | Text _ => false
  | Tag nm _ _ => str_eqb nm name
  end.

Fixpoint assoc (k : str) (l : list (str * str)) : option str :=
  match l with
  | [] => None
  | (k', v) :: t => if str_eqb k' k then Some v else assoc k t
  end.

(** [tag[key]] / [tag.get(key)] *)
Definition attr (key : str) (n : node) : option str :=
  match n with
  | Text _ => None
  | Tag _ attrs _ => assoc key attrs
  end.

(** [tag.find_all(name)] *)
Definition find_all (name : str) (n : node) : list node :=
  filter (is_tag name) (descendants n).

(** [tag.find(name)] *)
Definition find (name : str) (n : node) : option node :=
  hd_error (find_all name n).

(** [tag.find("a", href=True)]: the first link that has an [href]. *)
Definition find_a_href (n : node) : option node :=
  hd_error (filter (fun a => match attr (u "href") a with
                             | Some _ => true | None => false end)
                   (find_all (u "a") n)).

(** [soup.select("table tr")]: rows below some table, document order. *)
Fixpoint select_rows (in_table : bool) (n : node) : list node :=
  match n with
  | Text _ => []
  | Tag _ _ cs =>
    flat_map (fun c =>
      (if in_table && is_tag (u "tr") c then [c] else [])
      ++ select_rows (in_table || is_tag (u "table") c) c) cs
  end.

Definition select_table_tr (soup : node) : list node :=
  select_rows false soup.

(** The strings below a tag, as [_all_strings] yields them. *)
Definition all_strings (strip_ : bool) (n : node) : list str :=
  flat_map (fun d =>
    match d with
    | Text s =>
      if strip_ then
        match strip s with [] => [] | s' => [s'] end
      else [s]
    | Tag _ _ _ => []
    end) (descendants n).

(** [tag.get_text(sep, strip=...)] *)
Definition get_text (sep : str) (strip_ : bool) (n : node) : str :=
  join sep (all_strings strip_ n).

(** Every string of the document with its parent tag, document order. *)
Fixpoint strings_with_parent (n : node) : list (str * node) :=
  match n with
  | Text _ => []
  | Tag _ _ cs =>
    flat_map (fun c =>
      match c with
      | Text s => [(s, n)]
      | Tag _ _ _ => strings_with_parent c
      end) cs
  end.

(** [soup.find_all(text=pattern)]: the strings the pattern is found in. *)
Definition find_all_text (icase : bool) (r : Re.re) (soup : node)
  : list (str * node) :=
  filter (fun sp => Re.found icase r (fst sp)) (strings_with_parent soup).

End Soup.

(* ================================================================== *)
(** ** Exceptions, the HTTP session and standard output *)

Module Py.

Inductive exn : Type :=
| ConnectionError                 (* requests could not get an answer *)
| HTTPError (status : N)          (* [raise_for_status] on a 4xx/5xx answer *)
| ParserError                     (* [BeautifulSoup(text, "lxml")] failed *)
| OverflowError                   (* a date left the range of [datetime] *)
| UnicodeEncodeError              (* [encode("utf-8")] met a lone surrogate *)
| OSError                         (* [os.makedirs], [open] or a write failed *)
| SystemExit (code : N).          (* [sys.exit] *)

(** [except Exception] catches everything but [SystemExit]. *)
Definition is_Exception (e : exn) : bool :=
  match e with SystemExit _ => false | _ => true end.

Inductive res (A : Type) : Type :=
| Ok (a : A)
| Raise (e : exn).
Arguments Ok {A} a.
Arguments Raise {A} e.

(** What the site answers to one GET: nothing, or a status and a body.  The
    body is what BeautifulSoup makes of [r.text], [None] where it raises. *)
Inductive reply : Type :=
| NoReply
| Reply (status : N) (body : option Soup.node).

Record response : Type := { status_code : N; text : option Soup.node }.

(** A printed line; the text of an exception is kept as the exception. *)
Inductive line : Type :=
| Info (msg : str)
| Warn (msg : str) (e : exn).

(** The state of a run: the requests sent so far and what was printed. *)
Record session : Type := { requests : list str; stdout : list line }.

Definition fresh : session := {| requests := []; stdout := [] |}.

Definition M (A : Type) : Type := session -> res A * session.

Definition ret {A} (a : A) : M A := fun s => (Ok a, s).
Definition raise {A} (e : exn) : M A := fun s => (Raise e, s).
Definition bind {A B} (m : M A) (f : A -> M B) : M B :=
  fun s =>
    match m s with
    | (Ok a, s') => f a s'
    | (Raise e, s') => (Raise e, s')
    end.
Definition lift {A} (r : res A) : M A := fun s => (r, s).

(** [try: m  except Exception as e: h e] *)
Definition try_except {A} (m : M A) (h : exn -> M A) : M A :=
  fun s =>
    match m s with
    | (Ok a, s') => (Ok a, s')
    | (Raise e, s') => if is_Exception e then h e s' else (Raise e, s')
    end.

Definition print (l : line) : M unit :=
  fun s => (Ok tt, {| requests := requests s; stdout := stdout s ++ [l] |}).

(** [len(xs)] inside an f-string *)
Definition decimal (n : nat) : str :=
  u (NilZero.string_of_uint (Nat.to_uint n)).

Section Session.

(** The site: its answer to a request, given the requests before it. *)
Variable server : list str -> str -> reply.

(** [sess.get(url)] *)
Definition sess_get (url : str) : M response :=
  fun s =>
    let s' := {| requests := requests s ++ [url]; stdout := stdout s |} in
    match server (requests s) url with
    | NoReply => (Raise ConnectionError, s')
    | Reply st body => (Ok {| status_code := st; text := body |}, s')
    end.

(** [r.raise_for_status()] *)
Definition raise_for_status (r : response) : M unit :=
  if ((400 <=? status_code r) && (status_code r <? 600))%N
  then raise (HTTPError (status_code r))
  else ret tt.

End Session.

(** [BeautifulSoup(html, "lxml")] *)
Definition BeautifulSoup (html : option Soup.node) : res Soup.node :=
  match html with
  | Some soup => Ok soup
  | None => Raise ParserError
  end.

End Py.

Declare Scope py_scope.
Delimit Scope py_scope with py.
Notation "x <- m ;; k" := (Py.bind m (fun x => k))
  (at level 61, m at next level, right associativity) : py_scope.
Notation "m ;;; k" := (Py.bind m (fun _ => k))
  (at level 61, right associativity) : py_scope.

Import Datetime Soup Py.
Local Open Scope py_scope.

(** [DisplayAlarm(trigger=timedelta(...))]: the offset in seconds. *)
Record DisplayAlarm : Type := { trigger : Z }.

(** [ics.Event], with the attributes the scripts set. *)
Record Event : Type := {
  name : str;
  begin : datetime;
  end_ : datetime;
  created : datetime;
  last_modified : datetime;
  url : str;
  description : str;
  uid : str;
  alarms : list DisplayAlarm
}.

(** [ics.Calendar].  Its [events] are a Python set, in which two events are
    one member when their [uid]s are equal ([Event.__eq__] and
    [Event.__hash__] of ics read the [uid] alone).  The list holds the
    members, each once; the set has no order, and that of the list, the
    order in which the members came in, stands for none. *)
Record Calendar : Type := { events : list Event }.

(** [Event.__eq__] of ics *)
Definition same_event (e e' : Event) : bool := str_eqb (uid e) (uid e').

(** [cal.events.add(e)]: the set stays as it is when it has an equal
    member. *)
Definition add_event (e : Event) (es : list Event) : list Event :=
  if existsb (same_event e) es then es else es ++ [e].

Definition reminders : list DisplayAlarm :=
  [ {| trigger := -1 * 86400 |};      (* timedelta(days=-1) *)
    {| trigger := -3 * 3600 |} ].     (* timedelta(hours=-3) *)

(* ================================================================== *)
(** ** [ilearning_to_ics.py]: the Moodle-like scraper *)

Module Moodle.

(** One element of the list [parse_assign_table] returns. *)
Record assignment : Type := {
  title : str;
  due_at : datetime;
  a_url : str;
  course_id : str
}.

(** [r"(due|截止|繳交|期限|到期)"], used with [re.I] *)
Definition due_label : Re.re :=
  Re.Alt (Re.lit (u "due"))
 (Re.Alt (Re.lit (u "截止"))
 (Re.Alt (Re.lit (u "繳交"))
 (Re.Alt (Re.lit (u "期限"))
         (Re.lit (u "到期"))))).

(** [r"(\d{4}[/-]\d{1,2}[/-]\d{1,2}([ T]\d{1,2}:\d{2})?)"] *)
Definition date_token : Re.re :=
  Re.Cat (Re.Rep isdecimal 4 (Some 4))
 (Re.Cat (Re.Cls (Re.one_of (u "/-")))
 (Re.Cat (Re.Rep isdecimal 1 (Some 2))
 (Re.Cat (Re.Cls (Re.one_of (u "/-")))
 (Re.Cat (Re.Rep isdecimal 1 (Some 2))
         (Re.Opt
            (Re.Cat (Re.Cls (Re.one_of (u " T")))
            (Re.Cat (Re.Rep isdecimal 1 (Some 2))
            (Re.Cat (Re.Chr 58 (* : *))
                    (Re.Rep isdecimal 2 (Some 2)))))))))).

(** [r"^(Due date|截止|繳交期限|到期)[:：]?\s*"], used with [re.I] *)
Definition label_prefix : Re.re :=
  Re.Cat Re.Bol
 (Re.Cat (Re.Alt (Re.lit (u "Due date"))
         (Re.Alt (Re.lit (u "截止"))
         (Re.Alt (Re.lit (u "繳交期限"))
                 (Re.lit (u "到期")))))
 (Re.Cat (Re.Opt (Re.Cls (Re.one_of (u ":："))))
         (Re.Rep isspace 0 None))).

(** Lines 111-115: the last cell that carries a due-date label, or [""]. *)
Definition labelled_cell (tds : list str) : str :=
  match List.find (Re.found true due_label) (rev tds) with
  | Some td_text => td_text
  | None => []
  end.

(** Lines 111-120: [due_text] as it stands before the test of line 121. *)
Definition find_due_text (tds : list str) : str :=
  let due_text := labelled_cell tds in
  if negb (truthy due_text) then
    match Re.search_text false date_token (join (u " ") tds) with
    | Some token => token
    | None => due_text
    end
  else due_text.

(** Line 125: the label prefix removed. *)
Definition clean_prefix (due_text : str) : str :=
  Re.sub_empty true label_prefix due_text.

(** [hashlib.sha1(s.encode("utf-8")).hexdigest() + "@ilearning-ics"] *)
Definition stable_uid (s : str) : res str :=
  match encode_utf8 s with
  | Some bytes => Ok (Sha1.hexdigest bytes ++ u "@ilearning-ics")
  | None => Raise UnicodeEncodeError
  end.

Section Program.

(** [dtparser.parse(text, dayfirst=..., fuzzy=True)] of dateutil; [None]
    stands for any exception it raises. *)
Variable dtparse : bool -> str -> option datetime.
(** [urllib.parse.urljoin], where it returns: the [ValueError] it raises on
    a reference it cannot split (a host part with an unclosed bracket) is
    not modelled. *)
Variable urljoin : str -> str -> str.

(** Settings read from the environment when the script starts. *)
Variable BASE : str.
Variable COURSE_IDS : list str.
Variable ICS_OUTPUT : str.
Variable LOCAL_TZ : tz.

Variable server : list str -> str -> reply.
(** The login exchange, which the model leaves to the site. *)
Variable login : M unit.
(** [datetime.now(tz=LOCAL_TZ)] when the calendar is built. *)
Variable now : datetime.
(** [os.makedirs(path, exist_ok=True)], and [open(path, "w",
    encoding="utf-8")] with [f.writelines(cal)]: the file system is left to
    the environment, as the site is. *)
Variable makedirs : str -> M unit.
Variable write_lines : str -> Calendar -> M unit.

(** Lines 132-135: the local zone attached, or converted to. *)
Definition localize (dt : datetime) : res datetime :=
  match tzinfo dt with
  | None => Ok (replace_tzinfo dt (Some LOCAL_TZ))
  | Some zone =>
    match astimezone zone dt LOCAL_TZ with
    | Some dt' => Ok dt'
    | None => Raise OverflowError
    end
  end.

(** Lines 124-135: from the due text of a row to its instant; [Ok None] is
    the [continue] after a failed parse. *)
Definition parse_due_text (due_text : str) : res (option datetime) :=
  match dtparse false (clean_prefix due_text) with
  | None => Ok None
  | Some dt =>
    match localize dt with
    | Ok dt' => Ok (Some dt')
    | Raise e => Raise e
    end
  end.

(** The body of the loop of [parse_assign_table] for one [tr]: [Ok None]
    where the source says [continue]. *)
Definition assign_row (cid : str) (tr : node) : res (option assignment) :=
  match find_a_href tr with
  | None => Ok None
  | Some a =>
    let href := match attr (u "href") a with Some h => h | None => [] end in
    if negb (contains (u "mod/assign") href) then Ok None
    else
      let title := get_text [] true a in
      let tds := map (get_text (u " ") true) (find_all (u "td") tr) in
      let due_text := find_due_text tds in
      if negb (truthy due_text) then Ok None
      else
        match parse_due_text due_text with
        | Raise e => Raise e
        | Ok None => Ok None
        | Ok (Some dt) =>
          let url :=
            urljoin (BASE ++ u "/") (lstrip_by (Re.one_of (u "/")) href) in
          Ok (Some {| title := title; due_at := dt; a_url := url;
                      course_id := cid |})
        end
  end.

Fixpoint assign_rows (cid : str) (rows : list node)
    (events : list assignment) : res (list assignment) :=
  match rows with
  | [] => Ok events
  | tr :: rest =>
    match assign_row cid tr with
    | Raise e => Raise e
    | Ok None => assign_rows cid rest events
    | Ok (Some ev) => assign_rows cid rest (events ++ [ev])
    end
  end.

Definition parse_assign_table (html : option node) (cid : str)
  : res (list assignment) :=
  match BeautifulSoup html with
  | Raise e => Raise e
  | Ok soup =>
    match find (u "table") soup with
    | None => Ok []
    | Some table => assign_rows cid (find_all (u "tr") table) []
    end
  end.

Definition fetch_course_assignments (cid : str) : M (list assignment) :=
  let url := urljoin BASE (u "/mod/assign/index.php?id=" ++ cid) in
  r <- sess_get server url ;;
  raise_for_status r ;;;
  lift (parse_assign_table (text r) cid).

Definition build_event (ev : assignment) : res Event :=
  match stable_uid (a_url ev ++ title ev) with
  | Raise e => Raise e
  | Ok id =>
    Ok {| name := u "[iLearning] " ++ title ev;
          begin := due_at ev;
          end_ := due_at ev;
          created := now;
          last_modified := now;
          url := a_url ev;
          description :=
            u "來源: " ++ a_url ev ++ u "\n課程ID: " ++ course_id ev;
          uid := id;
          alarms := reminders |}
  end.

Fixpoint build_events (evs : list assignment) (acc : list Event)
  : res (list Event) :=
  match evs with
  | [] => Ok acc
  | ev :: rest =>
    match build_event ev with
    | Raise e => Raise e
    | Ok e => build_events rest (add_event e acc)
    end
  end.

Definition build_calendar (evs : list assignment) : res Calendar :=
  match build_events evs [] with
  | Raise e => Raise e
  | Ok es => Ok {| events := es |}
  end.

(** The loop of [main] over [COURSE_IDS], lines 180-187. *)
Fixpoint fetch_all (cids : list str) (all_events : list assignment)
  : M (list assignment) :=
  match cids with
  | [] => ret all_events
  | cid :: rest =>
    all_events' <-
      try_except
        (print (Info (u "[iLearning-ICS] Fetching course " ++ cid
                      ++ u " assignments...")) ;;;
         evs <- fetch_course_assignments cid ;;
         print (Info (u "  -> " ++ decimal (length evs)
                      ++ u " assignments")) ;;;
         ret (all_events ++ evs))
        (fun e =>
           print (Warn (u "[WARN] Failed course " ++ cid ++ u ": ") e) ;;;
           ret all_events) ;;
    fetch_all rest all_events'
  end.

(** [main]; the calendar it returns is the one the script has written to
    [ICS_OUTPUT]. *)
Definition main : M Calendar :=
  print (Info (u "[iLearning-ICS] Logging in...")) ;;;
  login ;;;
  all_events <- fetch_all COURSE_IDS [] ;;
  cal <- lift (build_calendar all_events) ;;
  let out_path := ICS_OUTPUT in
  makedirs (dirname out_path) ;;;
  write_lines out_path cal ;;;
  print (Info (u "[iLearning-ICS] Wrote " ++ out_path ++ u " with "
               ++ decimal (length all_events) ++ u " events.")) ;;;
  ret cal.

End Program.

End Moodle.

(* ================================================================== *)
(** ** [ilearning_to_ics_nchu.py]: the NCHU ee-class scraper *)

Module Nchu.

(** A candidate: [(title, due, url)], [due] being [None] until resolved. *)
Definition item : Type := str * option datetime * str.

(** [r"(繳交期限|截止|到期|Due|截止時間)[:：]?\s*"], used with [re.I] *)
Definition label_any : Re.re :=
  Re.Cat (Re.Alt (Re.lit (u "繳交期限"))
         (Re.Alt (Re.lit (u "截止"))
         (Re.Alt (Re.lit (u "到期"))
         (Re.Alt (Re.lit (u "Due"))
                 (Re.lit (u "截止時間"))))))
 (Re.Cat (Re.Opt (Re.Cls (Re.one_of (u ":："))))
         (Re.Rep isspace 0 None)).

(** [r"\d{4}[/-]\d{1,2}[/-]\d{1,2}(?:\s+\d{1,2}:\d{2})?"] *)
Definition date_token : Re.re :=
  Re.Cat (Re.Rep isdecimal 4 (Some 4))
 (Re.Cat (Re.Cls (Re.one_of (u "/-")))
 (Re.Cat (Re.Rep isdecimal 1 (Some 2))
 (Re.Cat (Re.Cls (Re.one_of (u "/-")))
 (Re.Cat (Re.Rep isdecimal 1 (Some 2))
         (Re.Opt
            (Re.Cat (Re.Rep isspace 1 None)
            (Re.Cat (Re.Rep isdecimal 1 (Some 2))
            (Re.Cat (Re.Chr 58 (* : *))
                    (Re.Rep isdecimal 2 (Some 2)))))))))).

(** [r"(繳交期限|截止|到期|Due)"], used with [re.I] *)
Definition due_label : Re.re :=
  Re.Alt (Re.lit (u "繳交期限"))
 (Re.Alt (Re.lit (u "截止"))
 (Re.Alt (Re.lit (u "到期"))
         (Re.lit (u "Due")))).

(** Lines 128-135: the text handed to [parse_due] for a row. *)
Definition find_due_text (tds : list str) : str :=
  let row_text := join (u " ") tds in
  match List.find (Re.found true due_label) (rev tds) with
  | Some td_text => if truthy td_text then td_text else row_text
  | None => row_text
  end.

Section Program.

Variable dtparse : bool -> str -> option datetime.
(** [urllib.parse.urljoin], where it returns, as in the Moodle scraper. *)
Variable urljoin : str -> str -> str.

Variable BASE : str.
Variable HOMEWORK_URLS : list str.
Variable ICS_OUTPUT : str.
Variable DEEP_FETCH : bool.
Variable LOCAL_TZ : tz.

Variable server : list str -> str -> reply.
Variable login : M unit.
Variable now : datetime.
Variable makedirs : str -> M unit.
Variable write_lines : str -> Calendar -> M unit.

Definition to_abs (url_or_path : str) : str :=
  if startswith (u "http") url_or_path then url_or_path
  else urljoin (BASE ++ u "/") (lstrip_by (Re.one_of (u "/")) url_or_path).

(** The [except] branch of [parse_due], lines 101-108; the second call of
    the parser leaves [dayfirst] to its default, which is [False]. *)
Definition parse_due_fallback (txt : str) : option datetime :=
  match Re.search_text false date_token txt with
  | Some token => dtparse false token
  | None => None
  end.

Definition parse_due (text : str) : option datetime :=
  let txt := Re.sub_empty true label_any text in
  match dtparse false txt with
  | Some dt => Some dt
  | None => parse_due_fallback txt
  end.

(** The body of the loop of [parse_list_page] for one [tr]; [None] where
    the source says [continue]. *)
Definition list_row (list_url : str) (tr : node) : option item :=
  match find_a_href tr with
  | None => None
  | Some a =>
    let href := match attr (u "href") a with Some h => h | None => [] end in
    if negb (contains (u "/course/homework/content") href)
       && negb (contains (u "/homework/content") href)
       && negb (contains (u "/homework") href)
    then None
    else
      let title := get_text [] true a in
      let tds := map (get_text (u " ") true) (find_all (u "td") tr) in
      let dt := parse_due (find_due_text tds) in
      let detail_url := urljoin list_url href in
      Some (title, dt, detail_url)
  end.

Fixpoint list_rows (list_url : str) (rows : list node) (events : list item)
  : list item :=
  match rows with
  | [] => events
  | tr :: rest =>
    match list_row list_url tr with
    | None => list_rows list_url rest events
    | Some ev => list_rows list_url rest (events ++ [ev])
    end
  end.

Definition parse_list_page (html : option node) (list_url : str)
  : res (list item) :=
  match BeautifulSoup html with
  | Raise e => Raise e
  | Ok soup => Ok (list_rows list_url (select_table_tr soup) [])
  end.

Definition parse_detail_due (html : option node) : res (option datetime) :=
  match BeautifulSoup html with
  | Raise e => Raise e
  | Ok soup =>
    let candidates :=
      map (fun lp =>
             let block := fst lp in
             let parent_text := get_text (u " ") true (snd lp) in
             if truthy parent_text then parent_text else block)
          (find_all_text true due_label soup) in
    let text :=
      match candidates with
      | [] => get_text (u " ") true soup
      | _ => join (u " ") candidates
      end in
    Ok (parse_due text)
  end.

(** Lines 163-166 of [build_calendar]. *)
Definition localize (due_at : datetime) : res datetime :=
  match tzinfo due_at with
  | None => Ok (replace_tzinfo due_at (Some LOCAL_TZ))
  | Some zone =>
    match astimezone zone due_at LOCAL_TZ with
    | Some dt' => Ok dt'
    | None => Raise OverflowError
    end
  end.

(** The [uid] expression of line 175. *)
Definition event_uid (url title : str) : res str :=
  match encode_utf8 (url ++ title) with
  | Some bytes => Ok (Sha1.hexdigest bytes ++ u "@eeclass-ics")
  | None => Raise UnicodeEncodeError
  end.

(** The body of the loop of [build_calendar] for one item; [Ok None] where
    the source says [continue]. *)
Definition build_event (e : item) : res (option Event) :=
  let '(title, due, url) := e in
  match due with
  | None => Ok None
  | Some due_at =>
    match localize due_at with
    | Raise x => Raise x
    | Ok due_at =>
      match event_uid url title with
      | Raise x => Raise x
      | Ok id =>
        Ok (Some {| name := u "[iLearning] " ++ title;
                    begin := due_at;
                    end_ := due_at;
                    created := now;
                    last_modified := now;
                    url := url;
                    description := u "來源: " ++ url;
                    uid := id;
                    alarms := reminders |})
      end
    end
  end.

Fixpoint build_events (evs : list item) (acc : list Event)
  : res (list Event) :=
  match evs with
  | [] => Ok acc
  | e :: rest =>
    match build_event e with
    | Raise x => Raise x
    | Ok None => build_events rest acc
    | Ok (Some ev) => build_events rest (add_event ev acc)
    end
  end.

Definition build_calendar (evs : list item) : res Calendar :=
  match build_events evs [] with
  | Raise x => Raise x
  | Ok es => Ok {| events := es |}
  end.

(** Lines 194-204: the deep fetch of one candidate. *)
Definition enrich_item (it : item) : M item :=
  let '(title, dt0, url) := it in
  dt1 <-
    match dt0 with
    | None =>
      try_except
        (rr <- sess_get server url ;;
         raise_for_status rr ;;;
         d <- lift (parse_detail_due (text rr)) ;;
         ret (match d with Some _ => d | None => dt0 end))
        (fun _ => ret dt0)
    | Some _ => ret dt0
    end ;;
  ret (title, dt1, url).

Fixpoint enrich (items enriched : list item) : M (list item) :=
  match items with
  | [] => ret enriched
  | it :: rest =>
    it' <- enrich_item it ;;
    enrich rest (enriched ++ [it'])
  end.

(** Line 208: [[(t, d, url) for (t, d, url) in items if t]] *)
Definition with_title (items : list item) : list item :=
  filter (fun it => truthy (fst (fst it))) items.

(** The body of the loop of [main] for one list URL, lines 185-210. *)
Definition fetch_list (u0 : str) (all_events : list item) : M (list item) :=
  let absu := to_abs u0 in
  print (Info (u "[eeclass-ICS] Fetch " ++ absu)) ;;;
  r <- sess_get server absu ;;
  raise_for_status r ;;;
  items <- lift (parse_list_page (text r) absu) ;;
  items <- (if DEEP_FETCH then enrich items [] else ret items) ;;
  let items := with_title items in
  print (Info (u "  -> " ++ decimal (length items) ++ u " candidates")) ;;;
  ret (all_events ++ items).

Fixpoint fetch_all (urls : list str) (all_events : list item)
  : M (list item) :=
  match urls with
  | [] => ret all_events
  | u0 :: rest =>
    all_events' <- fetch_list u0 all_events ;;
    fetch_all rest all_events'
  end.

Definition main : M Calendar :=
  print (Info (u "[eeclass-ICS] Logging in...")) ;;;
  login ;;;
  all_events <- fetch_all HOMEWORK_URLS [] ;;
  cal <- lift (build_calendar all_events) ;;
  let out_path := ICS_OUTPUT in
  makedirs (dirname out_path) ;;;
  write_lines out_path cal ;;;
  print (Info (u "[eeclass-ICS] Wrote " ++ out_path)) ;;;
  ret cal.

End Program.

End Nchu.

(* ================================================================== *)
(** ** A reference reading of [dateutil.parser.parse(..., fuzzy=True)]

    The scrapers are verified for any parser.  This one, which reads dates
    written in digits with [-], [/] or [.] between the fields and times
    written [H:MM] or [H:MM:SS], skipping every other word, is the instance
    on which the code is run on concrete pages.  The order of the fields
    follows dateutil's [resolve_ymd] with [yearfirst=False]. *)

Module Dateutil.

Local Open Scope Z_scope.

Inductive token : Type :=
| TNum (digits : str)
| TWord (w : str)
| TSym (c : N)
| TSpace.

Definition is_digit (c : N) : bool := ((0x30 <=? c) && (c <=? 0x39))%N.
Definition is_punct (c : N) : bool :=
  ((c <? 0x80) && negb (is_digit c) && negb (isspace c)
   && negb (((0x41 <=? c) && (c <=? 0x5A)) || ((0x61 <=? c) && (c <=? 0x7A))))%N.

(** The lexer: runs of digits, runs of letters, single symbols; a run of
    white space is one token. *)
Fixpoint lex (s : str) (cur : option token) : list token :=
  let flush := match cur with Some t => [t] | None => [] end in
  match s with
  | [] => flush
  | c :: rest =>
    if is_digit c then
      match cur with
      | Some (TNum ds) => lex rest (Some (TNum (ds ++ [c])))
      | _ => flush ++ lex rest (Some (TNum [c]))
      end
    else if isspace c then
      match cur with
      | Some TSpace => lex rest cur
      | _ => flush ++ lex rest (Some TSpace)
      end
    else if is_punct c then flush ++ TSym c :: lex rest None
    else
      match cur with
      | Some (TWord w) => lex rest (Some (TWord (w ++ [c])))
      | _ => flush ++ lex rest (Some (TWord [c]))
      end
  end.

Definition value (digits : str) : Z :=
  fold_left (fun acc c => acc * 10 + (Z.of_N c - 48)) digits 0.

(** What has been read so far: the date fields in the order met, each
    with the mark of a field written on more than two digits (a year), and
    the time. *)
Record result : Type := {
  ymd : list (Z * bool);
  hms : option (Z * Z * Z)
}.

Definition empty : result := {| ymd := []; hms := None |}.

Definition add_ymd (digits : str) (r : result) : option result :=
  let is_year := Nat.ltb 2 (length digits) in
  if is_year && existsb snd (ymd r) then None      (* Year is already set *)
  else Some {| ymd := ymd r ++ [(value digits, is_year)]; hms := hms r |}.

Definition set_hms (h m s : Z) (r : result) : result :=
  {| ymd := ymd r; hms := Some (h, m, s) |}.

Definition is_date_sep (c : N) : bool :=
  ((c =? 0x2D) || (c =? 0x2F) || (c =? 0x2E))%N.     (* - / . *)

Definition bind_opt {A B} (o : option A) (f : A -> option B) : option B :=
  match o with Some a => f a | None => None end.

Fixpoint scan (ts : list token) (r : result) : option result :=
  match ts with
  | [] => Some r
  | TNum a :: rest0 =>
    match rest0 with
    | TSym c :: TNum b :: rest1 =>
      if (c =? 0x3A)%N then                                   (* H:MM *)
        match rest1 with
        | TSym c' :: TNum s :: rest2 =>
          if (c' =? 0x3A)%N
          then scan rest2 (set_hms (value a) (value b) (value s) r)
          else scan rest1 (set_hms (value a) (value b) 0 r)
        | _ => scan rest1 (set_hms (value a) (value b) 0 r)
        end
      else if is_date_sep c then                              (* Y-M-D *)
        bind_opt (add_ymd a r) (fun r1 =>
        bind_opt (add_ymd b r1) (fun r2 =>
          match rest1 with
          | TSym c' :: TNum d :: rest2 =>
            if (c' =? c)%N
            then bind_opt (add_ymd d r2) (scan rest2)
            else scan rest1 r2
          | _ => scan rest1 r2
          end))
      else bind_opt (add_ymd a r) (scan rest0)
    | _ =>
      if Nat.eqb (length (ymd r)) 3
         && (Nat.eqb (length a) 2 || Nat.eqb (length a) 4)
         && match hms r with None => true | Some _ => false end
      then                                       (* HH or HHMM after a date *)
        scan rest0 (set_hms (value (firstn 2 a)) (value (skipn 2 a)) 0 r)
      else bind_opt (add_ymd a r) (scan rest0)
    end
  | _ :: rest0 => scan rest0 r
  end.

(** [resolve_ymd]: which field is the year, the month and the day. *)
Definition resolve_ymd (dayfirst : bool) (l : list (Z * bool))
  : option (option Z * option Z * option Z) :=
  match l with
  | [] => Some (None, None, None)
  | [(a, ya)] =>
    if ya || (31 <? a) then Some (Some a, None, None)
    else Some (None, None, Some a)
  | [(a, _); (b, _)] =>
    if 31 <? a then Some (Some a, Some b, None)
    else if 31 <? b then Some (Some b, Some a, None)
    else if dayfirst && (b <=? 12) then Some (None, Some b, Some a)
    else Some (None, Some a, Some b)
  | [(a, ya); (b, _); (c, _)] =>
    if (31 <? a) || ya then
      if dayfirst && (c <=? 12) then Some (Some a, Some c, Some b)
      else Some (Some a, Some b, Some c)
    else if (12 <? a) || (dayfirst && (b <=? 12)) then
      Some (Some c, Some b, Some a)
    else Some (Some c, Some a, Some b)
  | _ => None                                   (* more than three values *)
  end.

(** [convertyear]: a year on two digits is read near the current year. *)
Definition convertyear (this_year y : Z) (century_specified : bool) : Z :=
  if (y <? 100) && negb century_specified then
    let y' := y + this_year / 100 * 100 in
    if this_year + 50 <=? y' then y' - 100
    else if y' <? this_year - 50 then y' + 100
    else y'
  else y.

Definition or_default (o : option Z) (d : Z) : Z :=
  match o with Some v => v | None => d end.

(** [parse(s, dayfirst=..., fuzzy=True, default=default)]; [default] is
    today at midnight unless the caller says otherwise. *)
Definition parse (default : datetime) (dayfirst : bool) (s : str)
  : option datetime :=
  bind_opt (scan (lex s None) empty) (fun r =>
  bind_opt (resolve_ymd dayfirst (ymd r)) (fun '(y, m, d) =>
    match ymd r, hms r with
    | [], None => None                     (* the text holds no date *)
    | _, _ =>
      let yy :=
        match y with
        | Some v => convertyear (year default) v (existsb snd (ymd r))
        | None => year default
        end in
      let mm := or_default m (month default) in
      let dd :=
        match d with
        | Some v => v
        | None => Z.min (day default) (days_in_month yy mm)
        end in
      let '(h, mi, sec) :=
        match hms r with
        | Some t => t
        | None => (hour default, minute default, second default)
        end in
      if (1 <=? yy) && (yy <=? 9999) && (1 <=? mm) && (mm <=? 12)
         && (1 <=? dd) && (dd <=? days_in_month yy mm)
         && (h <? 24) && (mi <? 60) && (sec <? 60)
      then Some {| year := yy; month := mm; day := dd;
                   hour := h; minute := mi; second := sec;
                   microsecond := microsecond default;
                   tzinfo := tzinfo default |}
      else None
    end)).

(** A day on which the scripts are run, at midnight. *)
Definition today : datetime := naive 2025 9 1 0 0 0.

End Dateutil.

(* ================================================================== *)
(** ** A sample site, to run both scripts on *)

Module Site.

(** [urljoin] on the URLs of the sample site: an absolute reference is
    kept, a relative one is put after a base that has no path or ends
    in [/]. *)
Definition urljoin (base ref : str) : str :=
  if startswith (u "http") ref then ref else base ++ ref.

Definition dtparse : bool -> str -> option datetime :=
  Dateutil.parse Dateutil.today.

Definition BASE : str := u "https://lms.example.edu".
Definition taipei : tz := {| tzname := u "Asia/Taipei"; utcoffset := 28800 |}.
Definition now : datetime :=
  replace_tzinfo (naive 2025 9 1 8 30 0) (Some taipei).
Definition login : M unit := ret tt.
(** A file system on which a directory can be made and written to, the
    directory of the empty name apart. *)
Definition makedirs (path : str) : M unit :=
  if truthy path then ret tt else raise OSError.
Definition write_lines (path : str) (cal : Calendar) : M unit := ret tt.

Definition td (s : string) : node := Tag (u "td") [] [Text (u s)].
Definition link (href s : string) : node :=
  Tag (u "a") [(u "href", u href)] [Text (u s)].
Definition row (cells : list node) : node := Tag (u "tr") [] cells.
Definition page (rows : list node) : node :=
  Tag (u "[document]") []
    [Tag (u "html") [] [Tag (u "body") [] [Tag (u "table") [] rows]]].

(** The assignment index of course 101 on a Moodle-like site. *)
Definition moodle_page : node :=
  page
    [ row [Tag (u "th") [] [Text (u "Course")];
           Tag (u "th") [] [Text (u "Assignment")]];
      row [td "CourseX";
           Tag (u "td") [] [link "/mod/assign/view.php?id=1" " Essay 1 "];
           td "Submitted: none";
           td "Due date: 2025-12-01 23:59"];
      row [td "CourseX";
           Tag (u "td") [] [link "/mod/forum/view.php?id=2" "Forum"];
           td "2025-10-10 10:00"] ].

(** A row whose link shows an icon and no text. *)
Definition icon_row : node :=
  row [td "CourseX";
       Tag (u "td") []
         [Tag (u "a") [(u "href", u "/mod/assign/view.php?id=5")]
            [Tag (u "img") [(u "src", u "icon.png")] []]];
       td "Due date: 2025-09-20 23:59"].

Definition moodle_icon_page : node := page [icon_row].

Definition moodle_index (cid : string) : str :=
  u "https://lms.example.edu/mod/assign/index.php?id=" ++ u cid.

(** Course 101 answers, course 404 is refused, the others are empty. *)
Definition moodle_server (_ : list str) (url : str) : reply :=
  if str_eqb url (moodle_index "101") then Reply 200 (Some moodle_page)
  else if str_eqb url (moodle_index "404") then Reply 404 None
  else if str_eqb url (moodle_index "5") then Reply 200 (Some moodle_icon_page)
  else Reply 200 (Some (page [])).

(** A homework list of the ee-class site: one homework with its due time
    in the list, one whose due time is on its own page only, one whose own
    page cannot be fetched. *)
Definition nchu_list : node :=
  page
    [ row [td "alpha";
           Tag (u "td") []
             [link "https://lms.example.edu/course/homework/content/1" "HW one"];
           td "Due 2025-10-01 12:00"];
      row [td "beta";
           Tag (u "td") []
             [link "https://lms.example.edu/course/homework/content/2" "HW two"];
           td "open"];
      row [td "gamma";
           Tag (u "td") []
             [link "https://lms.example.edu/course/homework/content/3" "HW three"];
           td "open"] ].

Definition nchu_detail : node :=
  Tag (u "[document]") []
    [Tag (u "html") []
       [Tag (u "body") []
          [Tag (u "h1") [] [Text (u "HW two")];
           Tag (u "div") [] [Text (u "繳交期限 2025-10-01 12:00")]]]].

Definition nchu_server (_ : list str) (url : str) : reply :=
  if str_eqb url (u "https://lms.example.edu/course/homework/58430")
  then Reply 200 (Some nchu_list)
  else if str_eqb url (u "https://lms.example.edu/course/homework/content/2")
  then Reply 200 (Some nchu_detail)
  else if str_eqb url (u "https://lms.example.edu/course/homework/content/3")
  then NoReply
  else Reply 500 None.

Definition moodle_main (cids : list str) : M Calendar :=
  Moodle.main dtparse urljoin BASE cids (u "public/ilearning.ics")
    taipei moodle_server login now makedirs write_lines.

Definition nchu_main (deep : bool) (urls : list str) : M Calendar :=
  Nchu.main dtparse urljoin BASE urls (u "public/ilearning.ics")
    deep taipei nchu_server login now makedirs write_lines.

End Site.

(* ================================================================== *)
(** ** The two scrapers side by side *)

Inductive variant : Type := MoodleSite | NchuSite.

(** The label pattern each scraper looks for in the cells of a row. *)
Definition label_of (v : variant) : Re.re :=
  match v with
  | MoodleSite => Moodle.due_label
  | NchuSite => Nchu.due_label
  end.

(** The due text each scraper takes from the cells of a row. *)
Definition due_text_of (v : variant) : list str -> str :=
  match v with
  | MoodleSite => Moodle.find_due_text
  | NchuSite => Nchu.find_due_text
  end.

(** The label patterns read as keyword lists: the text holds one of the
    keywords, the English one in any case. *)
Definition has_keyword (v : variant) (t : str) : bool :=
  match v with
  | MoodleSite =>
    Re.occurs true (u "due") t || contains (u "截止") t
    || contains (u "繳交") t || contains (u "期限") t || contains (u "到期") t
  | NchuSite =>
    contains (u "繳交期限") t || contains (u "截止") t
    || contains (u "到期") t || Re.occurs true (u "Due") t
  end.

Section Emitted.

Variable dtparse : bool -> str -> option datetime.
Variable urljoin : str -> str -> str.
Variable BASE ICS_OUTPUT : str.
Variable LOCAL_TZ : tz.
Variable login : M unit.
Variable now : datetime.
Variable makedirs : str -> M unit.
Variable write_lines : str -> Calendar -> M unit.


End Emitted.

(** An answer on which the deep fetch of a candidate fails: no answer, an
    error status, or a body BeautifulSoup cannot read. *)
Definition fetch_fails (server : list str -> str -> reply) (s : session)
    (url : str) : bool :=
  match server (requests s) url with
  | NoReply => true
  | Reply st body =>
    ((400 <=? st) && (st <? 600))%N
    || match body with None => true | Some _ => false end
  end.

(** The session once [url] has been requested. *)
Definition sent (s : session) (url : str) : session :=
  {| requests := requests s ++ [url]; stdout := stdout s |}.

(** [due] is what the parser made of some text, brought to the local
    zone: a parsed date, not a placeholder. *)
Definition parsed_due (dtparse : bool -> str -> option datetime)
    (LOCAL_TZ : tz) (due : datetime) : Prop :=
  exists text dt,
    dtparse false text = Some dt /\ Moodle.localize LOCAL_TZ dt = Ok due.

(** The due date of a candidate of the NCHU scraper, if it has one, is
    what the parser made of some text. *)
Definition parsed_item (dtparse : bool -> str -> option datetime)
    (it : Nchu.item) : Prop :=
  match snd (fst it) with
  | None => True
  | Some d => exists text, dtparse false text = Some d
  end.

(** A candidate whose due date is still to be found. *)
Definition unresolved (it : Nchu.item) : bool :=
  match snd (fst it) with None => true | Some _ => false end.

(** [it'] is the candidate [it] after the deep-fetch pass: the same title
    and link, and the same due date if [it] had one. *)
Definition kept (it it' : Nchu.item) : Prop :=
  fst (fst it') = fst (fst it) /\ snd it' = snd it
  /\ (unresolved it = false -> it' = it).

(* ================================================================== *)
(** ** The settings both scripts read when they start *)

Module Config.

(** [os.environ]: the value of a variable, if it is set. *)
Definition environ : Type := str -> option str.

(** [env(name, default, required)]; the line printed on the error stream
    before [sys.exit(1)] is left out. *)
Definition env (environ : environ) (name : str) (default : option str)
    (required : bool) : res (option str) :=
  let val :=
    match environ name with
    | Some v => Some v
    | None => default
    end in
  if required
     && match val with
        | None => true
        | Some v => negb (truthy (strip v))
        end
  then Raise (SystemExit 1)
  else Ok val.

(** [s.split(sep)] for a separator of one character. *)
Fixpoint split (sep : N) (s : str) : list str :=
  match s with
  | [] => [[]]
  | c :: t =>
    if (c =? sep)%N then [] :: split sep t
    else
      match split sep t with
      | [] => [[c]]
      | piece :: pieces => (c :: piece) :: pieces
      end
  end.

(** [[s.strip() for s in raw.split(",") if s.strip()]] *)
Definition comma_list (raw : str) : list str :=
  map strip (filter (fun s => truthy (strip s)) (split 44 raw)).

(** The value of a required variable.  [env] never returns [None] for
    one, so the last case is never taken. *)
Definition required_value (r : res (option str)) : res str :=
  match r with
  | Raise e => Raise e
  | Ok (Some v) => Ok v
  | Ok None => Ok []
  end.

(** Lines 43-48 of [ilearning_to_ics.py]. *)
Record moodle_settings : Type := {
  m_BASE : str;
  m_USERNAME : str;
  m_PASSWORD : str;
  m_COURSE_IDS : list str;
  m_TZNAME : option str;
  m_ICS_OUTPUT : option str
}.

Definition moodle_load (environ : environ) : res moodle_settings :=
  match required_value (env environ (u "ILEARNING_BASE_URL") None true) with
  | Raise e => Raise e
  | Ok base =>
  match required_value (env environ (u "ILEARNING_USERNAME") None true) with
  | Raise e => Raise e
  | Ok username =>
  match required_value (env environ (u "ILEARNING_PASSWORD") None true) with
  | Raise e => Raise e
  | Ok password =>
  match required_value (env environ (u "COURSE_IDS") None true) with
  | Raise e => Raise e
  | Ok ids =>
  match env environ (u "TIMEZONE") (Some (u "Asia/Taipei")) false with
  | Raise e => Raise e
  | Ok tzname =>
  match env environ (u "ICS_OUTPUT") (Some (u "public/ilearning.ics")) false
  with
  | Raise e => Raise e
  | Ok out =>
    Ok {| m_BASE := rstrip_by (Re.one_of (u "/")) base;
          m_USERNAME := username;
          m_PASSWORD := password;
          m_COURSE_IDS := comma_list ids;
          m_TZNAME := tzname;
          m_ICS_OUTPUT := out |}
  end end end end end end.

(** Lines 41-47 of [ilearning_to_ics_nchu.py]. *)
Record nchu_settings : Type := {
  n_BASE : str;
  n_USERNAME : str;
  n_PASSWORD : str;
  n_HOMEWORK_URLS : list str;
  n_TZNAME : option str;
  n_ICS_OUTPUT : option str;
  n_DEEP_FETCH : bool
}.

Definition is_one (v : option str) : bool :=
  match v with
  | Some s => str_eqb s (u "1")
  | None => false
  end.

Definition nchu_load (environ : environ) : res nchu_settings :=
  match required_value (env environ (u "ILEARNING_BASE_URL") None true) with
  | Raise e => Raise e
  | Ok base =>
  match required_value (env environ (u "ILEARNING_USERNAME") None true) with
  | Raise e => Raise e
  | Ok username =>
  match required_value (env environ (u "ILEARNING_PASSWORD") None true) with
  | Raise e => Raise e
  | Ok password =>
  match required_value (env environ (u "EECLASS_HOMEWORK_URLS") None true)
  with
  | Raise e => Raise e
  | Ok urls =>
  match env environ (u "TIMEZONE") (Some (u "Asia/Taipei")) false with
  | Raise e => Raise e
  | Ok tzname =>
  match env environ (u "ICS_OUTPUT") (Some (u "public/ilearning.ics")) false
  with
  | Raise e => Raise e
  | Ok out =>
  match env environ (u "DEEP_FETCH") (Some (u "0")) false with
  | Raise e => Raise e
  | Ok deep =>
    Ok {| n_BASE := rstrip_by (Re.one_of (u "/")) base;
          n_USERNAME := username;
          n_PASSWORD := password;
          n_HOMEWORK_URLS := comma_list urls;
          n_TZNAME := tzname;
          n_ICS_OUTPUT := out;
          n_DEEP_FETCH := is_one deep |}
  end end end end end end end.

End Config.

(** Where an assignment of the Moodle scraper comes from: a row [tr], its
    first link [a] with an [href], which holds "mod/assign". *)
Definition moodle_row_of (urljoin : str -> str -> str) (BASE cid : str)
    (rows : list node) (ev : Moodle.assignment) : Prop :=
  exists tr a href,
    In tr rows
    /\ find_a_href tr = Some a
    /\ attr (u "href") a = Some href
    /\ contains (u "mod/assign") href = true
    /\ Moodle.title ev = get_text [] true a
    /\ Moodle.a_url ev
       = urljoin (BASE ++ u "/") (lstrip_by (Re.one_of (u "/")) href)
    /\ Moodle.course_id ev = cid.

(** The text starts, in any case, with one of the labels of the NCHU
    label pattern. *)
Definition nchu_label_here (s : str) : bool :=
  Re.starts true (u "繳交期限") s || Re.starts true (u "截止") s
  || Re.starts true (u "到期") s || Re.starts true (u "Due") s.

(** The text starts, in any case, with one of the labels the Moodle
    scraper removes. *)
Definition moodle_prefix_here (s : str) : bool :=
  Re.starts true (u "Due date") s || Re.starts true (u "截止") s
  || Re.starts true (u "繳交期限") s || Re.starts true (u "到期") s.

(** What the NCHU scraper makes of a row: a candidate, if the first link
    of the row with an [href] points below "/homework". *)
Definition nchu_row_candidate (dtparse : bool -> str -> option datetime)
    (urljoin : str -> str -> str) (list_url : str) (tr : node)
  : option Nchu.item :=
  match find_a_href tr with
  | None => None
  | Some a =>
    let href := match attr (u "href") a with Some h => h | None => [] end in
    if contains (u "/homework") href then
      Some (get_text [] true a,
            Nchu.parse_due dtparse
              (Nchu.find_due_text
                 (map (get_text (u " ") true) (find_all (u "td") tr))),
            urljoin list_url href)
    else None
  end.

(** An assignment of the sample Moodle site, and two candidates of the
    sample homework list. *)
Definition sample_assignment : Moodle.assignment :=
  {| Moodle.title := u "Essay 1";
     Moodle.due_at :=
       replace_tzinfo (naive 2025 12 1 23 59 0) (Some Site.taipei);
     Moodle.a_url := u "https://lms.example.edu/mod/assign/view.php?id=1";
     Moodle.course_id := u "101" |}.

Definition sample_candidates : list Nchu.item :=
  [ (u "HW one", Some (naive 2025 10 1 12 0 0),
     u "https://lms.example.edu/course/homework/content/1");
    (u "HW three", None,
     u "https://lms.example.edu/course/homework/content/3") ].

(** The variables of a sample run of the NCHU script. *)
Definition sample_environ : Config.environ :=
  fun name =>
    if str_eqb name (u "ILEARNING_BASE_URL")
    then Some (u "https://lms.example.edu//")
    else if str_eqb name (u "ILEARNING_USERNAME") then Some (u "alice")
    else if str_eqb name (u "ILEARNING_PASSWORD") then Some (u " s3cret ")
    else if str_eqb name (u "EECLASS_HOMEWORK_URLS")
    then Some (u " /course/homework/58430 ,, /course/homework/1,")
    else if str_eqb name (u "DEEP_FETCH") then Some (u "1")
    else None.

(** The variable [name] is set to a value that is not blank. *)
Definition is_set (environ : Config.environ) (name : str) : Prop :=
  exists v, environ name = Some v /\ strip v <> [].

(** A text without white space at either end. *)
Definition trimmed (s : str) : Prop :=
  (forall c t, s = c :: t -> isspace c = false)
  /\ (forall t c, s = t ++ [c] -> isspace c = false).

(** The index page the Moodle scraper asks for, for one course. *)
Definition moodle_index_url (urljoin : str -> str -> str) (BASE cid : str)
  : str :=
  urljoin BASE (u "/mod/assign/index.php?id=" ++ cid).

(** The event the Moodle scraper makes of an assignment, but for its
    identifier. *)
Definition moodle_event_of (now : datetime) (ev : Moodle.assignment)
    (e : Event) : Prop :=
  name e = u "[iLearning] " ++ Moodle.title ev
  /\ begin e = Moodle.due_at ev /\ end_ e = Moodle.due_at ev
  /\ created e = now /\ last_modified e = now
  /\ url e = Moodle.a_url ev
  /\ description e
     = u "來源: " ++ Moodle.a_url ev ++ u "\n課程ID: " ++ Moodle.course_id ev
  /\ Moodle.stable_uid (Moodle.a_url ev ++ Moodle.title ev) = Ok (uid e)
  /\ map trigger (alarms e) = [(-86400)%Z; (-10800)%Z].

(** The event the NCHU scraper makes of a candidate that has a due date. *)
Definition nchu_event_of (LOCAL_TZ : tz) (now : datetime) (it : Nchu.item)
    (e : Event) : Prop :=
  exists due,
    snd (fst it) = Some due
    /\ name e = u "[iLearning] " ++ fst (fst it)
    /\ Nchu.localize LOCAL_TZ due = Ok (begin e) /\ end_ e = begin e
    /\ created e = now /\ last_modified e = now
    /\ url e = snd it
    /\ description e = u "來源: " ++ snd it
    /\ Nchu.event_uid (snd it) (fst (fst it)) = Ok (uid e)
    /\ map trigger (alarms e) = [(-86400)%Z; (-10800)%Z].

(** The path holds no [/]: a file name without a directory. *)
Definition bare_name (p : str) : bool := negb (existsb (fun c => c =? 47)%N p).

(* ================================================================== *)
(** * Properties *)

Unset Implicit Arguments.

(** ** The regular-expression matcher *)

Module ReFacts.

Import Re.

Section Exec.

Variable icase : bool.
Variable R : Type.

Lemma rep_back_sound (k : nat -> str -> option R) pos s lo x :
  forall i, lo <= i -> rep_back k pos s lo i = Some x ->
  exists j, lo <= j /\ j <= i /\ k (pos + j) (skipn j s) = Some x.
Proof.
  induction i as [|i IH]; intros Hlo H; cbn [rep_back] in H.
  - destruct (k (pos + 0) (skipn 0 s)) eqn:E; [|discriminate].
    exists 0. split; [assumption|]. split; [lia|]. congruence.
  - destruct (k (pos + S i) (skipn (S i) s)) eqn:E.
    + exists (S i). split; [assumption|]. split; [lia|]. congruence.
    + destruct (lo <=? i) eqn:L; [|discriminate].
      apply Nat.leb_le in L.
      destruct (IH L H) as (j & ? & ? & ?). exists j.
      split; [assumption|]. split; [lia|assumption].
Qed.

(** A match hands its continuation a later position of the same text. *)
Lemma exec_sound (r : re) :
  forall pos s (k : nat -> str -> option R) x,
    exec icase r pos s k = Some x ->
    exists n, k (pos + n) (skipn n s) = Some x.
Proof.
  induction r as [ | c | p | | r1 IH1 r2 IH2 | r1 IH1 r2 IH2 | r1 IH1
                 | p lo hi ]; intros pos s k x H; simpl in H.
  - exists 0. now rewrite Nat.add_0_r.
  - destruct s as [|a t]; [discriminate|].
    destruct (chr_eq icase a c); [|discriminate].
    exists 1. now rewrite Nat.add_1_r.
  - destruct s as [|a t]; [discriminate|].
    destruct (p a); [|discriminate].
    exists 1. now rewrite Nat.add_1_r.
  - destruct (pos =? 0); [|discriminate].
    exists 0. now rewrite Nat.add_0_r.
  - apply IH1 in H. destruct H as (n1 & H).
    apply IH2 in H. destruct H as (n2 & H).
    exists (n1 + n2).
    now rewrite Nat.add_assoc, (Nat.add_comm n1 n2), <- skipn_skipn.
  - destruct (exec icase r1 pos s k) eqn:E.
    + apply IH1. congruence.
    + now apply IH2.
  - destruct (exec icase r1 pos s k) eqn:E.
    + apply IH1. congruence.
    + exists 0. now rewrite Nat.add_0_r.
  - destruct (run_len p hi s <? lo) eqn:L; [discriminate|].
    apply Nat.ltb_ge in L.
    destruct (rep_back_sound _ _ _ _ _ _ L H) as (j & _ & _ & Hj).
    now exists j.
Qed.

(** A literal is matched exactly when the text starts with it. *)
Lemma exec_lit (w : str) :
  forall pos s (k : nat -> str -> option R),
    exec icase (lit w) pos s k =
    if starts icase w s then k (pos + length w) (skipn (length w) s)
    else None.
Proof.
  induction w as [|c w IH]; intros pos s k.
  - simpl. now rewrite Nat.add_0_r.
  - destruct w as [|c' w'].
    + simpl. destruct s as [|a t]; [reflexivity|].
      destruct (chr_eq icase a c); simpl; [|reflexivity].
      now rewrite Nat.add_1_r.
    + change (lit (c :: c' :: w')) with (Cat (Chr c) (lit (c' :: w'))).
      cbn [exec]. destruct s as [|a t]; [reflexivity|].
      change (starts icase (c :: c' :: w') (a :: t))
        with (chr_eq icase a c && starts icase (c' :: w') t).
      destruct (chr_eq icase a c).
      * rewrite IH. cbn [andb].
        destruct (starts icase (c' :: w') t); [|reflexivity].
        replace (pos + length (c :: c' :: w'))
          with (S pos + length (c' :: w')) by (simpl; lia).
        reflexivity.
      * reflexivity.
Qed.

End Exec.

(** The text [search] returns stands in the subject where it says. *)
Lemma search_from_substring icase r :
  forall s pos i tok,
    search_from icase r pos s = Some (i, tok) ->
    exists pre suf e,
      s = pre ++ suf /\ i = pos + length pre /\
      match_at icase r i suf = Some e /\ tok = firstn (e - i) suf.
Proof.
  induction s as [|a t IH]; intros pos i tok H; simpl in H.
  - destruct (match_at icase r pos []) as [e|] eqn:E; [|discriminate].
    inversion H; subst. exists [], [], e. rewrite Nat.add_0_r. auto.
  - destruct (match_at icase r pos (a :: t)) as [e|] eqn:E.
    + inversion H; subst. exists [], (a :: t), e.
      rewrite Nat.add_0_r. auto.
    + apply IH in H. destruct H as (pre & suf & e & -> & -> & M & ->).
      exists (a :: pre), suf, e. simpl.
      rewrite <- Nat.add_succ_comm. auto.
Qed.

Lemma accepts_lit icase w pos s :
  accepts icase (lit w) pos s = starts icase w s.
Proof.
  unfold accepts, match_at. rewrite exec_lit.
  now destruct (starts icase w s).
Qed.

Lemma accepts_alt icase r1 r2 pos s :
  accepts icase (Alt r1 r2) pos s
  = accepts icase r1 pos s || accepts icase r2 pos s.
Proof.
  unfold accepts, match_at. simpl.
  now destruct (exec icase r1 pos s (fun e _ => Some e)).
Qed.

(** [search] finds a match exactly when some suffix is accepted. *)
Lemma found_anywhere icase r (f : str -> bool) :
  (forall pos s, accepts icase r pos s = f s) ->
  forall s, found icase r s = anywhere f s.
Proof.
  intros Hf s. unfold found, search. generalize 0 as pos.
  induction s as [|a t IH]; intros pos; simpl;
    specialize (Hf pos); unfold accepts in Hf.
  - rewrite <- Hf. destruct (match_at icase r pos []); reflexivity.
  - rewrite <- Hf. destruct (match_at icase r pos (a :: t)); simpl; auto.
Qed.

Lemma anywhere_orb (f g : str -> bool) s :
  anywhere (fun t => f t || g t) s = anywhere f s || anywhere g s.
Proof.
  induction s as [|a t IH]; simpl.
  - now rewrite !orb_false_r.
  - rewrite IH. destruct (f (a :: t)), (g (a :: t)), (anywhere f t); auto.
Qed.

Lemma anywhere_ext (f g : str -> bool) :
  (forall t, f t = g t) -> forall s, anywhere f s = anywhere g s.
Proof.
  intros E s. induction s as [|a t IH]; simpl; rewrite E; [|rewrite IH]; auto.
Qed.

Lemma chr_eq_caseless a c :
  caseless c = true -> chr_eq true a c = (c =? a)%N.
Proof.
  unfold caseless, chr_eq, lower. intros H.
  apply negb_true_iff, orb_false_iff in H. destruct H as [H1 H2].
  rewrite H1.
  destruct ((0x41 <=? a) && (a <=? 0x5A))%N eqn:Ea.
  - apply andb_true_iff in Ea. destruct Ea as [Ea1 Ea2].
    apply N.leb_le in Ea1, Ea2.
    destruct (c =? a)%N eqn:E1.
    + apply N.eqb_eq in E1. subst.
      apply andb_false_iff in H1.
      destruct H1 as [H|H]; apply N.leb_gt in H; lia.
    + apply N.eqb_neq. intros E. subst c.
      apply andb_false_iff in H2.
      destruct H2 as [H|H]; apply N.leb_gt in H; lia.
  - apply N.eqb_sym.
Qed.

Lemma starts_caseless k :
  forallb caseless k = true ->
  forall s, starts true k s = startswith k s.
Proof.
  induction k as [|c k IH]; intros H s.
  - reflexivity.
  - cbn [forallb] in H. apply andb_true_iff in H. destruct H as [Hc Hk].
    destruct s as [|a t]; [reflexivity|].
    change (starts true (c :: k) (a :: t))
      with (chr_eq true a c && starts true k t).
    rewrite chr_eq_caseless, IH by assumption. reflexivity.
Qed.

Lemma anywhere_startswith k s : anywhere (startswith k) s = contains k s.
Proof.
  induction s as [|a t IH]; simpl.
  - destruct k; reflexivity.
  - now rewrite IH.
Qed.

Lemma occurs_caseless k s :
  forallb caseless k = true -> occurs true k s = contains k s.
Proof.
  intros H. unfold occurs.
  rewrite (anywhere_ext _ _ (starts_caseless k H)).
  apply anywhere_startswith.
Qed.

End ReFacts.

(* ================================================================== *)
(** ** Choosing the due-date cell of a row *)

Section FindLast.

Variable A : Type.
Variable f : A -> bool.

Lemma find_app_none (l l' : list A) :
  Forall (fun x => f x = false) l -> List.find f (l ++ l') = List.find f l'.
Proof.
  induction 1 as [|x l Hx _ IH]; simpl; [reflexivity|].
  now rewrite Hx.
Qed.

(** Scanning the reversed list stops at the last element that qualifies. *)
Lemma find_rev_last (pre post : list A) (c : A) :
  f c = true -> Forall (fun x => f x = false) post ->
  List.find f (rev (pre ++ c :: post)) = Some c.
Proof.
  intros Hc Hpost.
  rewrite rev_app_distr. simpl. rewrite <- app_assoc.
  rewrite find_app_none by now apply Forall_rev.
  simpl. now rewrite Hc.
Qed.

Lemma find_none_all (l : list A) :
  Forall (fun x => f x = false) l -> List.find f l = None.
Proof.
  induction 1 as [|x l Hx _ IH]; simpl; [reflexivity|]. now rewrite Hx.
Qed.

End FindLast.

(** The label patterns say what the keyword lists say. *)
Lemma found_label (v : variant) (t : str) :
  Re.found true (label_of v) t = has_keyword v t.
Proof.
  destruct v; simpl.
  - rewrite (ReFacts.found_anywhere true Moodle.due_label
       (fun t => Re.starts true (u "due") t
              || (Re.starts true (u "截止") t
              || (Re.starts true (u "繳交") t
              || (Re.starts true (u "期限") t
              || Re.starts true (u "到期") t))))).
    + rewrite !ReFacts.anywhere_orb.
      fold (Re.occurs true (u "due") t) (Re.occurs true (u "截止") t)
           (Re.occurs true (u "繳交") t) (Re.occurs true (u "期限") t)
           (Re.occurs true (u "到期") t).
      rewrite (ReFacts.occurs_caseless (u "截止")),
              (ReFacts.occurs_caseless (u "繳交")),
              (ReFacts.occurs_caseless (u "期限")),
              (ReFacts.occurs_caseless (u "到期")) by reflexivity.
      now rewrite !orb_assoc.
    + intros pos s. unfold Moodle.due_label.
      now rewrite !ReFacts.accepts_alt, !ReFacts.accepts_lit.
  - rewrite (ReFacts.found_anywhere true Nchu.due_label
       (fun t => Re.starts true (u "繳交期限") t
              || (Re.starts true (u "截止") t
              || (Re.starts true (u "到期") t
              || Re.starts true (u "Due") t)))).
    + rewrite !ReFacts.anywhere_orb.
      fold (Re.occurs true (u "繳交期限") t) (Re.occurs true (u "截止") t)
           (Re.occurs true (u "到期") t) (Re.occurs true (u "Due") t).
      rewrite (ReFacts.occurs_caseless (u "繳交期限")),
              (ReFacts.occurs_caseless (u "截止")),
              (ReFacts.occurs_caseless (u "到期")) by reflexivity.
      now rewrite !orb_assoc.
    + intros pos s. unfold Nchu.due_label.
      now rewrite !ReFacts.accepts_alt, !ReFacts.accepts_lit.
Qed.

Lemma has_keyword_truthy v t : has_keyword v t = true -> truthy t = true.
Proof.
  destruct t; [|reflexivity]. destruct v; vm_compute; discriminate.
Qed.

(** C4, in the form that holds of the code: in each scraper the cells of
    a row are scanned from the last one back, and the last cell that holds
    one of that scraper's label keywords is the due text: "due", 截止, 繳交,
    期限, 到期 in the Moodle scraper; "Due", 繳交期限, 截止, 到期 in the NCHU
    scraper. *)
Theorem C4_rightmost_labelled_cell (v : variant) (pre post : list str)
    (c : str) :
  has_keyword v c = true ->
  Forall (fun t => has_keyword v t = false) post ->
  due_text_of v (pre ++ c :: post) = c.
Proof.
  intros Hc Hpost.
  assert (Hfind : List.find (Re.found true (label_of v))
                    (rev (pre ++ c :: post)) = Some c).
  { apply find_rev_last.
    - now rewrite found_label.
    - eapply Forall_impl; [|exact Hpost].
      intros t Ht. now rewrite found_label. }
  pose proof (has_keyword_truthy v c Hc) as Htr.
  destruct v; simpl in Hfind |- *.
  - unfold Moodle.find_due_text, Moodle.labelled_cell.
    rewrite Hfind. now rewrite Htr.
  - unfold Nchu.find_due_text. rewrite Hfind. now rewrite Htr.
Qed.

(** The row of the specification: the last cell wins in both scrapers. *)
Lemma C4_rightmost_labelled_cell_witness :
  Moodle.find_due_text [u "CourseX"; u "Essay 1"; u "Submitted: none";
                        u "Due date: 2025-12-01 23:59"]
  = u "Due date: 2025-12-01 23:59" /\
  Nchu.find_due_text [u "CourseX"; u "Essay 1"; u "Submitted: none";
                      u "Due date: 2025-12-01 23:59"]
  = u "Due date: 2025-12-01 23:59".
Proof.
  split.
  - apply (C4_rightmost_labelled_cell MoodleSite
             [u "CourseX"; u "Essay 1"; u "Submitted: none"] []
             (u "Due date: 2025-12-01 23:59")).
    + vm_compute; reflexivity.
    + constructor.
  - apply (C4_rightmost_labelled_cell NchuSite
             [u "CourseX"; u "Essay 1"; u "Submitted: none"] []
             (u "Due date: 2025-12-01 23:59")).
    + vm_compute; reflexivity.
    + constructor.
Defined.

(** C4 as the specification words it fails in the NCHU scraper: 期限 alone
    is no label there, so an earlier "Due" cell is taken instead of the
    last cell that holds one of the five keywords. *)
Lemma C4_nchu_keyword_counterexample :
  let row := [u "Due soon"; u "期限 2025-12-01 23:59"] in
  has_keyword MoodleSite (u "期限 2025-12-01 23:59") = true /\
  Moodle.find_due_text row = u "期限 2025-12-01 23:59" /\
  Nchu.find_due_text row = u "Due soon".
Proof. vm_compute. repeat split; reflexivity. Qed.

(* ================================================================== *)
(** ** Runs in the session monad *)

Module PyFacts.

Lemma bind_ok {A B} (m : M A) (f : A -> M B) s b s' :
  bind m f s = (Ok b, s') ->
  exists a s1, m s = (Ok a, s1) /\ f a s1 = (Ok b, s').
Proof.
  unfold bind. destruct (m s) as [[a|e] s1]; intros H.
  - now exists a, s1.
  - discriminate.
Qed.

Lemma bind_raise {A B} (m : M A) (f : A -> M B) s e s' :
  bind m f s = (Raise e, s') ->
  m s = (Raise e, s') \/
  exists a s1, m s = (Ok a, s1) /\ f a s1 = (Raise e, s').
Proof.
  unfold bind. destruct (m s) as [[a|e0] s1]; intros H.
  - right. now exists a, s1.
  - left. congruence.
Qed.


Lemma ret_ok {A} (a b : A) s s' : ret a s = (Ok b, s') -> a = b /\ s = s'.
Proof. unfold ret. intros H. inversion H. auto. Qed.

Lemma lift_ok {A} (r : res A) (a : A) s s' :
  lift r s = (Ok a, s') -> r = Ok a /\ s = s'.
Proof. unfold lift. intros H. inversion H. auto. Qed.

End PyFacts.

(** Takes a successful run of a sequence of steps apart. *)
Ltac run_ok H :=
  repeat match type of H with
  | bind _ _ _ = (Ok _, _) =>
    let a := fresh "a" in let s1 := fresh "s" in
    let H1 := fresh "Hrun" in
    apply PyFacts.bind_ok in H; destruct H as (a & s1 & H1 & H)
  end.

(* ================================================================== *)
(** ** The set of events *)

Module CalFacts.

Lemma in_add e es x : In x (add_event e es) -> In x es \/ x = e.
Proof.
  unfold add_event. destruct (existsb (same_event e) es); [now left|].
  intros H. apply in_app_or in H. destruct H as [H|[H|[]]]; auto.
Qed.

Lemma add_incl e es x : In x es -> In x (add_event e es).
Proof.
  unfold add_event. destruct (existsb (same_event e) es); [auto|].
  intros H. apply in_or_app. now left.
Qed.

Lemma Forall_add (P : Event -> Prop) e es :
  Forall P es -> P e -> Forall P (add_event e es).
Proof.
  intros Hes He. apply Forall_forall. intros x Hx.
  apply in_add in Hx. destruct Hx as [Hx| ->]; [|assumption].
  rewrite Forall_forall in Hes. now apply Hes.
Qed.

Lemma add_length e es : length (add_event e es) <= S (length es).
Proof.
  unfold add_event. destruct (existsb (same_event e) es); [lia|].
  rewrite length_app. simpl. lia.
Qed.

End CalFacts.

(* ================================================================== *)
(** ** Zones *)



(** Both scripts bring a parsed date to the local zone the same way. *)
Lemma localize_same : Nchu.localize = Moodle.localize.
Proof. reflexivity. Qed.


(* ================================================================== *)
(** ** What reaches the calendar *)

Section MoodleRun.

Variable dtparse : bool -> str -> option datetime.
Variable urljoin : str -> str -> str.
Variable BASE ICS_OUTPUT : str.
Variable LOCAL_TZ : tz.
Variable server : list str -> str -> reply.
Variable login : M unit.
Variable now : datetime.
Variable makedirs : str -> M unit.
Variable write_lines : str -> Calendar -> M unit.










End MoodleRun.

Section NchuRun.

Variable dtparse : bool -> str -> option datetime.
Variable urljoin : str -> str -> str.
Variable BASE ICS_OUTPUT : str.
Variable DEEP_FETCH : bool.
Variable LOCAL_TZ : tz.
Variable server : list str -> str -> reply.
Variable login : M unit.
Variable now : datetime.
Variable makedirs : str -> M unit.
Variable write_lines : str -> Calendar -> M unit.

Let parsed (it : Nchu.item) : Prop := parsed_item dtparse it.
Let titled (it : Nchu.item) : Prop := truthy (fst (fst it)) = true.

Lemma nchu_parse_due text d :
  Nchu.parse_due dtparse text = Some d ->
  exists text', dtparse false text' = Some d.
Proof.
  unfold Nchu.parse_due, Nchu.parse_due_fallback.
  destruct (dtparse false (Re.sub_empty true Nchu.label_any text)) eqn:E.
  - intros H. inversion H. subst. eauto.
  - destruct (Re.search_text false Nchu.date_token _) as [token|];
      [|discriminate].
    eauto.
Qed.

Lemma nchu_parse_due_item title text url :
  parsed (title, Nchu.parse_due dtparse text, url).
Proof.
  unfold parsed, parsed_item. simpl.
  destruct (Nchu.parse_due dtparse text) eqn:E; [|exact I].
  eapply nchu_parse_due; eauto.
Qed.

Lemma nchu_list_rows list_url rows :
  forall events,
    Forall parsed events ->
    Forall parsed (Nchu.list_rows dtparse urljoin list_url rows events).
Proof.
  induction rows as [|tr rest IH]; intros events Hev; simpl; auto.
  destruct (Nchu.list_row dtparse urljoin list_url tr) as [ev|] eqn:E; auto.
  apply IH. apply Forall_app. split; auto.
  constructor; [|constructor].
  unfold Nchu.list_row in E.
  destruct (find_a_href tr) as [a|]; [|discriminate].
  match type of E with (if ?c then _ else _) = _ => destruct c end;
    [discriminate|].
  inversion E. apply nchu_parse_due_item.
Qed.

Lemma nchu_parse_list_page html list_url items :
  Nchu.parse_list_page dtparse urljoin html list_url = Ok items ->
  Forall parsed items.
Proof.
  unfold Nchu.parse_list_page.
  destruct (BeautifulSoup html) as [soup|]; [|discriminate].
  intros H. inversion H. apply nchu_list_rows. constructor.
Qed.

Lemma nchu_parse_detail_due html d :
  Nchu.parse_detail_due dtparse html = Ok (Some d) ->
  exists text, dtparse false text = Some d.
Proof.
  unfold Nchu.parse_detail_due.
  destruct (BeautifulSoup html) as [soup|]; [|discriminate].
  intros H. injection H as H1. exact (nchu_parse_due _ _ H1).
Qed.

Lemma nchu_parse_detail_due_raise html e :
  Nchu.parse_detail_due dtparse html = Raise e -> e = ParserError.
Proof.
  unfold Nchu.parse_detail_due. destruct html as [soup|]; simpl.
  - discriminate.
  - intros H. now inversion H.
Qed.

(** The deep fetch of one candidate always returns, with the title and
    the link it was given. *)
Lemma nchu_enrich_item_total title dt0 url s :
  exists dt1 s',
    Nchu.enrich_item dtparse server (title, dt0, url) s
    = (Ok (title, dt1, url), s').
Proof.
  unfold Nchu.enrich_item. destruct dt0 as [d|].
  - exists (Some d), s. reflexivity.
  - unfold bind, try_except, sess_get, raise_for_status, lift, ret, raise.
    destruct (server (requests s) url) as [|st body]; simpl.
    + do 2 eexists; reflexivity.
    + destruct ((400 <=? st) && (st <? 600))%N; simpl;
        [do 2 eexists; reflexivity|].
      destruct (Nchu.parse_detail_due dtparse body) as [[d|]|e] eqn:E;
        simpl; try (do 2 eexists; reflexivity).
      apply nchu_parse_detail_due_raise in E. subst e. simpl.
      do 2 eexists; reflexivity.
Qed.

Lemma nchu_enrich_item_parsed it it' s s' :
  parsed it ->
  Nchu.enrich_item dtparse server it s = (Ok it', s') ->
  parsed it' /\ fst (fst it') = fst (fst it).
Proof.
  destruct it as [[title dt0] url]. unfold Nchu.enrich_item.
  destruct dt0 as [d|].
  - intros Hp H. inversion H. subst. auto.
  - intros _.
    unfold bind, try_except, sess_get, raise_for_status, lift, ret, raise.
    destruct (server (requests s) url) as [|st body]; simpl.
    + intros H. inversion H. subst. split; [exact I|reflexivity].
    + destruct ((400 <=? st) && (st <? 600))%N; simpl.
      * intros H. inversion H. subst. split; [exact I|reflexivity].
      * destruct (Nchu.parse_detail_due dtparse body) as [[d|]|e] eqn:E;
          simpl.
        -- intros H. inversion H. subst. split; [|reflexivity].
           unfold parsed, parsed_item. simpl.
           eapply nchu_parse_detail_due; eauto.
        -- intros H. inversion H. subst. split; [exact I|reflexivity].
        -- apply nchu_parse_detail_due_raise in E. subst e. simpl.
           intros H. inversion H. subst. split; [exact I|reflexivity].
Qed.

Lemma nchu_enrich items :
  forall enriched s out s',
    Forall parsed items -> Forall parsed enriched ->
    Nchu.enrich dtparse server items enriched s = (Ok out, s') ->
    Forall parsed out.
Proof.
  induction items as [|it rest IH]; intros enriched s out s' Hi He H;
    simpl in H.
  - apply PyFacts.ret_ok in H. destruct H as [<- _]. assumption.
  - inversion Hi; subst. run_ok H.
    eapply IH; [assumption| |exact H].
    apply Forall_app. split; auto. constructor; [|constructor].
    eapply nchu_enrich_item_parsed; eauto.
Qed.

Lemma nchu_fetch_list u0 all_events s evs s' :
  Forall (fun it => parsed it /\ titled it) all_events ->
  Nchu.fetch_list dtparse urljoin BASE DEEP_FETCH server u0 all_events s
  = (Ok evs, s') ->
  Forall (fun it => parsed it /\ titled it) evs.
Proof.
  unfold Nchu.fetch_list. intros Hall H. run_ok H.
  apply PyFacts.ret_ok in H. destruct H as [<- _].
  apply PyFacts.lift_ok in Hrun2. destruct Hrun2 as [Hpage ->].
  apply nchu_parse_list_page in Hpage.
  assert (Hitems : Forall parsed a3).
  { destruct DEEP_FETCH.
    - eapply nchu_enrich; [exact Hpage| |exact Hrun3]. constructor.
    - apply PyFacts.ret_ok in Hrun3. destruct Hrun3 as [<- _]. assumption. }
  apply Forall_app. split; auto.
  unfold Nchu.with_title. apply Forall_forall. intros it Hin.
  apply filter_In in Hin. destruct Hin as [Hin Ht].
  split; [|exact Ht].
  rewrite Forall_forall in Hitems. now apply Hitems.
Qed.

Lemma nchu_fetch_all urls :
  forall all_events s evs s',
    Forall (fun it => parsed it /\ titled it) all_events ->
    Nchu.fetch_all dtparse urljoin BASE DEEP_FETCH server urls all_events s
    = (Ok evs, s') ->
    Forall (fun it => parsed it /\ titled it) evs.
Proof.
  induction urls as [|u0 rest IH]; intros all_events s evs s' Hall H;
    simpl in H.
  - apply PyFacts.ret_ok in H. destruct H as [<- _]. assumption.
  - run_ok H. eapply IH; [|exact H].
    eapply nchu_fetch_list; eauto.
Qed.

Let good_event (e : Event) : Prop :=
  parsed_due dtparse LOCAL_TZ (begin e) /\ end_ e = begin e
  /\ exists title, title <> [] /\ name e = u "[iLearning] " ++ title.

Lemma nchu_build_events evs :
  forall acc es,
    Nchu.build_events LOCAL_TZ now evs acc = Ok es ->
    Forall good_event acc ->
    Forall (fun it => parsed it /\ titled it) evs ->
    Forall good_event es.
Proof.
  induction evs as [|it rest IH]; intros acc es H Hacc Hevs; simpl in H.
  - inversion H. now subst.
  - inversion Hevs as [|? ? [Hp Ht] Hrest]; subst.
    destruct (Nchu.build_event LOCAL_TZ now it) as [[e|]|] eqn:E;
      try discriminate.
    + eapply IH; eauto.
      apply CalFacts.Forall_add; auto.
      destruct it as [[title due] url]. unfold Nchu.build_event in E.
      destruct due as [d|]; [|discriminate].
      destruct (Nchu.localize LOCAL_TZ d) as [d'|] eqn:L; [|discriminate].
      destruct (Nchu.event_uid url title); [|discriminate].
      inversion E. subst. unfold good_event. simpl.
      split; [|split; [reflexivity|]].
      * destruct Hp as [text Hp]. now exists text, d.
      * exists title. split; [|reflexivity].
        unfold titled in Ht. simpl in Ht. now destruct title.
    + eapply IH; eauto.
Qed.

Lemma nchu_main_events urls s cal s' :
  Nchu.main dtparse urljoin BASE urls ICS_OUTPUT DEEP_FETCH LOCAL_TZ server
            login now makedirs write_lines s = (Ok cal, s') ->
  Forall good_event (events cal).
Proof.
  unfold Nchu.main. intros H. cbv zeta in H. run_ok H.
  apply PyFacts.ret_ok in H. destruct H as [<- _].
  apply PyFacts.lift_ok in Hrun2. destruct Hrun2 as [Hcal _].
  unfold Nchu.build_calendar in Hcal.
  destruct (Nchu.build_events LOCAL_TZ now a1 []) as [es|] eqn:E;
    [|discriminate].
  inversion Hcal. subst. simpl.
  eapply nchu_build_events; eauto.
  eapply nchu_fetch_all; [|eauto]. constructor.
Qed.

End NchuRun.


(** A candidate whose text the parser cannot read is dropped by the Moodle
    scraper when the row is read ... *)
Lemma moodle_unparsed_row_dropped dtparse LOCAL_TZ due_text :
  dtparse false (Moodle.clean_prefix due_text) = None ->
  Moodle.parse_due_text dtparse LOCAL_TZ due_text = Ok None.
Proof. unfold Moodle.parse_due_text. now intros ->. Qed.

(** ... and by the NCHU scraper when the calendar is built. *)
Lemma nchu_unresolved_dropped LOCAL_TZ now title url :
  Nchu.build_event LOCAL_TZ now (title, None, url) = Ok None.
Proof. reflexivity. Qed.


(* ================================================================== *)
(** ** A listing page that cannot be fetched *)

Section MoodleCourses.

Variable dtparse : bool -> str -> option datetime.
Variable urljoin : str -> str -> str.
Variable BASE : str.
Variable LOCAL_TZ : tz.
Variable server : list str -> str -> reply.

Lemma moodle_assign_rows_raise cid rows :
  forall events e,
    Moodle.assign_rows dtparse urljoin BASE LOCAL_TZ cid rows events = Raise e ->
    e = OverflowError.
Proof.
  induction rows as [|tr rest IH]; intros events e H; simpl in H.
  - discriminate.
  - destruct (Moodle.assign_row _ _ _ _ _ _) as [[ev|]|e0] eqn:E; eauto.
    inversion H; subst. clear H. unfold Moodle.assign_row in E.
    destruct (find_a_href tr) as [a|]; [|discriminate].
    destruct (negb (contains _ _)); [discriminate|].
    destruct (negb (truthy _)); [discriminate|].
    unfold Moodle.parse_due_text, Moodle.localize in E.
    destruct (dtparse false _) as [dt|]; [|discriminate].
    destruct (tzinfo dt) as [zone|]; [|discriminate].
    destruct (astimezone zone dt LOCAL_TZ); [discriminate|].
    now inversion E.
Qed.

(** Whatever goes wrong while a course is fetched is an [Exception]. *)
Lemma moodle_fetch_course_raise cid s e s' :
  Moodle.fetch_course_assignments dtparse urljoin BASE LOCAL_TZ server cid s
  = (Raise e, s') ->
  is_Exception e = true.
Proof.
  unfold Moodle.fetch_course_assignments, bind, sess_get, raise_for_status,
    lift, ret, raise.
  destruct (server (requests s) _) as [|st body]; simpl.
  - intros H. now inversion H.
  - destruct ((400 <=? st) && (st <? 600))%N; simpl.
    + intros H. now inversion H.
    + unfold Moodle.parse_assign_table.
      destruct body as [soup|]; simpl.
      * destruct (Soup.find _ soup) as [table|]; [|discriminate].
        destruct (Moodle.assign_rows _ _ _ _ _ _ _) as [evs|e0] eqn:E;
          [discriminate|].
        apply moodle_assign_rows_raise in E. subst.
        intros H. now inversion H.
      * intros H. now inversion H.
Qed.

(** The Moodle scraper: a course that cannot be fetched is reported and
    left out, and the loop goes on with the courses after it. *)
Lemma moodle_failed_course_skipped cid rest all_events s e s1 :
  Moodle.fetch_course_assignments dtparse urljoin BASE LOCAL_TZ server cid
    {| requests := requests s;
       stdout := stdout s ++ [Info (u "[iLearning-ICS] Fetching course "
                                    ++ cid ++ u " assignments...")] |}
  = (Raise e, s1) ->
  Moodle.fetch_all dtparse urljoin BASE LOCAL_TZ server (cid :: rest)
    all_events s
  = Moodle.fetch_all dtparse urljoin BASE LOCAL_TZ server rest all_events
      {| requests := requests s1;
         stdout := stdout s1 ++ [Warn (u "[WARN] Failed course " ++ cid
                                      ++ u ": ") e] |}.
Proof.
  intros H. pose proof (moodle_fetch_course_raise _ _ _ _ H) as He.
  cbn [Moodle.fetch_all]. unfold bind at 1. unfold try_except.
  unfold bind at 1. unfold print at 1. unfold bind at 1.
  rewrite H. rewrite He. reflexivity.
Qed.

(** The loop over the courses of the Moodle scraper never raises. *)
Lemma moodle_fetch_all_total cids :
  forall all_events s,
    exists evs s',
      Moodle.fetch_all dtparse urljoin BASE LOCAL_TZ server cids all_events s
      = (Ok evs, s').
Proof.
  induction cids as [|cid rest IH]; intros all_events s.
  - exists all_events, s. reflexivity.
  - destruct (Moodle.fetch_course_assignments dtparse urljoin BASE LOCAL_TZ
                server cid
                {| requests := requests s;
                   stdout := stdout s
                     ++ [Info (u "[iLearning-ICS] Fetching course "
                               ++ cid ++ u " assignments...")] |})
      as [[evs|e] s1] eqn:E.
    + cbn [Moodle.fetch_all]. unfold bind at 1. unfold try_except.
      unfold bind at 1. unfold print at 1. unfold bind at 1.
      rewrite E. unfold bind, print, ret. apply IH.
    + rewrite (moodle_failed_course_skipped _ _ _ _ _ _ E). apply IH.
Qed.

End MoodleCourses.

(** C3 fails in the NCHU scraper: the first list page answers 500, the
    run stops there with the HTTP error, and the second list page, which
    holds a homework, is never asked for. *)
Theorem C3_nchu_listing_failure_aborts :
  Site.nchu_main false [u "/course/homework/1"; u "/course/homework/58430"]
    fresh
  = (Raise (HTTPError 500),
     {| requests := [u "https://lms.example.edu/course/homework/1"];
        stdout :=
          [Info (u "[eeclass-ICS] Logging in...");
           Info (u "[eeclass-ICS] Fetch https://lms.example.edu/course/homework/1")]
     |})
  /\ exists cal s',
       Site.nchu_main false [u "/course/homework/58430"] fresh = (Ok cal, s')
       /\ length (events cal) = 1.
Proof.
  split; [vm_compute; reflexivity|].
  eexists. eexists. split; [vm_compute; reflexivity|reflexivity].
Qed.

(** On the same kind of failure the Moodle scraper goes on: course 404 is
    refused, course 101 still reaches the calendar. *)
Example moodle_listing_failure_skipped :
  exists cal s',
    Site.moodle_main [u "404"; u "101"] fresh = (Ok cal, s')
    /\ length (events cal) = 1
    /\ In (Warn (u "[WARN] Failed course 404: ") (HTTPError 404)) (stdout s').
Proof.
  eexists. eexists. split; [vm_compute; reflexivity|].
  split; [reflexivity|]. simpl. tauto.
Qed.

(* ================================================================== *)
(** ** Candidates without a title *)

(** C6 holds in the NCHU scraper: line 208 filters the candidates, and
    every event of the calendar is named after a title that is not empty. *)
Lemma nchu_events_are_titled dtparse urljoin BASE ICS_OUTPUT DEEP_FETCH
    LOCAL_TZ server login now makedirs write_lines urls s cal s' :
  Nchu.main dtparse urljoin BASE urls ICS_OUTPUT DEEP_FETCH LOCAL_TZ server
            login now makedirs write_lines s = (Ok cal, s') ->
  Forall (fun e => exists title,
                     title <> [] /\ name e = u "[iLearning] " ++ title)
         (events cal).
Proof.
  intros H. apply nchu_main_events in H.
  eapply Forall_impl; [|exact H]. intros e (_ & _ & Ht). exact Ht.
Qed.

(** C6 fails in the Moodle scraper: a row whose link shows an icon and no
    text, with a due date the parser reads, becomes an assignment with the
    empty title and an event named "[iLearning] " and nothing more. *)
Theorem C6_moodle_emits_untitled_event :
  option_map (map Moodle.title)
    (match Moodle.parse_assign_table Site.dtparse Site.urljoin Site.BASE
             Site.taipei (Some Site.moodle_icon_page) (u "5") with
     | Ok evs => Some evs
     | Raise _ => None
     end) = Some [[]]
  /\ exists cal s',
       Site.moodle_main [u "5"] fresh = (Ok cal, s')
       /\ map name (events cal) = [u "[iLearning] "].
Proof.
  split; [vm_compute; reflexivity|].
  eexists. eexists. split; vm_compute; reflexivity.
Qed.

(* ================================================================== *)
(** ** The deep-fetch pass *)

Section DeepFetch.

Variable dtparse : bool -> str -> option datetime.
Variable server : list str -> str -> reply.

(** One candidate: the pass returns, has asked for the page only if the
    due date was missing, keeps a due date that was there, and leaves the
    due date missing when the page cannot be fetched or read. *)
Lemma enrich_item_spec title dt0 url s :
  exists dt1,
    Nchu.enrich_item dtparse server (title, dt0, url) s
    = (Ok (title, dt1, url),
       match dt0 with None => sent s url | Some _ => s end)
    /\ (dt0 <> None -> dt1 = dt0)
    /\ (dt0 = None -> fetch_fails server s url = true -> dt1 = None).
Proof.
  unfold Nchu.enrich_item. destruct dt0 as [d|].
  - exists (Some d). repeat split; auto; discriminate.
  - unfold fetch_fails, sent, bind, try_except, sess_get, raise_for_status,
      lift, ret, raise.
    destruct (server (requests s) url) as [|st body]; simpl.
    + exists None. repeat split; auto.
    + destruct ((400 <=? st) && (st <? 600))%N; simpl.
      * exists None. repeat split; auto.
      * destruct body as [soup|]; simpl.
        -- match goal with
           | |- context [Nchu.parse_due dtparse ?t] =>
             destruct (Nchu.parse_due dtparse t) as [d|]
           end.
           ++ exists (Some d). split; [reflexivity|].
              split; [intros H; now elim H|intros _ H; discriminate H].
           ++ exists None. repeat split; auto.
        -- exists None. repeat split; auto.
Qed.

Lemma enrich_cons it rest enriched s :
  Nchu.enrich dtparse server (it :: rest) enriched s
  = match Nchu.enrich_item dtparse server it s with
    | (Ok it', s1) => Nchu.enrich dtparse server rest (enriched ++ [it']) s1
    | (Raise e, s1) => (Raise e, s1)
    end.
Proof. reflexivity. Qed.

(** The pass over a batch always returns: one candidate for each one it
    was given, in the same order, and it has asked for the pages of the
    candidates without a due date, and for no other. *)
Lemma enrich_spec items :
  forall enriched s,
    exists out,
      Nchu.enrich dtparse server items enriched s
      = (Ok (enriched ++ out),
         {| requests := requests s ++ map snd (filter unresolved items);
            stdout := stdout s |})
      /\ Forall2 kept items out.
Proof.
  induction items as [|[[title dt0] url] rest IH]; intros enriched s.
  - exists []. simpl. rewrite !app_nil_r. destruct s. split; [|constructor].
    reflexivity.
  - rewrite enrich_cons.
    destruct (enrich_item_spec title dt0 url s) as (dt1 & Hit & Hkeep & _).
    rewrite Hit. cbv beta iota.
    destruct (IH (enriched ++ [(title, dt1, url)])
                 (match dt0 with None => sent s url | Some _ => s end))
      as (out & Hrest & Hout).
    exists ((title, dt1, url) :: out). split.
    + refine (eq_trans Hrest _). rewrite <- app_assoc. simpl. f_equal. destruct dt0; simpl.
      * reflexivity.
      * now rewrite <- app_assoc.
    + constructor; [|exact Hout].
      unfold kept, unresolved. simpl. repeat split.
      destruct dt0 as [d|]; [|discriminate].
      intros _. rewrite Hkeep by discriminate. reflexivity.
Qed.

Lemma enrich_app l1 l2 :
  forall enriched s,
    Nchu.enrich dtparse server (l1 ++ l2) enriched s
    = match Nchu.enrich dtparse server l1 enriched s with
      | (Ok enriched1, s1) => Nchu.enrich dtparse server l2 enriched1 s1
      | (Raise e, s1) => (Raise e, s1)
      end.
Proof.
  induction l1 as [|it rest IH]; intros enriched s.
  - reflexivity.
  - simpl app. rewrite !enrich_cons.
    destruct (Nchu.enrich_item dtparse server it s) as [[it'|e] s1].
    + apply IH.
    + reflexivity.
Qed.

End DeepFetch.

(** C9: in a batch processed with deep fetch, when the page of one
    candidate without a due date cannot be fetched or read, the pass goes on:
    the candidates before it are as the pass had left them, the candidate
    itself keeps its missing due date, every candidate after it is processed
    in turn, and the candidate produces no event when the calendar is
    built. *)
Theorem C9_deep_fetch_failure_is_local
    (dtparse : bool -> str -> option datetime)
    (server : list str -> str -> reply) (LOCAL_TZ : tz) (now : datetime)
    (pre post : list Nchu.item) (title url : str)
    (s s1 : session) (out1 : list Nchu.item) :
  Nchu.enrich dtparse server pre [] s = (Ok out1, s1) ->
  fetch_fails server s1 url = true ->
  exists out2 s2,
    Nchu.enrich dtparse server (pre ++ (title, None, url) :: post) [] s
    = (Ok (out1 ++ (title, None, url) :: out2), s2)
    /\ Forall2 kept post out2
    /\ Nchu.build_event LOCAL_TZ now (title, None, url) = Ok None.
Proof.
  intros Hpre Hfail.
  rewrite enrich_app, Hpre. cbv beta iota. rewrite enrich_cons.
  destruct (enrich_item_spec dtparse server title None url s1)
    as (dt1 & Hit & _ & Hnone).
  rewrite Hit, (Hnone eq_refl Hfail). cbv beta iota.
  destruct (enrich_spec dtparse server post (out1 ++ [(title, None, url)])
              (sent s1 url)) as (out2 & Hrest & Hout).
  exists out2. eexists. split; [|split].
  - refine (eq_trans Hrest _). rewrite <- app_assoc. reflexivity.
  - exact Hout.
  - reflexivity.
Qed.

(** On the sample list the page of the third homework does not answer: the
    second homework, fetched before it, has its due date, the third has
    none. *)
Lemma C9_deep_fetch_failure_is_local_witness :
  exists out1 s1 out2 s2,
    Nchu.enrich Site.dtparse Site.nchu_server
      [(u "HW two", None,
        u "https://lms.example.edu/course/homework/content/2")] [] fresh
    = (Ok out1, s1)
    /\ map (fun it => unresolved it) out1 = [false]
    /\ Nchu.enrich Site.dtparse Site.nchu_server
         ([(u "HW two", None,
            u "https://lms.example.edu/course/homework/content/2")]
          ++ (u "HW three", None,
              u "https://lms.example.edu/course/homework/content/3")
          :: [(u "HW four", None,
               u "https://lms.example.edu/course/homework/content/2")])
         [] fresh
       = (Ok (out1 ++ (u "HW three", None,
                       u "https://lms.example.edu/course/homework/content/3")
                   :: out2), s2)
    /\ map (fun it => unresolved it) out2 = [false].
Proof.
  eexists. eexists.
  assert (Hpre :
    Nchu.enrich Site.dtparse Site.nchu_server
      [(u "HW two", None,
        u "https://lms.example.edu/course/homework/content/2")] [] fresh
    = (Ok [(u "HW two", Some (naive 2025 10 1 12 0 0),
            u "https://lms.example.edu/course/homework/content/2")],
       sent fresh (u "https://lms.example.edu/course/homework/content/2")))
    by (vm_compute; reflexivity).
  destruct (C9_deep_fetch_failure_is_local Site.dtparse Site.nchu_server
              Site.taipei Site.now
              [(u "HW two", None,
                u "https://lms.example.edu/course/homework/content/2")]
              [(u "HW four", None,
                u "https://lms.example.edu/course/homework/content/2")]
              (u "HW three")
              (u "https://lms.example.edu/course/homework/content/3")
              fresh _ _ Hpre eq_refl) as (out2 & s2 & Hrun & Hkept & _).
  exists out2, s2. split; [exact Hpre|]. split; [reflexivity|].
  split; [exact Hrun|].
  rewrite enrich_app, Hpre in Hrun.
  vm_compute in Hrun. inversion Hrun. reflexivity.
Defined.

(** C10: the deep-fetch pass returns every candidate that had a due date
    as it was, title, due date and link; it asks for the pages of the
    candidates without a due date and for no other page. *)
Theorem C10_resolved_due_is_kept
    (dtparse : bool -> str -> option datetime)
    (server : list str -> str -> reply)
    (items : list Nchu.item) (s : session) :
  exists out s',
    Nchu.enrich dtparse server items [] s = (Ok out, s')
    /\ Forall2 kept items out
    /\ requests s' = requests s ++ map snd (filter unresolved items)
    /\ forall i title d url,
         nth_error items i = Some (title, Some d, url) ->
         nth_error out i = Some (title, Some d, url).
Proof.
  destruct (enrich_spec dtparse server items [] s) as (out & Hrun & Hkept).
  exists out. eexists. split; [exact Hrun|]. split; [exact Hkept|].
  split; [reflexivity|].
  clear Hrun. induction Hkept as [|it it' items out Hk _ IH];
    intros i title d url Hi.
  - destruct i; discriminate.
  - destruct i as [|i]; simpl in Hi |- *.
    + inversion Hi; subst. destruct Hk as (_ & _ & Hk).
      now rewrite Hk.
    + eapply IH; eauto.
Qed.

(** On the sample list: the first homework has its due date from the
    list and keeps it; only the page of the second one is asked for. *)
Lemma C10_resolved_due_is_kept_witness :
  exists out s',
    Nchu.enrich Site.dtparse Site.nchu_server
      [(u "HW one", Some (naive 2025 10 1 12 0 0),
        u "https://lms.example.edu/course/homework/content/1");
       (u "HW two", None,
        u "https://lms.example.edu/course/homework/content/2")] [] fresh
    = (Ok out, s')
    /\ nth_error out 0
       = Some (u "HW one", Some (naive 2025 10 1 12 0 0),
               u "https://lms.example.edu/course/homework/content/1")
    /\ requests s'
       = [u "https://lms.example.edu/course/homework/content/2"].
Proof.
  destruct (C10_resolved_due_is_kept Site.dtparse Site.nchu_server
              [(u "HW one", Some (naive 2025 10 1 12 0 0),
                u "https://lms.example.edu/course/homework/content/1");
               (u "HW two", None,
                u "https://lms.example.edu/course/homework/content/2")]
              fresh) as (out & s' & Hrun & _ & Hreq & Hnth).
  exists out, s'. split; [exact Hrun|]. split.
  - apply (Hnth 0%nat). reflexivity.
  - rewrite Hreq. reflexivity.
Defined.

(* ================================================================== *)
(** ** Event identifiers *)

Module Sha1Facts.

Import Sha1.
Local Open Scope N_scope.

Lemma be_bytes_length n x : length (be_bytes n x) = n.
Proof. unfold be_bytes. now rewrite length_map, length_rev, length_seq. Qed.

Lemma be_bytes_small n x : Forall (fun b => b < 256) (be_bytes n x).
Proof.
  unfold be_bytes. apply Forall_forall. intros b Hb.
  apply in_map_iff in Hb. destruct Hb as (i & <- & _).
  apply N.mod_lt. discriminate.
Qed.

Lemma digest_length msg : length (digest msg) = 20%nat.
Proof.
  unfold digest.
  destruct (blocks _ init (pad msg)) as [[[[h0 h1] h2] h3] h4].
  cbn [flat_map]. rewrite !length_app, !be_bytes_length. reflexivity.
Qed.

Lemma digest_small msg : Forall (fun b => b < 256) (digest msg).
Proof.
  unfold digest.
  destruct (blocks _ init (pad msg)) as [[[[h0 h1] h2] h3] h4].
  cbn [flat_map]. rewrite !Forall_app.
  repeat split; try apply be_bytes_small. constructor.
Qed.

Lemma hex_length bs : length (hex bs) = (2 * length bs)%nat.
Proof.
  unfold hex. induction bs as [|b bs IH]; simpl; [reflexivity|].
  rewrite IH. lia.
Qed.

Lemma hex_digit_inj d d' :
  d < 16 -> d' < 16 -> hex_digit d = hex_digit d' -> d = d'.
Proof.
  unfold hex_digit. intros Hd Hd'.
  destruct (N.ltb_spec d 10), (N.ltb_spec d' 10); lia.
Qed.

(** Two lists of bytes with the same hexadecimal writing are equal. *)
Lemma hex_inj a :
  forall b,
    Forall (fun x => x < 256) a -> Forall (fun x => x < 256) b ->
    hex a = hex b -> a = b.
Proof.
  induction a as [|x a IH]; intros [|y b] Ha Hb H; simpl in H;
    try discriminate; [reflexivity|].
  inversion Ha as [|? ? Hx Ha']; subst. inversion Hb as [|? ? Hy Hb']; subst.
  injection H as E1 E2 E3.
  apply hex_digit_inj in E1;
    [|apply N.Div0.div_lt_upper_bound; lia
     |apply N.Div0.div_lt_upper_bound; lia].
  apply hex_digit_inj in E2; [|apply N.mod_lt; lia|apply N.mod_lt; lia].
  f_equal.
  - rewrite (N.div_mod' x 16), (N.div_mod' y 16). congruence.
  - now apply IH.
Qed.

Lemma hexdigest_length msg : length (hexdigest msg) = 40%nat.
Proof. unfold hexdigest. now rewrite hex_length, digest_length. Qed.

Lemma hexdigest_eq msg msg' :
  hexdigest msg = hexdigest msg' <-> digest msg = digest msg'.
Proof.
  unfold hexdigest. split.
  - apply hex_inj; apply digest_small.
  - now intros ->.
Qed.

End Sha1Facts.

(** C1, in the form that holds of the code: the identifier of an event is
    a function of the concatenation of the link and the title, and of
    nothing else: the forty
    hexadecimal digits of the SHA-1 of its UTF-8 bytes, then the fixed
    suffix of the scraper.  Two pairs get the same identifier exactly when
    the SHA-1 digests of their concatenations are equal, which is the case
    whenever the concatenations are. *)
Theorem C1_uid_is_hash_of_concatenation
    (url title url' title' : str) (b b' : list N) :
  encode_utf8 (url ++ title) = Some b ->
  encode_utf8 (url' ++ title') = Some b' ->
  exists h h',
    length h = 40 /\ length h' = 40
    /\ Moodle.stable_uid (url ++ title) = Ok (h ++ u "@ilearning-ics")
    /\ Moodle.stable_uid (url' ++ title') = Ok (h' ++ u "@ilearning-ics")
    /\ Nchu.event_uid url title = Ok (h ++ u "@eeclass-ics")
    /\ Nchu.event_uid url' title' = Ok (h' ++ u "@eeclass-ics")
    /\ (h = h' <-> Sha1.digest b = Sha1.digest b')
    /\ (url ++ title = url' ++ title' -> h = h').
Proof.
  intros Hb Hb'.
  exists (Sha1.hexdigest b), (Sha1.hexdigest b').
  unfold Moodle.stable_uid, Nchu.event_uid. rewrite Hb, Hb'.
  repeat split; try apply Sha1Facts.hexdigest_length;
    try apply Sha1Facts.hexdigest_eq.
  intros E. rewrite E in Hb. congruence.
Qed.

(** Two assignments of the sample site with the same title: their
    identifiers differ. *)
Lemma C1_uid_is_hash_of_concatenation_witness :
  exists h h',
    length h = 40 /\ length h' = 40
    /\ Moodle.stable_uid
         (u "https://lms.example.edu/mod/assign/view.php?id=1" ++ u "Essay 1")
       = Ok (h ++ u "@ilearning-ics")
    /\ Moodle.stable_uid
         (u "https://lms.example.edu/mod/assign/view.php?id=2" ++ u "Essay 1")
       = Ok (h' ++ u "@ilearning-ics")
    /\ h <> h'.
Proof.
  destruct (C1_uid_is_hash_of_concatenation
              (u "https://lms.example.edu/mod/assign/view.php?id=1")
              (u "Essay 1")
              (u "https://lms.example.edu/mod/assign/view.php?id=2")
              (u "Essay 1") _ _ eq_refl eq_refl)
    as (h & h' & Hl & Hl' & H1 & H2 & _ & _ & Hiff & _).
  exists h, h'. repeat split; try assumption.
  intros E. apply Hiff in E. vm_compute in E. discriminate E.
Defined.

(** C1 as the specification words it fails: two different pairs whose
    concatenations are the same text get the same identifier, in both
    scrapers. *)
Lemma C1_concatenation_collision :
  let p := (u "https://lms.example.edu/mod/assign/view.php?id=1", u "2A") in
  let q := (u "https://lms.example.edu/mod/assign/view.php?id=12", u "A") in
  p <> q
  /\ fst p ++ snd p = fst q ++ snd q
  /\ Moodle.stable_uid (fst p ++ snd p) = Moodle.stable_uid (fst q ++ snd q)
  /\ Nchu.event_uid (fst p) (snd p) = Nchu.event_uid (fst q) (snd q)
  /\ exists id, Nchu.event_uid (fst p) (snd p) = Ok id.
Proof.
  cbv zeta. split; [|split; [|split; [|split]]].
  - intros E. apply (f_equal (fun x => length (snd x))) in E.
    vm_compute in E. discriminate E.
  - vm_compute. reflexivity.
  - vm_compute. reflexivity.
  - vm_compute. reflexivity.
  - eexists. vm_compute. reflexivity.
Qed.

(* ================================================================== *)
(** ** The date token of a row without a label *)

Module TokenFacts.

Import Re.

Lemma run_len_head p hi s :
  1 <= run_len p hi s -> exists c t, s = c :: t /\ p c = true.
Proof.
  destruct s as [|c t]; simpl; [lia|].
  destruct hi as [[|h]|]; try (simpl; lia);
    destruct (p c) eqn:E; try lia; intros _; now exists c, t.
Qed.

(** A match that begins with four digits begins with a digit and is at
    least four characters long. *)
Lemma four_digits_first r pos s e :
  match_at false (Cat (Rep isdecimal 4 (Some 4)) r) pos s = Some e ->
  exists c t, s = c :: t /\ isdecimal c = true /\ pos + 4 <= e.
Proof.
  unfold match_at. cbn [exec].
  destruct (run_len isdecimal (Some 4) s <? 4) eqn:L; [discriminate|].
  apply Nat.ltb_ge in L. intros H.
  apply ReFacts.rep_back_sound in H; [|exact L].
  destruct H as (j & Hj & _ & H).
  apply ReFacts.exec_sound in H. destruct H as (n & H).
  destruct (run_len_head isdecimal (Some 4) s) as (c & t & -> & Hc); [lia|].
  exists c, t. repeat split; auto. inversion H. lia.
Qed.

(** Under [re.I] a character equals a pattern character when they are the
    same up to the case of an ASCII letter. *)
Lemma chr_eq_cases c k :
  chr_eq true c k = true -> (c = k \/ c = k - 32 \/ c = k + 32)%N.
Proof.
  unfold chr_eq, lower. intros H. apply N.eqb_eq in H.
  destruct ((0x41 <=? c) && (c <=? 0x5A))%N,
           ((0x41 <=? k) && (k <=? 0x5A))%N; lia.
Qed.

Lemma decimal_not_chr c k :
  isdecimal c = true ->
  isdecimal k = false -> isdecimal (k - 32) = false ->
  isdecimal (k + 32) = false ->
  chr_eq true c k = false.
Proof.
  intros Hc H1 H2 H3. destruct (chr_eq true c k) eqn:E; [|reflexivity].
  apply chr_eq_cases in E. destruct E as [->|[->| ->]]; congruence.
Qed.

Lemma starts_head icase k k0 c t :
  hd_error k = Some k0 -> chr_eq icase c k0 = false ->
  starts icase k (c :: t) = false.
Proof.
  destruct k as [|a k']; [discriminate|].
  intros H E. inversion H; subst.
  change (starts icase (k0 :: k') (c :: t))
    with (chr_eq icase c k0 && starts icase k' t).
  now rewrite E.
Qed.

(** [^] matches at the start of the text only. *)
Lemma sub_from_bol icase r s :
  forall pos, sub_from icase (Cat Bol r) (S pos) 0 s = s.
Proof.
  induction s as [|a t IH]; intros pos; [reflexivity|].
  cbn [sub_from]. unfold match_at. cbn [exec Nat.eqb].
  now rewrite IH.
Qed.

(** A text that begins with a digit has no label prefix to remove. *)
Lemma clean_prefix_digit c t :
  isdecimal c = true -> Moodle.clean_prefix (c :: t) = c :: t.
Proof.
  intros Hc. unfold Moodle.clean_prefix, sub_empty. cbn [sub_from].
  assert (Hno : match_at true Moodle.label_prefix 0 (c :: t) = None).
  { unfold match_at, Moodle.label_prefix. cbn [exec Nat.eqb].
    rewrite !ReFacts.exec_lit.
    rewrite (starts_head true (u "Due date") 68 c t),
            (starts_head true (u "截止") 0x622a c t),
            (starts_head true (u "繳交期限") 0x7e73 c t),
            (starts_head true (u "到期") 0x5230 c t);
      try reflexivity; apply decimal_not_chr; auto. }
  rewrite Hno. unfold Moodle.label_prefix. now rewrite sub_from_bol.
Qed.

Lemma startswith_app k1 k2 s :
  startswith (k1 ++ k2) s = true -> startswith k1 s = true.
Proof.
  revert s. induction k1 as [|a k1 IH]; intros s H; [reflexivity|].
  destruct s as [|b t]; simpl in *; [discriminate|].
  apply andb_true_iff in H. destruct H as [-> H]. simpl. now apply IH.
Qed.

Lemma contains_app k1 k2 s :
  contains (k1 ++ k2) s = true -> contains k1 s = true.
Proof.
  induction s as [|b t IH]; simpl; intros H.
  - rewrite orb_false_r in *. now apply startswith_app in H.
  - apply orb_true_iff in H. destruct H as [H|H].
    + apply startswith_app in H. now rewrite H.
    + rewrite IH by assumption. apply orb_true_r.
Qed.

(** Every label of the NCHU scraper is a label of the Moodle scraper. *)
Lemma nchu_label_is_moodle_label t :
  has_keyword NchuSite t = true -> has_keyword MoodleSite t = true.
Proof.
  unfold has_keyword. intros H.
  repeat (apply orb_true_iff in H; destruct H as [H|H]).
  - change (u "繳交期限") with (u "繳交" ++ u "期限") in H.
    apply contains_app in H. rewrite H.
    now rewrite !orb_true_r.
  - rewrite H. now rewrite !orb_true_r.
  - rewrite H. now rewrite !orb_true_r.
  - replace (occurs true (u "due") t) with (occurs true (u "Due") t).
    + now rewrite H.
    + unfold occurs. apply ReFacts.anywhere_ext. intros s.
      change (u "Due") with [68; 117; 101]%N.
      change (u "due") with [100; 117; 101]%N.
      destruct s as [|a s]; reflexivity.
Qed.

End TokenFacts.

(** C7, in the form that holds of the code: for a row none of whose cells
    holds a label, the Moodle scraper searches the cells joined by spaces for the first date
    token and hands exactly that token to the parser: the token stands in
    the joined text as it is, and the removal of label prefixes leaves it
    unchanged.  The NCHU scraper hands the whole joined text to [parse_due],
    where the date token is searched only after the permissive parse of the
    label-stripped text has failed. *)
Theorem C7_token_of_unlabelled_row
    (dtparse : bool -> str -> option datetime) (LOCAL_TZ : tz)
    (tds : list str) (token : str) :
  Forall (fun t => has_keyword MoodleSite t = false) tds ->
  Re.search_text false Moodle.date_token (join (u " ") tds) = Some token ->
  Moodle.find_due_text tds = token
  /\ Moodle.clean_prefix token = token
  /\ (exists pre post, join (u " ") tds = pre ++ token ++ post)
  /\ Moodle.parse_due_text dtparse LOCAL_TZ (Moodle.find_due_text tds)
     = match dtparse false token with
       | None => Ok None
       | Some dt =>
         match Moodle.localize LOCAL_TZ dt with
         | Ok dt' => Ok (Some dt')
         | Raise e => Raise e
         end
       end
  /\ Nchu.find_due_text tds = join (u " ") tds
  /\ Nchu.parse_due dtparse (Nchu.find_due_text tds)
     = let txt := Re.sub_empty true Nchu.label_any (join (u " ") tds) in
       match dtparse false txt with
       | Some dt => Some dt
       | None => Nchu.parse_due_fallback dtparse txt
       end.
Proof.
  intros Hno Htok.
  assert (Hfind : Moodle.find_due_text tds = token).
  { unfold Moodle.find_due_text, Moodle.labelled_cell.
    rewrite find_none_all.
    - simpl. now rewrite Htok.
    - apply Forall_rev. eapply Forall_impl; [|exact Hno].
      intros t Ht. now rewrite (found_label MoodleSite). }
  assert (Hnchu : Nchu.find_due_text tds = join (u " ") tds).
  { unfold Nchu.find_due_text. rewrite find_none_all; [reflexivity|].
    apply Forall_rev. eapply Forall_impl; [|exact Hno].
    intros t Ht. rewrite (found_label NchuSite).
    destruct (has_keyword NchuSite t) eqn:E; [|reflexivity].
    apply TokenFacts.nchu_label_is_moodle_label in E. congruence. }
  unfold Re.search_text, Re.search in Htok.
  destruct (Re.search_from false Moodle.date_token 0 (join (u " ") tds))
    as [[i tok]|] eqn:Es; [|discriminate].
  simpl in Htok. inversion Htok; subst tok. clear Htok.
  apply ReFacts.search_from_substring in Es.
  destruct Es as (pre & suf & e & Hs & Hi & Hm & Ht).
  apply TokenFacts.four_digits_first in Hm.
  destruct Hm as (c & t & -> & Hc & He).
  assert (Hclean : Moodle.clean_prefix token = token).
  { rewrite Ht. destruct (e - i) as [|n] eqn:En; [lia|].
    cbn [firstn]. now apply TokenFacts.clean_prefix_digit. }
  split; [exact Hfind|]. split; [exact Hclean|]. split.
  { exists pre, (skipn (e - i) (c :: t)).
    rewrite Hs, Ht. now rewrite firstn_skipn. }
  split.
  { rewrite Hfind. unfold Moodle.parse_due_text. now rewrite Hclean. }
  split; [exact Hnchu|].
  rewrite Hnchu. reflexivity.
Qed.

(** The row of the specification, "... 2025/11/03 18:00 ...". *)
Lemma C7_token_of_unlabelled_row_witness :
  Moodle.find_due_text [u "CourseX"; u "Quiz"; u "opens 2025/11/03 18:00"]
  = u "2025/11/03 18:00"
  /\ Moodle.parse_due_text Site.dtparse Site.taipei
       (Moodle.find_due_text
          [u "CourseX"; u "Quiz"; u "opens 2025/11/03 18:00"])
     = Ok (Some (replace_tzinfo (naive 2025 11 3 18 0 0) (Some Site.taipei))).
Proof.
  destruct (C7_token_of_unlabelled_row Site.dtparse Site.taipei
              [u "CourseX"; u "Quiz"; u "opens 2025/11/03 18:00"]
              (u "2025/11/03 18:00"))
    as (H1 & _ & _ & H2 & _).
  - repeat constructor.
  - vm_compute. reflexivity.
  - split; [exact H1|]. rewrite H2. vm_compute. reflexivity.
Defined.

(** C7 as the specification words it fails in the NCHU scraper: the text
    handed to the normalizer for a row without a label is the whole row,
    not the token. *)
Lemma C7_nchu_whole_row_counterexample :
  let tds := [u "HW1"; u "2025/11/03 18:00"] in
  Forall (fun t => has_keyword NchuSite t = false) tds
  /\ Re.search_text false Nchu.date_token (join (u " ") tds)
     = Some (u "2025/11/03 18:00")
  /\ Nchu.find_due_text tds = u "HW1 2025/11/03 18:00"
  /\ Moodle.find_due_text tds = u "2025/11/03 18:00".
Proof.
  cbv zeta. split; [repeat constructor|].
  vm_compute. repeat split; reflexivity.
Qed.

(* ================================================================== *)
(** ** Labels in two languages, and the order of month and day *)

Lemma moodle_localize_naive LOCAL_TZ y m d hh mm ss :
  Moodle.localize LOCAL_TZ (naive y m d hh mm ss)
  = Ok (replace_tzinfo (naive y m d hh mm ss) (Some LOCAL_TZ)).
Proof. reflexivity. Qed.

(** C5: with a parser that reads "2025-09-20 23:59", and whose fuzzy mode,
    where it reads the text the NCHU pattern leaves of the English label,
    "date: 2025-09-20 23:59", at all, reads the same date in it, the text
    labelled in English and the text labelled in Chinese are normalized to
    the same instant, 2025-09-20 23:59 in the local zone, by both
    scrapers. *)
Theorem C5_label_strip_language_agnostic
    (dtparse : bool -> str -> option datetime) (LOCAL_TZ : tz) :
  dtparse false (u "2025-09-20 23:59") = Some (naive 2025 9 20 23 59 0) ->
  (forall d, dtparse false (u "date: 2025-09-20 23:59") = Some d ->
             d = naive 2025 9 20 23 59 0) ->
  let due := replace_tzinfo (naive 2025 9 20 23 59 0) (Some LOCAL_TZ) in
  Moodle.parse_due_text dtparse LOCAL_TZ (u "Due date: 2025-09-20 23:59")
  = Ok (Some due)
  /\ Moodle.parse_due_text dtparse LOCAL_TZ (u "截止：2025-09-20 23:59")
     = Ok (Some due)
  /\ Nchu.parse_due dtparse (u "Due date: 2025-09-20 23:59")
     = Some (naive 2025 9 20 23 59 0)
  /\ Nchu.parse_due dtparse (u "截止：2025-09-20 23:59")
     = Some (naive 2025 9 20 23 59 0)
  /\ Nchu.localize LOCAL_TZ (naive 2025 9 20 23 59 0) = Ok due.
Proof.
  intros Hiso Hword due.
  assert (E1 : Moodle.clean_prefix (u "Due date: 2025-09-20 23:59")
               = u "2025-09-20 23:59") by (vm_compute; reflexivity).
  assert (E2 : Moodle.clean_prefix (u "截止：2025-09-20 23:59")
               = u "2025-09-20 23:59") by (vm_compute; reflexivity).
  assert (E3 : Re.sub_empty true Nchu.label_any
                 (u "Due date: 2025-09-20 23:59")
               = u "date: 2025-09-20 23:59") by (vm_compute; reflexivity).
  assert (E4 : Re.sub_empty true Nchu.label_any (u "截止：2025-09-20 23:59")
               = u "2025-09-20 23:59") by (vm_compute; reflexivity).
  assert (E5 : Re.search_text false Nchu.date_token
                 (u "date: 2025-09-20 23:59")
               = Some (u "2025-09-20 23:59")) by (vm_compute; reflexivity).
  unfold Moodle.parse_due_text, Nchu.parse_due, Nchu.parse_due_fallback.
  rewrite E1, E2, E3, E4, E5, Hiso, moodle_localize_naive.
  repeat split; try reflexivity.
  destruct (dtparse false (u "date: 2025-09-20 23:59")) as [d|] eqn:E.
  - now rewrite (Hword d eq_refl).
  - reflexivity.
Qed.

(** With the reference parser both labels give the same results. *)
Lemma C5_label_strip_language_agnostic_witness :
  Moodle.parse_due_text Site.dtparse Site.taipei
    (u "Due date: 2025-09-20 23:59")
  = Moodle.parse_due_text Site.dtparse Site.taipei
      (u "截止：2025-09-20 23:59")
  /\ Nchu.parse_due Site.dtparse (u "Due date: 2025-09-20 23:59")
     = Nchu.parse_due Site.dtparse (u "截止：2025-09-20 23:59").
Proof.
  destruct (C5_label_strip_language_agnostic Site.dtparse Site.taipei)
    as (H1 & H2 & H3 & H4 & _).
  - vm_compute. reflexivity.
  - intros d Hd. vm_compute in Hd. now inversion Hd.
  - split; congruence.
Defined.




(* ================================================================== *)
(** ** Trimming and splitting *)

Module TextFacts.

Section Strip.

Variable p : N -> bool.

Lemma lstrip_by_head s c t : lstrip_by p s = c :: t -> p c = false.
Proof.
  induction s as [|a s IH]; simpl; [discriminate|].
  destruct (p a) eqn:E; [exact IH|].
  intros H. inversion H. now subst.
Qed.

Lemma lstrip_by_suffix s : exists pre, s = pre ++ lstrip_by p s.
Proof.
  induction s as [|a s [pre IH]]; simpl.
  - now exists [].
  - destruct (p a).
    + exists (a :: pre). simpl. now f_equal.
    + now exists [].
Qed.

Lemma lstrip_by_keep s c :
  p c = false -> lstrip_by p (s ++ [c]) = lstrip_by p s ++ [c].
Proof.
  intros Hc. induction s as [|a s IH]; simpl.
  - now rewrite Hc.
  - destruct (p a); [exact IH|reflexivity].
Qed.

Lemma rstrip_by_last s t c : rstrip_by p s = t ++ [c] -> p c = false.
Proof.
  unfold rstrip_by. intros H.
  apply (f_equal (@rev N)) in H. rewrite rev_involutive, rev_app_distr in H.
  simpl in H. eapply lstrip_by_head; eauto.
Qed.

Lemma rstrip_by_prefix s : exists suf, s = rstrip_by p s ++ suf.
Proof.
  unfold rstrip_by. destruct (lstrip_by_suffix (rev s)) as [pre H].
  exists (rev pre). rewrite <- rev_app_distr, <- H. now rewrite rev_involutive.
Qed.

Lemma rstrip_by_cons c s :
  p c = false -> rstrip_by p (c :: s) = c :: rstrip_by p s.
Proof.
  intros Hc. unfold rstrip_by. simpl.
  rewrite lstrip_by_keep by assumption.
  now rewrite rev_app_distr.
Qed.

End Strip.

Lemma strip_in s x : In x (strip s) -> In x s.
Proof.
  unfold strip. intros H.
  destruct (rstrip_by_prefix isspace (lstrip_by isspace s)) as [suf E].
  destruct (lstrip_by_suffix isspace s) as [pre E'].
  rewrite E'. apply in_or_app. right.
  rewrite E. apply in_or_app. now left.
Qed.

(** [s.strip()] has no white space at either end. *)
Lemma strip_trimmed s : trimmed (strip s).
Proof.
  unfold trimmed, strip. split.
  - intros c t H.
    destruct (lstrip_by isspace s) as [|a l] eqn:E.
    + discriminate H.
    + pose proof (lstrip_by_head isspace s a l E) as Ha.
      rewrite rstrip_by_cons in H by assumption.
      inversion H. now subst.
  - intros t c H. eapply rstrip_by_last; eauto.
Qed.

Lemma split_no_sep sep s :
  Forall (fun piece => ~ In sep piece) (Config.split sep s).
Proof.
  induction s as [|c t IH]; simpl.
  - constructor; [|constructor]. intros [].
  - destruct (c =? sep)%N eqn:E.
    + constructor; [intros []|exact IH].
    + destruct (Config.split sep t) as [|piece pieces].
      * constructor; [|constructor].
        intros [H|[]]. subst. now rewrite N.eqb_refl in E.
      * inversion IH; subst. constructor; [|assumption].
        intros [H|H]; [subst; now rewrite N.eqb_refl in E|auto].
Qed.

Lemma split_cons sep s : exists piece pieces, Config.split sep s = piece :: pieces.
Proof.
  destruct s as [|c t]; simpl; [now exists [], []|].
  destruct (c =? sep)%N; [now eexists; eexists|].
  destruct (Config.split sep t); now eexists; eexists.
Qed.

(** Putting the separator back between the pieces gives the text. *)
Lemma join_split sep s : join [sep] (Config.split sep s) = s.
Proof.
  induction s as [|c t IH]; [reflexivity|].
  cbn [Config.split].
  destruct (split_cons sep t) as (piece & pieces & Es).
  rewrite Es in *.
  destruct (c =? sep)%N eqn:E.
  - apply N.eqb_eq in E. subst c.
    change (join [sep] ([] :: piece :: pieces))
      with ([] ++ [sep] ++ join [sep] (piece :: pieces)).
    now rewrite IH.
  - destruct pieces as [|q qs].
    + simpl in *. now subst.
    + change (join [sep] ((c :: piece) :: q :: qs))
        with ((c :: piece) ++ [sep] ++ join [sep] (q :: qs)).
      change (join [sep] (piece :: q :: qs))
        with (piece ++ [sep] ++ join [sep] (q :: qs)) in IH.
      rewrite <- IH. reflexivity.
Qed.

End TextFacts.

(* ================================================================== *)
(** ** Settings *)

(** X1: the course ids of the Moodle script and the list URLs of the NCHU
    script, as read from a comma-separated variable: every entry is
    non-empty, has no white space at either end and holds no comma, whatever
    the variable holds. *)
Theorem X1_comma_list_entries (raw : str) :
  Forall (fun id => id <> [] /\ trimmed id /\ ~ In 44%N id)
         (Config.comma_list raw).
Proof.
  unfold Config.comma_list. apply Forall_forall. intros id Hin.
  apply in_map_iff in Hin. destruct Hin as (piece & <- & Hin).
  apply filter_In in Hin. destruct Hin as [Hin Ht].
  split; [|split].
  - intros E. rewrite E in Ht. discriminate.
  - apply TextFacts.strip_trimmed.
  - intros Hc. apply TextFacts.strip_in in Hc.
    pose proof (TextFacts.split_no_sep 44%N raw) as Hs.
    rewrite Forall_forall in Hs. exact (Hs _ Hin Hc).
Qed.

Lemma env_required_ok environ name default :
  (exists v, Config.env environ name default true = Ok (Some v))
  <-> exists v,
        match environ name with Some v' => Some v' | None => default end
        = Some v /\ strip v <> [].
Proof.
  unfold Config.env.
  destruct (match environ name with Some v' => Some v' | None => default
            end) as [v|]; simpl.
  - destruct (strip v) eqn:E; simpl.
    + split; [intros [w H]; discriminate|].
      intros (w & H & Hn). inversion H; subst. congruence.
    + split; [|eauto]. intros _. exists v. split; [reflexivity|].
      rewrite E. discriminate.
  - split; [intros [w H]; discriminate|intros (w & H & _); discriminate].
Qed.

Lemma env_required_cases environ name :
  (is_set environ name
   /\ exists v, Config.required_value (Config.env environ name None true)
                = Ok v /\ environ name = Some v)
  \/ (~ is_set environ name
      /\ Config.required_value (Config.env environ name None true)
         = Raise (SystemExit 1)).
Proof.
  unfold Config.env, is_set.
  destruct (environ name) as [v|]; simpl.
  - destruct (strip v) eqn:E; simpl.
    + right. split; [|reflexivity]. intros (w & H & Hn).
      inversion H; subst. congruence.
    + left. split.
      * exists v. split; [reflexivity|]. rewrite E. discriminate.
      * now exists v.
  - right. split; [|reflexivity]. intros (w & H & _). discriminate.
Qed.

(** X2: the Moodle script gets past its settings exactly when the base
    URL, the user name, the password and the course ids are all set to values
    that are not blank; otherwise it exits with status 1. *)
Theorem X2_moodle_settings_required (environ : Config.environ) :
  ((exists cfg, Config.moodle_load environ = Ok cfg)
   <-> (is_set environ (u "ILEARNING_BASE_URL")
        /\ is_set environ (u "ILEARNING_USERNAME")
        /\ is_set environ (u "ILEARNING_PASSWORD")
        /\ is_set environ (u "COURSE_IDS")))
  /\ (forall e, Config.moodle_load environ = Raise e -> e = SystemExit 1).
Proof.
  unfold Config.moodle_load.
  destruct (env_required_cases environ (u "ILEARNING_BASE_URL"))
    as [[S1 (v1 & E1 & _)]|[S1 E1]]; rewrite E1.
  2: { split; [split|].
       - intros [c H]. discriminate H.
       - intros (H & _). destruct (S1 H).
       - intros e H. now inversion H. }
  destruct (env_required_cases environ (u "ILEARNING_USERNAME"))
    as [[S2 (v2 & E2 & _)]|[S2 E2]]; rewrite E2.
  2: { split; [split|].
       - intros [c H]. discriminate H.
       - intros (_ & H & _). destruct (S2 H).
       - intros e H. now inversion H. }
  destruct (env_required_cases environ (u "ILEARNING_PASSWORD"))
    as [[S3 (v3 & E3 & _)]|[S3 E3]]; rewrite E3.
  2: { split; [split|].
       - intros [c H]. discriminate H.
       - intros (_ & _ & H & _). destruct (S3 H).
       - intros e H. now inversion H. }
  destruct (env_required_cases environ (u "COURSE_IDS"))
    as [[S4 (v4 & E4 & _)]|[S4 E4]]; rewrite E4.
  2: { split; [split|].
       - intros [c H]. discriminate H.
       - intros (_ & _ & _ & H). destruct (S4 H).
       - intros e H. now inversion H. }
  unfold Config.env. cbn [andb].
  split; [split|].
  - intros _. auto.
  - intros _. eexists. reflexivity.
  - intros e H. discriminate H.
Qed.

Lemma rstrip_no_trailing (p : N -> bool) (s t : str) (c : N) :
  p c = true -> rstrip_by p s <> t ++ [c].
Proof.
  intros Hc E. apply TextFacts.rstrip_by_last in E. congruence.
Qed.

Lemma str_eqb_eq a : forall b, str_eqb a b = true <-> a = b.
Proof.
  unfold str_eqb.
  induction a as [|x a IH]; intros [|y b]; simpl; split;
    try discriminate; try reflexivity.
  - intros H. apply andb_true_iff in H. destruct H as [Hl H].
    apply andb_true_iff in H. destruct H as [Hxy H].
    apply N.eqb_eq in Hxy. subst y. f_equal. apply IH.
    now rewrite Hl, H.
  - intros H. inversion H; subst.
    rewrite N.eqb_refl. simpl.
    destruct (IH b) as [_ IH']. specialize (IH' eq_refl).
    apply andb_true_iff in IH'. destruct IH' as [Hl Hf].
    now rewrite Hl, Hf.
Qed.

Lemma lstrip_by_repeat (p : N -> bool) (k : N) :
  (forall c, p c = true -> c = k) ->
  forall s, exists n, s = repeat k n ++ lstrip_by p s.
Proof.
  intros Hp. induction s as [|a s [n IH]]; simpl.
  - now exists 0.
  - destruct (p a) eqn:E.
    + apply Hp in E. subst a. exists (S n). simpl. now f_equal.
    + now exists 0.
Qed.

Lemma rev_repeat_same (k : N) n : rev (repeat k n) = repeat k n.
Proof.
  induction n as [|n IH]; [reflexivity|].
  simpl. rewrite IH. symmetry. apply repeat_cons.
Qed.

(** What [rstrip] takes off is a run of the stripped character. *)
Lemma rstrip_by_repeat (p : N -> bool) (k : N) :
  (forall c, p c = true -> c = k) ->
  forall s, exists n, s = rstrip_by p s ++ repeat k n.
Proof.
  intros Hp s. destruct (lstrip_by_repeat p k Hp (rev s)) as [n H].
  exists n. unfold rstrip_by.
  rewrite <- (rev_involutive s) at 1. rewrite H at 1.
  now rewrite rev_app_distr, rev_repeat_same.
Qed.

(** X3: in the settings the NCHU script has loaded, the base URL is the
    variable without its trailing slashes: the variable is the base URL
    followed by slashes and nothing else, and the base URL does not end in
    a slash; the user name and password are the variables as they are; and
    the deep fetch is on exactly when DEEP_FETCH is set to the one character
    "1". *)
Theorem X3_nchu_settings_loaded (environ : Config.environ)
    (cfg : Config.nchu_settings) :
  Config.nchu_load environ = Ok cfg ->
  (forall t, Config.n_BASE cfg <> t ++ u "/")
  /\ (exists base n, environ (u "ILEARNING_BASE_URL") = Some base
                     /\ base = Config.n_BASE cfg ++ repeat 47%N n)
  /\ environ (u "ILEARNING_USERNAME") = Some (Config.n_USERNAME cfg)
  /\ environ (u "ILEARNING_PASSWORD") = Some (Config.n_PASSWORD cfg)
  /\ (exists raw, environ (u "EECLASS_HOMEWORK_URLS") = Some raw
                  /\ Config.n_HOMEWORK_URLS cfg = Config.comma_list raw)
  /\ (Config.n_DEEP_FETCH cfg = true
      <-> environ (u "DEEP_FETCH") = Some (u "1")).
Proof.
  unfold Config.nchu_load.
  destruct (env_required_cases environ (u "ILEARNING_BASE_URL"))
    as [[S1 (v1 & -> & E1)]|[S1 ->]]; [|discriminate].
  destruct (env_required_cases environ (u "ILEARNING_USERNAME"))
    as [[S2 (v2 & -> & E2)]|[S2 ->]]; [|discriminate].
  destruct (env_required_cases environ (u "ILEARNING_PASSWORD"))
    as [[S3 (v3 & -> & E3)]|[S3 ->]]; [|discriminate].
  destruct (env_required_cases environ (u "EECLASS_HOMEWORK_URLS"))
    as [[S4 (v4 & -> & E4)]|[S4 ->]]; [|discriminate].
  unfold Config.env. cbn [andb].
  intros H. inversion H; subst; clear H.
  cbn [Config.n_BASE Config.n_USERNAME Config.n_PASSWORD
       Config.n_HOMEWORK_URLS Config.n_DEEP_FETCH].
  split; [|split; [|split; [|split; [|split]]]]; auto.
  - intros t. apply (rstrip_no_trailing _ _ _ 47%N). reflexivity.
  - destruct (rstrip_by_repeat (Re.one_of (u "/")) 47%N) with (s := v1)
      as [n Hn].
    { intros c Hc. unfold Re.one_of in Hc. simpl in Hc.
      rewrite orb_false_r in Hc. apply N.eqb_eq in Hc. now subst. }
    exists v1, n. split; assumption.
  - now exists v4.
  - unfold Config.is_one.
    destruct (environ (u "DEEP_FETCH")) as [d|].
    + rewrite str_eqb_eq. split; congruence.
    + split; [intros H|intros H; inversion H].
      apply str_eqb_eq in H. vm_compute in H. discriminate.
Qed.

(** A sample run: the slashes after the base URL are dropped, the password
    keeps its spaces, the list of URLs loses its blank entries. *)
Lemma X3_nchu_settings_loaded_witness :
  exists cfg,
    Config.nchu_load sample_environ = Ok cfg
    /\ Config.n_BASE cfg = u "https://lms.example.edu"
    /\ Config.n_PASSWORD cfg = u " s3cret "
    /\ Config.n_HOMEWORK_URLS cfg
       = [u "/course/homework/58430"; u "/course/homework/1"]
    /\ (forall t, Config.n_BASE cfg <> t ++ u "/")
    /\ (exists base n, sample_environ (u "ILEARNING_BASE_URL") = Some base
                       /\ base = Config.n_BASE cfg ++ repeat 47%N n)
    /\ Config.n_DEEP_FETCH cfg = true.
Proof.
  eexists. split; [vm_compute; reflexivity|].
  split; [reflexivity|]. split; [reflexivity|]. split; [reflexivity|].
  match goal with
  | |- (forall t, Config.n_BASE ?c <> _) /\ _ =>
    destruct (X3_nchu_settings_loaded sample_environ c)
      as (Hbase & Hvar & _ & _ & _ & Hdeep)
  end.
  - vm_compute. reflexivity.
  - split; [exact Hbase|]. split; [exact Hvar|]. apply Hdeep. reflexivity.
Defined.

(* ================================================================== *)
(** ** The Moodle script: the loop over the courses and [main] *)

Section MoodleMain.

Variable dtparse : bool -> str -> option datetime.
Variable urljoin : str -> str -> str.
Variable BASE ICS_OUTPUT : str.
Variable LOCAL_TZ : tz.
Variable server : list str -> str -> reply.
Variable login : M unit.
Variable now : datetime.

(** Fetching a course asks for its index page, once, whatever comes of
    it, and prints nothing. *)
Lemma moodle_fetch_course_requests cid s r s' :
  Moodle.fetch_course_assignments dtparse urljoin BASE LOCAL_TZ server cid s
  = (r, s') ->
  s' = sent s (moodle_index_url urljoin BASE cid).
Proof.
  unfold Moodle.fetch_course_assignments, moodle_index_url, sent, bind,
    sess_get, raise_for_status, lift, ret, raise.
  destruct (server (requests s) _) as [|st body]; simpl.
  - intros H. now inversion H.
  - destruct ((400 <=? st) && (st <? 600))%N; simpl;
      intros H; now inversion H.
Qed.

Lemma moodle_fetch_all_step cid rest all_events s :
  exists evs s1,
    Moodle.fetch_all dtparse urljoin BASE LOCAL_TZ server (cid :: rest)
      all_events s
    = Moodle.fetch_all dtparse urljoin BASE LOCAL_TZ server rest
        (all_events ++ evs) s1
    /\ requests s1 = requests s ++ [moodle_index_url urljoin BASE cid].
Proof.
  destruct (Moodle.fetch_course_assignments dtparse urljoin BASE LOCAL_TZ
              server cid
              {| requests := requests s;
                 stdout := stdout s
                   ++ [Info (u "[iLearning-ICS] Fetching course "
                             ++ cid ++ u " assignments...")] |})
    as [[evs|e] s1] eqn:E;
    pose proof (moodle_fetch_course_requests _ _ _ _ E) as Hs1.
  - exists evs. eexists. split.
    + cbn [Moodle.fetch_all]. unfold bind at 1. unfold try_except.
      unfold bind at 1. unfold print at 1. unfold bind at 1.
      rewrite E. unfold bind, print, ret. reflexivity.
    + subst s1. reflexivity.
  - exists []. eexists. split.
    + rewrite (moodle_failed_course_skipped _ _ _ _ _ _ _ _ _ _ _ E).
      rewrite app_nil_r. reflexivity.
    + subst s1. reflexivity.
Qed.

End MoodleMain.

(** X4: the loop of the Moodle [main] over the courses never raises,
    whatever the site answers: it returns the events it had, followed by the
    new ones, and it has asked for the index page of every course, once each
    and in the order of COURSE_IDS, also after a course has failed. *)
Theorem X4_moodle_every_course_is_requested
    (dtparse : bool -> str -> option datetime) (urljoin : str -> str -> str)
    (BASE : str) (LOCAL_TZ : tz) (server : list str -> str -> reply)
    (cids : list str) (all_events : list Moodle.assignment) (s : session) :
  exists evs s',
    Moodle.fetch_all dtparse urljoin BASE LOCAL_TZ server cids all_events s
    = (Ok (all_events ++ evs), s')
    /\ requests s'
       = requests s ++ map (moodle_index_url urljoin BASE) cids.
Proof.
  revert all_events s.
  induction cids as [|cid rest IH]; intros all_events s.
  - exists [], s. simpl. rewrite !app_nil_r. split; reflexivity.
  - destruct (moodle_fetch_all_step dtparse urljoin BASE LOCAL_TZ server
                cid rest all_events s) as (evs & s1 & Hstep & Hreq).
    destruct (IH (all_events ++ evs) s1) as (evs' & s' & Hrun & Hreq').
    exists (evs ++ evs'), s'. split.
    + rewrite Hstep, Hrun. now rewrite app_assoc.
    + rewrite Hreq', Hreq. simpl. now rewrite <- app_assoc.
Qed.

Lemma moodle_build_events_raise now evs :
  forall acc e, Moodle.build_events now evs acc = Raise e ->
                e = UnicodeEncodeError.
Proof.
  induction evs as [|ev rest IH]; intros acc e H; simpl in H.
  - discriminate.
  - destruct (Moodle.build_event now ev) as [x|e0] eqn:E.
    + eapply IH; eauto.
    + inversion H; subst. unfold Moodle.build_event in E.
      unfold Moodle.stable_uid in E.
      destruct (encode_utf8 _); [discriminate|]. now inversion E.
Qed.

(** X5: the Moodle [main] can fail in four places only: the login has
    raised; a link or a title cannot be encoded in UTF-8 when the calendar
    is built; the directory of ICS_OUTPUT, which is what [os.path.dirname]
    makes of it, could not be made; or the file could not be written.  No
    answer of the site to the request of a course makes it raise. *)
Theorem X5_moodle_main_failures
    (dtparse : bool -> str -> option datetime) (urljoin : str -> str -> str)
    (BASE ICS_OUTPUT : str) (COURSE_IDS : list str) (LOCAL_TZ : tz)
    (server : list str -> str -> reply) (login : M unit) (now : datetime)
    (makedirs : str -> M unit) (write_lines : str -> Calendar -> M unit)
    (s s' : session) (e : exn) :
  Moodle.main dtparse urljoin BASE COURSE_IDS ICS_OUTPUT LOCAL_TZ server
              login now makedirs write_lines s = (Raise e, s') ->
  (exists s0 s1, login s0 = (Raise e, s1))
  \/ e = UnicodeEncodeError
  \/ (exists s0 s1, makedirs (dirname ICS_OUTPUT) s0 = (Raise e, s1))
  \/ (exists cal s0 s1, write_lines ICS_OUTPUT cal s0 = (Raise e, s1)).
Proof.
  unfold Moodle.main. intros H. cbv zeta in H.
  apply PyFacts.bind_raise in H. destruct H as [H|(a & s1 & _ & H)];
    [discriminate H|].
  apply PyFacts.bind_raise in H. destruct H as [H|(a0 & s2 & _ & H)];
    [left; eauto|].
  apply PyFacts.bind_raise in H. destruct H as [H|(evs & s3 & _ & H)].
  { destruct (moodle_fetch_all_total dtparse urljoin BASE LOCAL_TZ server
                COURSE_IDS [] s2) as (x & y & Hx).
    rewrite Hx in H. discriminate H. }
  apply PyFacts.bind_raise in H. destruct H as [H|(cal & s4 & _ & H)].
  { right. left. unfold lift in H. inversion H as [[Hb Hs]].
    unfold Moodle.build_calendar in Hb.
    destruct (Moodle.build_events now evs []) as [es|e0] eqn:E;
      [discriminate|].
    inversion Hb; subst. eapply moodle_build_events_raise; eauto. }
  apply PyFacts.bind_raise in H. destruct H as [H|(a1 & s5 & _ & H)];
    [right; right; left; eauto|].
  apply PyFacts.bind_raise in H. destruct H as [H|(a2 & s6 & _ & H)];
    [right; right; right; eauto|].
  apply PyFacts.bind_raise in H. destruct H as [H|(a3 & s7 & _ & H)];
    discriminate H.
Qed.

(** A run with ICS_OUTPUT set to a bare file name: its directory is the
    empty name, which cannot be made, and the run fails after the courses
    have been fetched. *)
Lemma X5_moodle_main_failures_witness :
  (exists s0 s1, Site.login s0 = (Raise OSError, s1))
  \/ OSError = UnicodeEncodeError
  \/ (exists s0 s1,
        Site.makedirs (dirname (u "ilearning.ics")) s0 = (Raise OSError, s1))
  \/ (exists cal s0 s1,
        Site.write_lines (u "ilearning.ics") cal s0 = (Raise OSError, s1)).
Proof.
  eapply (X5_moodle_main_failures Site.dtparse Site.urljoin Site.BASE
            (u "ilearning.ics") [u "101"] Site.taipei
            Site.moodle_server Site.login Site.now Site.makedirs
            Site.write_lines fresh).
  vm_compute. reflexivity.
Defined.

(* ================================================================== *)
(** ** Rows, links and titles *)

Module RowFacts.

Lemma hd_error_in {A} (l : list A) x : hd_error l = Some x -> In x l.
Proof. destruct l; simpl; intros H; inversion H. now left. Qed.

(** The link [find("a", href=True)] returns is a link of the row and has
    an [href]. *)
Lemma find_a_href_some tr a :
  find_a_href tr = Some a ->
  In a (find_all (u "a") tr)
  /\ exists href, attr (u "href") a = Some href.
Proof.
  unfold find_a_href. intros H. apply hd_error_in in H.
  apply filter_In in H. destruct H as [Hin Hattr]. split; [exact Hin|].
  destruct (attr (u "href") a) as [href|]; [eauto|discriminate].
Qed.

Lemma join_nil_concat l : join [] l = concat l.
Proof.
  induction l as [|p [|q l] IH]; simpl in *.
  - reflexivity.
  - now rewrite app_nil_r.
  - now rewrite IH.
Qed.

Lemma last_of_app (p x t : str) c :
  x <> [] -> p ++ x = t ++ [c] -> exists t', x = t' ++ [c].
Proof.
  intros Hx E. destruct (exists_last Hx) as (x' & d & ->).
  rewrite app_assoc in E. apply app_inj_tail in E. destruct E as [_ ->].
  now exists x'.
Qed.

Lemma concat_trimmed l :
  Forall (fun p => p <> [] /\ trimmed p) l -> trimmed (concat l).
Proof.
  intros H. split.
  - destruct H as [|p l [Hne [Hh _]] _]; simpl; [discriminate|].
    destruct p as [|a p']; [congruence|].
    intros c t E. inversion E; subst. eapply Hh; reflexivity.
  - induction H as [|p l [Hne [_ Hl]] Hrest IH]; simpl.
    + intros t c E. destruct t; discriminate.
    + intros t c E. destruct (concat l) as [|x xs] eqn:Ec.
      * rewrite app_nil_r in E. eapply Hl; eauto.
      * apply last_of_app in E; [|discriminate].
        destruct E as [t' E]. eapply IH; eauto.
Qed.

Lemma all_strings_stripped n :
  Forall (fun p => p <> [] /\ trimmed p) (all_strings true n).
Proof.
  unfold all_strings. apply Forall_forall. intros p Hin.
  apply in_flat_map in Hin. destruct Hin as (d & _ & Hin).
  destruct d as [s|]; [|destruct Hin].
  destruct (strip s) as [|c t] eqn:E; [destruct Hin|].
  destruct Hin as [<-|[]]. split; [discriminate|].
  rewrite <- E. apply TextFacts.strip_trimmed.
Qed.

(** [tag.get_text(strip=True)] has no white space at either end. *)
Lemma get_text_trimmed n : trimmed (get_text [] true n).
Proof.
  unfold get_text. rewrite join_nil_concat.
  apply concat_trimmed, all_strings_stripped.
Qed.

End RowFacts.

Section MoodleRows.

Variable dtparse : bool -> str -> option datetime.
Variable urljoin : str -> str -> str.
Variable BASE : str.
Variable LOCAL_TZ : tz.

Lemma moodle_assign_row_of cid tr ev :
  Moodle.assign_row dtparse urljoin BASE LOCAL_TZ cid tr = Ok (Some ev) ->
  moodle_row_of urljoin BASE cid [tr] ev.
Proof.
  unfold Moodle.assign_row.
  destruct (find_a_href tr) as [a|] eqn:Ea; [|discriminate].
  destruct (RowFacts.find_a_href_some _ _ Ea) as (_ & href & Hhref).
  rewrite Hhref.
  destruct (contains (u "mod/assign") href) eqn:Ec; [|discriminate].
  cbn [negb].
  destruct (negb (truthy _)); [discriminate|].
  destruct (Moodle.parse_due_text _ _ _) as [[dt|]|]; try discriminate.
  intros H. inversion H; subst.
  exists tr, a, href. simpl. repeat split; auto.
Qed.

Lemma moodle_assign_rows_of cid all rows :
  forall events evs,
    incl rows all ->
    Forall (moodle_row_of urljoin BASE cid all) events ->
    Moodle.assign_rows dtparse urljoin BASE LOCAL_TZ cid rows events = Ok evs ->
    Forall (moodle_row_of urljoin BASE cid all) evs
    /\ length evs <= length events + length rows.
Proof.
  induction rows as [|tr rest IH]; intros events evs Hincl Hev H;
    simpl in H.
  - inversion H; subst. split; [assumption|lia].
  - assert (Hrest : incl rest all)
      by (intros x Hx; apply Hincl; now right).
    destruct (Moodle.assign_row _ _ _ _ _ _) as [[ev|]|] eqn:E;
      try discriminate.
    + apply IH in H; auto.
      * destruct H as [H1 H2]. split; [assumption|].
        rewrite length_app in H2. simpl in *. lia.
      * apply Forall_app. split; auto. constructor; [|constructor].
        apply moodle_assign_row_of in E.
        destruct E as (tr' & a & href & [<-|[]] & E).
        exists tr, a, href. split; [|exact E]. apply Hincl. now left.
    + apply IH in H; auto. destruct H as [H1 H2].
      split; [assumption|]. simpl. lia.
Qed.

End MoodleRows.

(** X6: every assignment [parse_assign_table] returns comes from a row of
    the first table of the page whose first link with an [href] points to
    "mod/assign": its title is the text of that link, without white space at
    either end, its URL is the [href], less its leading slashes, joined to
    the base URL, and its course is the one asked for.  There are no more
    assignments than rows. *)
Theorem X6_moodle_assignments_come_from_rows
    (dtparse : bool -> str -> option datetime) (urljoin : str -> str -> str)
    (BASE : str) (LOCAL_TZ : tz) (soup : node) (cid : str)
    (evs : list Moodle.assignment) :
  Moodle.parse_assign_table dtparse urljoin BASE LOCAL_TZ (Some soup) cid
  = Ok evs ->
  exists rows,
    rows = match Soup.find (u "table") soup with
           | Some table => find_all (u "tr") table
           | None => []
           end
    /\ Forall (fun ev => moodle_row_of urljoin BASE cid rows ev
                         /\ trimmed (Moodle.title ev)) evs
    /\ length evs <= length rows.
Proof.
  unfold Moodle.parse_assign_table. simpl. intros H.
  eexists. split; [reflexivity|].
  destruct (Soup.find (u "table") soup) as [table|].
  - apply (moodle_assign_rows_of dtparse urljoin BASE LOCAL_TZ cid
             (find_all (u "tr") table)) in H.
    + destruct H as [H1 H2]. split; [|exact H2].
      eapply Forall_impl; [|exact H1].
      intros ev Hev. split; [exact Hev|].
      destruct Hev as (tr & a & href & _ & _ & _ & _ & -> & _).
      apply RowFacts.get_text_trimmed.
    + apply incl_refl.
    + constructor.
  - inversion H. split; [constructor|]. simpl. lia.
Qed.

(** The index page of course 101: one assignment, from the row of
    "Essay 1". *)
Lemma X6_moodle_assignments_come_from_rows_witness :
  exists evs,
    Moodle.parse_assign_table Site.dtparse Site.urljoin Site.BASE Site.taipei
      (Some Site.moodle_page) (u "101") = Ok evs
    /\ map Moodle.title evs = [u "Essay 1"]
    /\ Forall (fun ev => trimmed (Moodle.title ev)) evs.
Proof.
  eexists. split; [vm_compute; reflexivity|]. split; [reflexivity|].
  match goal with
  | |- Forall _ ?l =>
    destruct (X6_moodle_assignments_come_from_rows Site.dtparse Site.urljoin
                Site.BASE Site.taipei Site.moodle_page (u "101") l)
      as (rows & _ & H & _)
  end.
  - vm_compute. reflexivity.
  - eapply Forall_impl; [|exact H]. intros ev [_ Ht]. exact Ht.
Defined.

(** X7: the Moodle scraper finds no due text in a row, and drops it,
    exactly when no cell of the row holds a label keyword and the cells,
    joined by spaces, hold no date token. *)
Theorem X7_moodle_row_without_due_text (tds : list str) :
  Moodle.find_due_text tds = []
  <-> (Forall (fun t => has_keyword MoodleSite t = false) tds
       /\ Re.search_text false Moodle.date_token (join (u " ") tds) = None).
Proof.
  unfold Moodle.find_due_text, Moodle.labelled_cell.
  destruct (List.find (Re.found true Moodle.due_label) (rev tds))
    as [c|] eqn:Ef.
  - apply find_some in Ef. destruct Ef as [Hin Hc].
    rewrite (found_label MoodleSite) in Hc.
    pose proof (has_keyword_truthy _ _ Hc) as Ht. rewrite Ht. simpl.
    split.
    + intros E. subst c. discriminate Ht.
    + intros [Hall _]. rewrite Forall_forall in Hall.
      apply in_rev in Hin. specialize (Hall _ Hin).
      change (has_keyword MoodleSite c = false) in Hall. congruence.
  - assert (Hall : Forall (fun t => has_keyword MoodleSite t = false) tds).
    { apply Forall_forall. intros t Hin.
      rewrite <- (found_label MoodleSite).
      apply (find_none _ _ Ef). now apply in_rev in Hin. }
    simpl.
    destruct (Re.search_text false Moodle.date_token (join (u " ") tds))
      as [token|] eqn:Es.
    + split; [|intros [_ H]; discriminate].
      intros E. subst token. unfold Re.search_text, Re.search in Es.
      destruct (Re.search_from _ _ _ _) as [[i tok]|] eqn:Ess;
        [|discriminate].
      simpl in Es. inversion Es; subst tok.
      apply ReFacts.search_from_substring in Ess.
      destruct Ess as (pre & suf & e & _ & _ & Hm & Ht).
      apply TokenFacts.four_digits_first in Hm.
      destruct Hm as (c & t & -> & _ & He).
      destruct (e - i) eqn:En; [lia|]. discriminate Ht.
    + split; auto.
Qed.

(** X8: [to_abs] does not mind leading slashes: a path that does not
    start with "http" is made absolute the same way with any number of
    slashes put before it. *)
Theorem X8_to_abs_leading_slashes
    (urljoin : str -> str -> str) (BASE path : str) (n : nat) :
  startswith (u "http") path = false ->
  Nchu.to_abs urljoin BASE (repeat 47%N n ++ path)
  = Nchu.to_abs urljoin BASE path.
Proof.
  intros Hp. induction n as [|n IH]; [reflexivity|].
  rewrite <- IH. unfold Nchu.to_abs.
  replace (startswith (u "http") (repeat 47%N (S n) ++ path)) with false
    by reflexivity.
  destruct n; simpl repeat; simpl app.
  - rewrite Hp. reflexivity.
  - reflexivity.
Qed.

Lemma X8_to_abs_leading_slashes_witness :
  Nchu.to_abs Site.urljoin Site.BASE (u "//course/homework/58430")
  = u "https://lms.example.edu/course/homework/58430"
  /\ Nchu.to_abs Site.urljoin Site.BASE (u "course/homework/58430")
     = u "https://lms.example.edu/course/homework/58430".
Proof.
  split; [|vm_compute; reflexivity].
  change (u "//course/homework/58430")
    with (repeat 47%N 2 ++ u "course/homework/58430").
  rewrite (X8_to_abs_leading_slashes Site.urljoin Site.BASE
             (u "course/homework/58430") 2 eq_refl).
  vm_compute. reflexivity.
Defined.

(* ================================================================== *)
(** ** The rows of a homework list *)

Lemma contains_app_r k1 k2 s :
  contains (k1 ++ k2) s = true -> contains k2 s = true.
Proof.
  assert (Hs : forall k1 s, startswith (k1 ++ k2) s = true ->
                            contains k2 s = true).
  { clear. induction k1 as [|a k1 IH]; intros s H.
    - simpl in H. destruct s; simpl; now rewrite H.
    - destruct s as [|b t]; simpl in H; [discriminate|].
      apply andb_true_iff in H. destruct H as [_ H].
      apply IH in H. simpl. rewrite H. apply orb_true_r. }
  induction s as [|b t IH]; simpl; intros H.
  - rewrite orb_false_r in H. now apply Hs in H.
  - apply orb_true_iff in H. destruct H as [H|H].
    + apply Hs in H. simpl in H. exact H.
    + rewrite IH by assumption. apply orb_true_r.
Qed.

Lemma nchu_list_row_candidate dtparse urljoin list_url tr :
  Nchu.list_row dtparse urljoin list_url tr
  = nchu_row_candidate dtparse urljoin list_url tr.
Proof.
  unfold Nchu.list_row, nchu_row_candidate.
  destruct (find_a_href tr) as [a|]; [|reflexivity].
  set (href := match attr (u "href") a with Some h => h | None => [] end).
  destruct (contains (u "/homework") href) eqn:E3.
  - now rewrite !andb_false_r.
  - destruct (contains (u "/course/homework/content") href) eqn:E1.
    { change (u "/course/homework/content")
        with (u "/course" ++ (u "/homework" ++ u "/content")) in E1.
      apply contains_app_r, TokenFacts.contains_app in E1. congruence. }
    destruct (contains (u "/homework/content") href) eqn:E2.
    { change (u "/homework/content")
        with (u "/homework" ++ u "/content") in E2.
      apply TokenFacts.contains_app in E2. congruence. }
    reflexivity.
Qed.

Lemma nchu_list_rows_flat_map dtparse urljoin list_url rows :
  forall events,
    Nchu.list_rows dtparse urljoin list_url rows events
    = events
      ++ flat_map (fun tr =>
                     match nchu_row_candidate dtparse urljoin list_url tr with
                     | Some it => [it]
                     | None => []
                     end) rows.
Proof.
  induction rows as [|tr rest IH]; intros events; simpl.
  - now rewrite app_nil_r.
  - rewrite nchu_list_row_candidate.
    destruct (nchu_row_candidate dtparse urljoin list_url tr) as [it|].
    + rewrite IH, <- app_assoc. reflexivity.
    + apply IH.
Qed.

(** X9: where [parse_list_page] returns, it has made one candidate of
    every table row whose first link with an [href] holds "/homework", the
    two longer tests of the source adding nothing, and of no other row; the
    candidates come in the order of the rows, with or without a due date,
    and their titles have no white space at either end. *)
Theorem X9_nchu_one_candidate_per_homework_row
    (dtparse : bool -> str -> option datetime) (urljoin : str -> str -> str)
    (soup : node) (list_url : str) (items : list Nchu.item) :
  Nchu.parse_list_page dtparse urljoin (Some soup) list_url = Ok items ->
  items = flat_map (fun tr =>
                      match nchu_row_candidate dtparse urljoin list_url tr
                      with
                      | Some it => [it]
                      | None => []
                      end) (select_table_tr soup)
  /\ Forall (fun it => trimmed (fst (fst it))) items.
Proof.
  unfold Nchu.parse_list_page. simpl.
  rewrite nchu_list_rows_flat_map. simpl.
  intros H. inversion H as [Hitems]. clear H. split; [reflexivity|].
  apply Forall_forall. intros it Hin.
  apply in_flat_map in Hin. destruct Hin as (tr & _ & Hin).
  unfold nchu_row_candidate in Hin.
  destruct (find_a_href tr) as [a|]; [|destruct Hin].
  destruct (contains _ _); [|destruct Hin].
  destruct Hin as [<-|[]]. simpl. apply RowFacts.get_text_trimmed.
Qed.

(** The sample list: three rows, three candidates, the first with its due
    date. *)
Lemma X9_nchu_one_candidate_per_homework_row_witness :
  exists items,
    Nchu.parse_list_page Site.dtparse Site.urljoin (Some Site.nchu_list)
      (u "https://lms.example.edu/course/homework/58430") = Ok items
    /\ map (fun it => fst (fst it)) items
       = [u "HW one"; u "HW two"; u "HW three"]
    /\ Forall (fun it => trimmed (fst (fst it))) items.
Proof.
  destruct (Nchu.parse_list_page Site.dtparse Site.urljoin
              (Some Site.nchu_list)
              (u "https://lms.example.edu/course/homework/58430"))
    as [items|e] eqn:Hrun; [|vm_compute in Hrun; discriminate Hrun].
  exists items. split; [reflexivity|].
  destruct (X9_nchu_one_candidate_per_homework_row _ _ _ _ _ Hrun)
    as [Hitems Htrim].
  split; [|exact Htrim].
  rewrite Hitems. vm_compute. reflexivity.
Defined.

(* ================================================================== *)
(** ** Removing labels *)

Module LabelFacts.

Import Re.

Lemma starts_app icase k1 k2 s :
  starts icase (k1 ++ k2) s = true -> starts icase k1 s = true.
Proof.
  revert s. induction k1 as [|a k1 IH]; intros s H; [reflexivity|].
  destruct s as [|b t]; [discriminate H|].
  change (starts icase ((a :: k1) ++ k2) (b :: t))
    with (chr_eq icase b a && starts icase (k1 ++ k2) t) in H.
  change (starts icase (a :: k1) (b :: t))
    with (chr_eq icase b a && starts icase k1 t).
  apply andb_true_iff in H. destruct H as [-> H]. simpl. now apply IH.
Qed.

Lemma anywhere_suffix (f : str -> bool) pre s :
  f s = true -> anywhere f (pre ++ s) = true.
Proof.
  intros H. induction pre as [|a pre IH]; simpl.
  - destruct s; simpl; now rewrite H.
  - rewrite IH. apply orb_true_r.
Qed.

(** Where nothing matches, [re.sub] changes nothing. *)
Lemma sub_from_none icase r s :
  forall pos,
    (forall pre suf pos', s = pre ++ suf ->
                          match_at icase r pos' suf = None) ->
    sub_from icase r pos 0 s = s.
Proof.
  induction s as [|c t IH]; intros pos H; [reflexivity|].
  cbn [sub_from]. rewrite (H [] (c :: t) pos eq_refl).
  f_equal. apply IH. intros pre suf pos' E.
  apply (H (c :: pre)). simpl. now f_equal.
Qed.

(** A match of more than one character at [pos] is dropped. *)
Lemma sub_from_match icase r pos c t e n :
  match_at icase r pos (c :: t) = Some e -> e - pos = S n ->
  sub_from icase r pos 0 (c :: t) = sub_from icase r (S pos) n t.
Proof. intros Hm He. cbn [sub_from]. now rewrite Hm, He. Qed.

(** After the start of the text an anchored pattern drops the rest of its
    match and nothing more. *)
Lemma sub_from_bol_skip icase r s :
  forall pos n, sub_from icase (Cat Bol r) (S pos) n s = skipn n s.
Proof.
  induction s as [|c t IH]; intros pos n.
  - now destruct n.
  - destruct n as [|n].
    + apply TokenFacts.sub_from_bol.
    + cbn [sub_from skipn]. apply IH.
Qed.

Lemma has_keyword_here t :
  has_keyword NchuSite t = anywhere nchu_label_here t.
Proof.
  rewrite <- (found_label NchuSite). simpl label_of.
  apply ReFacts.found_anywhere. intros pos s.
  unfold Nchu.due_label, nchu_label_here.
  rewrite !ReFacts.accepts_alt, !ReFacts.accepts_lit.
  now rewrite !orb_assoc.
Qed.

(** The label pattern of [parse_due] matches only where a label of the
    row pattern starts. *)
Lemma label_any_here pos s e :
  match_at true Nchu.label_any pos s = Some e -> nchu_label_here s = true.
Proof.
  unfold match_at, Nchu.label_any, nchu_label_here. cbn [exec].
  rewrite !ReFacts.exec_lit.
  destruct (starts true (u "繳交期限") s); [reflexivity|].
  destruct (starts true (u "截止") s) eqn:E2; [reflexivity|].
  destruct (starts true (u "到期") s); [reflexivity|].
  destruct (starts true (u "Due") s); [reflexivity|].
  destruct (starts true (u "截止時間") s) eqn:E5; [|discriminate].
  change (u "截止時間") with (u "截止" ++ u "時間") in E5.
  apply starts_app in E5. congruence.
Qed.

Lemma label_any_none t :
  has_keyword NchuSite t = false ->
  forall pos, sub_from true Nchu.label_any pos 0 t = t.
Proof.
  intros Hno pos. apply sub_from_none. intros pre suf pos' E.
  destruct (match_at true Nchu.label_any pos' suf) as [e|] eqn:Em;
    [|reflexivity].
  apply label_any_here in Em.
  rewrite has_keyword_here, E, anywhere_suffix in Hno by assumption.
  discriminate.
Qed.

End LabelFacts.

(** X10: a text that holds none of the labels of the NCHU scraper goes to
    the date parser as it is: [parse_due] removes nothing from it, and its
    result is the permissive parse of the text or, where that fails, the
    parse of the first date token of the text. *)
Theorem X10_parse_due_keeps_unlabelled_text
    (dtparse : bool -> str -> option datetime) (t : str) :
  has_keyword NchuSite t = false ->
  Re.sub_empty true Nchu.label_any t = t
  /\ Nchu.parse_due dtparse t
     = match dtparse false t with
       | Some dt => Some dt
       | None => Nchu.parse_due_fallback dtparse t
       end.
Proof.
  intros Hno.
  assert (E : Re.sub_empty true Nchu.label_any t = t)
    by (apply LabelFacts.label_any_none; assumption).
  split; [exact E|]. unfold Nchu.parse_due. now rewrite E.
Qed.

(** A row text the reference parser cannot read as a whole: the date
    comes from the token. *)
Lemma X10_parse_due_keeps_unlabelled_text_witness :
  Nchu.parse_due Site.dtparse (u "HW1 2025/11/03 18:00")
  = Some (naive 2025 11 3 18 0 0).
Proof.
  destruct (X10_parse_due_keeps_unlabelled_text Site.dtparse
              (u "HW1 2025/11/03 18:00")) as [_ H].
  - vm_compute. reflexivity.
  - rewrite H. vm_compute. reflexivity.
Defined.

(** X11: the fifth label of the pattern of [parse_due], 截止時間, is never
    used, 截止 being tried before it: of a text that starts with 截止時間
    only 截止 is removed, and 時間 stays in the text the date parser gets. *)
Theorem X11_longer_label_is_never_matched (rest : str) :
  has_keyword NchuSite rest = false ->
  Re.sub_empty true Nchu.label_any (u "截止時間" ++ rest) = u "時間" ++ rest.
Proof.
  intros Hno.
  change (u "截止時間" ++ rest)
    with (0x622a :: 0x6b62 :: 0x6642 :: 0x9593 :: rest)%N.
  change (u "時間" ++ rest) with (0x6642 :: 0x9593 :: rest)%N.
  assert (Em : Re.match_at true Nchu.label_any 0
                 (0x622a :: 0x6b62 :: 0x6642 :: 0x9593 :: rest)%N = Some 2)
    by (vm_compute; reflexivity).
  unfold Re.sub_empty.
  rewrite (LabelFacts.sub_from_match _ _ _ _ _ _ _ Em eq_refl).
  change (Re.sub_from true Nchu.label_any 2 0
            (0x6642 :: 0x9593 :: rest)%N = (0x6642 :: 0x9593 :: rest)%N).
  apply LabelFacts.label_any_none.
  rewrite LabelFacts.has_keyword_here in *.
  cbn [Re.anywhere].
  replace (nchu_label_here (0x6642 :: 0x9593 :: rest)%N) with false
    by (vm_compute; reflexivity).
  replace (nchu_label_here (0x9593 :: rest)%N) with false
    by (vm_compute; reflexivity).
  exact Hno.
Qed.

Lemma X11_longer_label_is_never_matched_witness :
  Re.sub_empty true Nchu.label_any (u "截止時間：2025-10-01 12:00")
  = u "時間：2025-10-01 12:00".
Proof.
  apply (X11_longer_label_is_never_matched (u "：2025-10-01 12:00")).
  vm_compute. reflexivity.
Defined.

(** X12: the Moodle scraper removes a label at the start of the due text
    and nowhere else: what it hands to the parser is the text less some of
    its first characters, and the whole text when it does not start with one
    of the four labels. *)
Theorem X12_clean_prefix_removes_a_prefix (t : str) :
  (exists n, Moodle.clean_prefix t = skipn n t)
  /\ (moodle_prefix_here t = false -> Moodle.clean_prefix t = t).
Proof.
  unfold Moodle.clean_prefix, Re.sub_empty.
  destruct t as [|c t]; [split; [now exists 0|reflexivity]|].
  cbn [Re.sub_from].
  destruct (Re.match_at true Moodle.label_prefix 0 (c :: t)) as [e|] eqn:Em.
  - assert (Hhere : moodle_prefix_here (c :: t) = true).
    { unfold Re.match_at, Moodle.label_prefix in Em.
      cbn [Re.exec Nat.eqb] in Em. rewrite !ReFacts.exec_lit in Em.
      unfold moodle_prefix_here.
      destruct (Re.starts true (u "Due date") (c :: t)); [reflexivity|].
      destruct (Re.starts true (u "截止") (c :: t)); [reflexivity|].
      destruct (Re.starts true (u "繳交期限") (c :: t)); [reflexivity|].
      destruct (Re.starts true (u "到期") (c :: t)); [reflexivity|].
      discriminate Em. }
    split; [|congruence].
    destruct (e - 0) as [|n].
    + exists 0. unfold Moodle.label_prefix.
      now rewrite TokenFacts.sub_from_bol.
    + exists (S n). unfold Moodle.label_prefix.
      now rewrite LabelFacts.sub_from_bol_skip.
  - split; [exists 0|intros _]; unfold Moodle.label_prefix;
      now rewrite TokenFacts.sub_from_bol.
Qed.

Lemma X12_clean_prefix_removes_a_prefix_witness :
  Moodle.clean_prefix (u "Submitted; Due date: 2025-09-20")
  = u "Submitted; Due date: 2025-09-20".
Proof.
  apply (X12_clean_prefix_removes_a_prefix
           (u "Submitted; Due date: 2025-09-20")).
  vm_compute. reflexivity.
Defined.

(* ================================================================== *)
(** ** Building the calendar *)

Lemma encode_utf8_ok s :
  (exists b, encode_utf8 s = Some b) <-> forallb encodable s = true.
Proof.
  induction s as [|c s IH]; simpl.
  - split; eauto.
  - destruct (encodable c); simpl.
    + rewrite <- IH. destruct (encode_utf8 s) as [b|].
      * split; eauto.
      * split; intros [b H]; discriminate.
    + split; [intros [b H]|intros H]; discriminate.
Qed.

Module SetFacts.

Lemma same_event_uid e e' : same_event e e' = true <-> uid e = uid e'.
Proof. unfold same_event. apply str_eqb_eq. Qed.

(** After [add], the set has a member with the identifier of the event. *)
Lemma add_member e es : exists e', In e' (add_event e es) /\ uid e' = uid e.
Proof.
  unfold add_event. destruct (existsb (same_event e) es) eqn:E.
  - apply existsb_exists in E. destruct E as (e' & Hin & He).
    apply same_event_uid in He. exists e'. split; [assumption|congruence].
  - exists e. split; [|reflexivity]. apply in_or_app. right. now left.
Qed.

(** An event whose identifier is new becomes a member. *)
Lemma add_fresh e es :
  (forall e', In e' es -> uid e' <> uid e) -> In e (add_event e es).
Proof.
  intros H. unfold add_event. destruct (existsb (same_event e) es) eqn:E.
  - apply existsb_exists in E. destruct E as (e' & Hin & He).
    apply same_event_uid in He. destruct (H e' Hin). congruence.
  - apply in_or_app. right. now left.
Qed.

Lemma add_nodup e es :
  NoDup (map uid es) -> NoDup (map uid (add_event e es)).
Proof.
  intros H. unfold add_event.
  destruct (existsb (same_event e) es) eqn:E; [assumption|].
  rewrite map_app. simpl.
  rewrite <- (rev_involutive (map uid es ++ [uid e])).
  apply NoDup_rev. rewrite rev_app_distr. simpl. constructor.
  - intros Hin. apply in_rev in Hin. apply in_map_iff in Hin.
    destruct Hin as (e' & He & Hin).
    assert (Ht : existsb (same_event e) es = true).
    { apply existsb_exists. exists e'. split; [assumption|].
      apply same_event_uid. congruence. }
    congruence.
  - now apply NoDup_rev.
Qed.

Section AddAll.

(** The set after the events of a list have been added one after the
    other. *)
Let add_all (new es : list Event) : list Event :=
  fold_left (fun es e => add_event e es) new es.

Lemma all_incl new : forall es e, In e es -> In e (add_all new es).
Proof.
  induction new as [|a new IH]; intros es e H; simpl; [assumption|].
  apply IH. now apply CalFacts.add_incl.
Qed.

Lemma all_in new : forall es e, In e (add_all new es) -> In e es \/ In e new.
Proof.
  induction new as [|a new IH]; intros es e H; simpl in H; [now left|].
  apply IH in H. destruct H as [H|H]; [|right; now right].
  apply CalFacts.in_add in H. destruct H as [H| ->]; [now left|].
  right. now left.
Qed.

Lemma all_nodup new :
  forall es, NoDup (map uid es) -> NoDup (map uid (add_all new es)).
Proof.
  induction new as [|a new IH]; intros es H; simpl; [assumption|].
  apply IH. now apply add_nodup.
Qed.

Lemma all_member new :
  forall es e, In e new ->
               exists e', In e' (add_all new es) /\ uid e' = uid e.
Proof.
  induction new as [|a new IH]; intros es e H; simpl; [destruct H|].
  destruct H as [->|H]; [|now apply IH].
  destruct (add_member e es) as (e' & Hin & He).
  exists e'. split; [|assumption]. now apply all_incl.
Qed.

(** Of the events with one identifier, the first to be added stays. *)
Lemma all_first pre e post :
  forall es,
    (forall e', In e' es -> uid e' <> uid e) ->
    (forall e', In e' pre -> uid e' <> uid e) ->
    In e (add_all (pre ++ e :: post) es).
Proof.
  induction pre as [|a pre IH]; intros es Hes Hpre; simpl.
  - apply all_incl. now apply add_fresh.
  - apply IH.
    + intros e' Hin. apply CalFacts.in_add in Hin.
      destruct Hin as [Hin| ->]; [now apply Hes|].
      apply Hpre. now left.
    + intros e' Hin. apply Hpre. now right.
Qed.

Lemma all_length new :
  forall es, length (add_all new es) <= length es + length new.
Proof.
  induction new as [|a new IH]; intros es; simpl; [lia|].
  specialize (IH (add_event a es)).
  pose proof (CalFacts.add_length a es). lia.
Qed.

End AddAll.

Lemma Forall2_in_l {A B} (R : A -> B -> Prop) l l' x :
  Forall2 R l l' -> In x l -> exists y, In y l' /\ R x y.
Proof.
  induction 1 as [|a b l l' Hab _ IH]; intros Hin; [destruct Hin|].
  destruct Hin as [->|Hin].
  - exists b. split; [now left|assumption].
  - destruct (IH Hin) as (y & Hy & Hr). exists y. split; [now right|auto].
Qed.

Lemma Forall2_in_r {A B} (R : A -> B -> Prop) l l' y :
  Forall2 R l l' -> In y l' -> exists x, In x l /\ R x y.
Proof.
  induction 1 as [|a b l l' Hab _ IH]; intros Hin; [destruct Hin|].
  destruct Hin as [->|Hin].
  - exists a. split; [now left|assumption].
  - destruct (IH Hin) as (x & Hx & Hr). exists x. split; [now right|auto].
Qed.

End SetFacts.

(** The events [build_events] adds to the set: that of each assignment, in
    turn. *)
Lemma moodle_build_events_of now evs :
  forall acc es,
    Moodle.build_events now evs acc = Ok es ->
    exists new,
      Forall2 (moodle_event_of now) evs new
      /\ es = fold_left (fun es e => add_event e es) new acc.
Proof.
  induction evs as [|ev rest IH]; intros acc es H; simpl in H.
  - inversion H; subst. exists []. split; [constructor|reflexivity].
  - destruct (Moodle.build_event now ev) as [e|] eqn:E; [|discriminate].
    apply IH in H. destruct H as (new & Hnew & ->).
    exists (e :: new). split; [|reflexivity].
    constructor; [|exact Hnew].
    unfold Moodle.build_event in E.
    destruct (Moodle.stable_uid _) as [id|] eqn:Eid; [|discriminate].
    inversion E; subst. unfold moodle_event_of. simpl.
    repeat split; auto.
Qed.

(** X13: the events of the calendar of the Moodle scraper, a set in which
    the identifier tells the members apart.  No two events of the calendar
    have one identifier; each is the event of an assignment: named
    "[iLearning] " and the title, starting and ending at the due instant,
    created and modified at build time, with the link, a description that
    holds the link and the course, the identifier of link and title, and two
    reminders, one day and three hours before.  An assignment whose
    identifier no assignment before it has is in the calendar with that
    event; one that comes after an assignment with its identifier adds
    nothing, the identifier being a member already.  So there are never
    more events than assignments. *)
Theorem X13_moodle_one_event_per_identifier
    (now : datetime) (evs : list Moodle.assignment) (cal : Calendar) :
  Moodle.build_calendar now evs = Ok cal ->
  NoDup (map uid (events cal))
  /\ (forall e, In e (events cal) ->
                exists ev, In ev evs /\ moodle_event_of now ev e)
  /\ (forall pre ev post,
        evs = pre ++ ev :: post ->
        (forall ev', In ev' pre ->
                     Moodle.stable_uid (Moodle.a_url ev' ++ Moodle.title ev')
                     <> Moodle.stable_uid (Moodle.a_url ev ++ Moodle.title ev))
        ->
        exists e, In e (events cal) /\ moodle_event_of now ev e)
  /\ (forall ev, In ev evs ->
                 exists e, In e (events cal)
                           /\ Moodle.stable_uid
                                (Moodle.a_url ev ++ Moodle.title ev)
                              = Ok (uid e))
  /\ length (events cal) <= length evs.
Proof.
  unfold Moodle.build_calendar.
  destruct (Moodle.build_events now evs []) as [es|] eqn:E; [|discriminate].
  intros H. inversion H; subst. clear H. simpl.
  apply moodle_build_events_of in E. destruct E as (new & Hnew & ->).
  split; [|split; [|split; [|split]]].
  - apply SetFacts.all_nodup. constructor.
  - intros e Hin. apply SetFacts.all_in in Hin.
    destruct Hin as [[]|Hin].
    eapply SetFacts.Forall2_in_r; eauto.
  - intros pre ev post -> Hpre.
    apply Forall2_app_inv_l in Hnew.
    destruct Hnew as (pre' & rest' & Hpre' & Hrest & ->).
    inversion Hrest as [|? e ? post' Hev Hpost]; subst.
    exists e. split; [|exact Hev].
    apply SetFacts.all_first; [intros e' []|].
    intros e' Hin Huid.
    destruct (SetFacts.Forall2_in_r _ _ _ _ Hpre' Hin) as (ev' & Hin' & He').
    apply (Hpre ev' Hin').
    destruct He' as (_ & _ & _ & _ & _ & _ & _ & Hu' & _).
    destruct Hev as (_ & _ & _ & _ & _ & _ & _ & Hu & _).
    congruence.
  - intros ev Hin.
    destruct (SetFacts.Forall2_in_l _ _ _ _ Hnew Hin) as (e0 & Hin0 & He0).
    destruct (SetFacts.all_member new [] e0 Hin0) as (e & He & Huid).
    exists e. split; [exact He|].
    destruct He0 as (_ & _ & _ & _ & _ & _ & _ & Hu & _). congruence.
  - pose proof (SetFacts.all_length new []) as L.
    apply Forall2_length in Hnew. simpl in L. lia.
Qed.

(** The same assignment found twice: one event. *)
Lemma X13_moodle_one_event_per_identifier_witness :
  exists cal,
    Moodle.build_calendar Site.now [sample_assignment; sample_assignment]
    = Ok cal
    /\ NoDup (map uid (events cal))
    /\ (exists e, In e (events cal) /\ name e = u "[iLearning] Essay 1")
    /\ length (events cal) = 1.
Proof.
  destruct (Moodle.build_calendar Site.now
              [sample_assignment; sample_assignment])
    as [cal|e] eqn:Hrun; [|vm_compute in Hrun; discriminate Hrun].
  exists cal. split; [reflexivity|].
  destruct (X13_moodle_one_event_per_identifier Site.now _ cal Hrun)
    as (Hnodup & _ & Hfirst & _ & _).
  split; [exact Hnodup|]. split.
  - destruct (Hfirst [] sample_assignment [sample_assignment] eq_refl)
      as (e & Hin & He); [intros ev' []|].
    exists e. split; [exact Hin|]. exact (proj1 He).
  - vm_compute in Hrun. inversion Hrun. reflexivity.
Defined.

(** X14: the Moodle scraper builds its calendar exactly when the link
    followed by the title of every assignment can be encoded in UTF-8; a
    lone surrogate in one of them stops the calendar of all of them. *)
Theorem X14_moodle_calendar_needs_encodable_text
    (now : datetime) (evs : list Moodle.assignment) :
  (exists cal, Moodle.build_calendar now evs = Ok cal)
  <-> Forall (fun ev => forallb encodable (Moodle.a_url ev ++ Moodle.title ev)
                        = true) evs.
Proof.
  unfold Moodle.build_calendar.
  assert (H : forall acc,
             (exists es, Moodle.build_events now evs acc = Ok es)
             <-> Forall (fun ev => forallb encodable
                                     (Moodle.a_url ev ++ Moodle.title ev)
                                   = true) evs).
  { induction evs as [|ev rest IH]; intros acc; simpl.
    - split; [constructor|eauto].
    - unfold Moodle.build_event, Moodle.stable_uid.
      destruct (encode_utf8 (Moodle.a_url ev ++ Moodle.title ev)) as [b|]
        eqn:E.
      + rewrite IH. split.
        * intros Hr. constructor; [|exact Hr].
          apply encode_utf8_ok. eauto.
        * intros Hr. now inversion Hr.
      + split; [intros [es Hes]; discriminate|].
        intros Hr. inversion Hr as [|? ? Hev _]; subst.
        apply encode_utf8_ok in Hev. destruct Hev as [b Hb]. congruence. }
  rewrite <- (H []).
  destruct (Moodle.build_events now evs []) as [es|].
  - split; eauto.
  - split; intros [x Hx]; discriminate.
Qed.

(** The events [build_events] adds to the set: that of each candidate that
    has a due date, in turn. *)
Lemma nchu_build_events_of LOCAL_TZ now evs :
  forall acc es,
    Nchu.build_events LOCAL_TZ now evs acc = Ok es ->
    exists new,
      Forall2 (nchu_event_of LOCAL_TZ now)
        (filter (fun it => negb (unresolved it)) evs) new
      /\ es = fold_left (fun es e => add_event e es) new acc.
Proof.
  induction evs as [|it rest IH]; intros acc es H; simpl in H.
  - inversion H; subst. exists []. split; [constructor|reflexivity].
  - destruct (Nchu.build_event LOCAL_TZ now it) as [[e|]|] eqn:E;
      try discriminate.
    + apply IH in H. destruct H as (new & Hnew & ->).
      exists (e :: new). split; [|reflexivity].
      destruct it as [[title due] url]. unfold Nchu.build_event in E.
      destruct due as [d|]; [|discriminate].
      destruct (Nchu.localize LOCAL_TZ d) as [d'|] eqn:L; [|discriminate].
      destruct (Nchu.event_uid url title) as [id|] eqn:Eid; [|discriminate].
      inversion E; subst. simpl. constructor; [|exact Hnew].
      exists d. simpl. repeat split; auto.
    + apply IH in H. destruct H as (new & Hnew & ->).
      exists new. split; [|reflexivity].
      destruct it as [[title due] url]. unfold Nchu.build_event in E.
      destruct due as [d|]; [|exact Hnew].
      destruct (Nchu.localize LOCAL_TZ d); [|discriminate].
      destruct (Nchu.event_uid url title); discriminate.
Qed.

(** X15: the events of the calendar of the NCHU scraper, a set in which
    the identifier tells the members apart.  No two events of the calendar
    have one identifier; each is the event of a candidate that has a due
    date: named "[iLearning] " and the title, starting and ending at the due
    date brought to the local zone, with the link, the identifier of link
    and title, and the two reminders; a candidate without a due date gives
    no event.  A candidate with a due date whose identifier no candidate
    with a due date before it has is in the calendar with that event. *)
Theorem X15_nchu_one_event_per_identifier
    (LOCAL_TZ : tz) (now : datetime) (items : list Nchu.item)
    (cal : Calendar) :
  Nchu.build_calendar LOCAL_TZ now items = Ok cal ->
  NoDup (map uid (events cal))
  /\ (forall e, In e (events cal) ->
                exists it, In it items /\ unresolved it = false
                           /\ nchu_event_of LOCAL_TZ now it e)
  /\ (forall pre it post,
        items = pre ++ it :: post ->
        unresolved it = false ->
        (forall it', In it' pre -> unresolved it' = false ->
                     Nchu.event_uid (snd it') (fst (fst it'))
                     <> Nchu.event_uid (snd it) (fst (fst it))) ->
        exists e, In e (events cal) /\ nchu_event_of LOCAL_TZ now it e)
  /\ length (events cal)
     <= length (filter (fun it => negb (unresolved it)) items).
Proof.
  unfold Nchu.build_calendar.
  destruct (Nchu.build_events LOCAL_TZ now items []) as [es|] eqn:E;
    [|discriminate].
  intros H. inversion H; subst. clear H. simpl.
  apply nchu_build_events_of in E. destruct E as (new & Hnew & ->).
  split; [|split; [|split]].
  - apply SetFacts.all_nodup. constructor.
  - intros e Hin. apply SetFacts.all_in in Hin.
    destruct Hin as [[]|Hin].
    destruct (SetFacts.Forall2_in_r _ _ _ _ Hnew Hin) as (it & Hit & He).
    apply filter_In in Hit. destruct Hit as [Hit Hres].
    exists it. split; [assumption|]. split; [|assumption].
    now destruct (unresolved it).
  - intros pre it post -> Hres Hpre.
    rewrite filter_app in Hnew. simpl in Hnew. rewrite Hres in Hnew.
    simpl in Hnew. apply Forall2_app_inv_l in Hnew.
    destruct Hnew as (pre' & rest' & Hpre' & Hrest & ->).
    inversion Hrest as [|? e ? post' Hev Hpost]; subst.
    exists e. split; [|exact Hev].
    apply SetFacts.all_first; [intros e' []|].
    intros e' Hin Huid.
    destruct (SetFacts.Forall2_in_r _ _ _ _ Hpre' Hin) as (it' & Hin' & He').
    apply filter_In in Hin'. destruct Hin' as [Hin' Hres'].
    apply (Hpre it' Hin'); [now destruct (unresolved it')|].
    destruct He' as (d' & _ & _ & _ & _ & _ & _ & _ & _ & Hu' & _).
    destruct Hev as (d & _ & _ & _ & _ & _ & _ & _ & _ & Hu & _).
    congruence.
  - pose proof (SetFacts.all_length new []) as L.
    apply Forall2_length in Hnew. simpl in L. lia.
Qed.

(** The sample candidates found twice: one event, that of the candidate
    with a due date. *)
Lemma X15_nchu_one_event_per_identifier_witness :
  exists cal,
    Nchu.build_calendar Site.taipei Site.now
      (sample_candidates ++ sample_candidates) = Ok cal
    /\ NoDup (map uid (events cal))
    /\ (exists e, In e (events cal) /\ name e = u "[iLearning] HW one")
    /\ length (events cal) = 1.
Proof.
  destruct (Nchu.build_calendar Site.taipei Site.now
              (sample_candidates ++ sample_candidates))
    as [cal|e] eqn:Hrun; [|vm_compute in Hrun; discriminate Hrun].
  exists cal. split; [reflexivity|].
  destruct (X15_nchu_one_event_per_identifier Site.taipei Site.now _ cal
              Hrun) as (Hnodup & _ & Hfirst & _).
  split; [exact Hnodup|]. split.
  - destruct (Hfirst [] (u "HW one", Some (naive 2025 10 1 12 0 0),
                         u "https://lms.example.edu/course/homework/content/1")
                (tl sample_candidates ++ sample_candidates) eq_refl
                eq_refl) as (e & Hin & He); [intros it' []|].
    exists e. split; [exact Hin|].
    destruct He as (d & _ & Hn & _). exact Hn.
  - vm_compute in Hrun. inversion Hrun. reflexivity.
Defined.

(* ================================================================== *)
(** ** Identifiers, again *)

Module Utf8Facts.

Local Open Scope N_scope.

Ltac Zify.zify_post_hook ::= Z.to_euclidean_division_equations.

(** Decoding the bytes of a character gives the character back. *)
Lemma decode_encode_char c rest :
  encodable c = true ->
  utf8_decode (encode_char c ++ rest) = c :: utf8_decode rest.
Proof.
  unfold encodable, encode_char. intros H.
  assert (Hc : c < 0x110000).
  { apply orb_true_iff in H. destruct H as [H|H].
    - apply N.ltb_lt in H. lia.
    - apply andb_true_iff in H. destruct H as [_ H]. now apply N.ltb_lt. }
  clear H.
  destruct (N.ltb_spec c 0x80) as [H1|H1].
  { cbn [app utf8_decode]. destruct (N.ltb_spec c 0x80); [reflexivity|lia]. }
  destruct (N.ltb_spec c 0x800) as [H2|H2].
  { cbn [app utf8_decode].
    destruct (N.ltb_spec (0xC0 + c / 0x40) 0x80); [lia|].
    destruct (N.ltb_spec (0xC0 + c / 0x40) 0xE0); [|lia].
    f_equal. lia. }
  destruct (N.ltb_spec c 0x10000) as [H3|H3].
  { cbn [app utf8_decode].
    destruct (N.ltb_spec (0xE0 + c / 0x1000) 0x80); [lia|].
    destruct (N.ltb_spec (0xE0 + c / 0x1000) 0xE0); [lia|].
    destruct (N.ltb_spec (0xE0 + c / 0x1000) 0xF0); [|lia].
    f_equal. lia. }
  cbn [app utf8_decode].
  destruct (N.ltb_spec (0xF0 + c / 0x40000) 0x80); [lia|].
  destruct (N.ltb_spec (0xF0 + c / 0x40000) 0xE0); [lia|].
  destruct (N.ltb_spec (0xF0 + c / 0x40000) 0xF0); [lia|].
  f_equal. lia.
Qed.

Ltac Zify.zify_post_hook ::= idtac.

Lemma decode_encode s :
  forall b, encode_utf8 s = Some b -> utf8_decode b = s.
Proof.
  induction s as [|c s IH]; intros b H; simpl in H.
  - inversion H. reflexivity.
  - destruct (encodable c) eqn:Ec; [|discriminate].
    destruct (encode_utf8 s) as [bs|]; [|discriminate].
    inversion H; subst. rewrite decode_encode_char by assumption.
    f_equal. now apply IH.
Qed.

(** Two texts with the same UTF-8 bytes are the same text. *)
Lemma encode_inj s s' b :
  encode_utf8 s = Some b -> encode_utf8 s' = Some b -> s = s'.
Proof.
  intros H H'. apply decode_encode in H, H'. congruence.
Qed.

End Utf8Facts.

(** X16: two texts get the same identifier from [stable_uid] only if they
    are the same text, or if their UTF-8 encodings are two different
    messages with the same SHA-1 digest. *)
Theorem X16_uid_collisions_are_sha1_collisions (s s' id : str) :
  Moodle.stable_uid s = Ok id ->
  Moodle.stable_uid s' = Ok id ->
  s = s'
  \/ exists b b',
       encode_utf8 s = Some b /\ encode_utf8 s' = Some b'
       /\ b <> b' /\ Sha1.digest b = Sha1.digest b'.
Proof.
  unfold Moodle.stable_uid.
  destruct (encode_utf8 s) as [b|] eqn:E; [|discriminate].
  destruct (encode_utf8 s') as [b'|] eqn:E'; [|discriminate].
  intros H H'. inversion H; subst. inversion H' as [Hid].
  apply app_inv_tail in Hid. apply Sha1Facts.hexdigest_eq in Hid.
  destruct (list_eq_dec N.eq_dec b b') as [->|Hne].
  - left. eapply Utf8Facts.encode_inj; eauto.
  - right. exists b, b'. repeat split; auto.
Qed.

Lemma X16_uid_collisions_are_sha1_collisions_witness :
  exists id,
    Moodle.stable_uid (u "https://lms.example.edu/mod/assign/view.php?id=12A")
    = Ok id
    /\ (u "https://lms.example.edu/mod/assign/view.php?id=1" ++ u "2A"
        = u "https://lms.example.edu/mod/assign/view.php?id=12" ++ u "A"
        \/ exists b b',
             encode_utf8
               (u "https://lms.example.edu/mod/assign/view.php?id=1" ++ u "2A")
             = Some b
             /\ encode_utf8
                  (u "https://lms.example.edu/mod/assign/view.php?id=12"
                   ++ u "A") = Some b'
             /\ b <> b' /\ Sha1.digest b = Sha1.digest b').
Proof.
  eexists. split; [vm_compute; reflexivity|].
  eapply X16_uid_collisions_are_sha1_collisions; vm_compute; reflexivity.
Defined.

(** X17: an identifier of the Moodle scraper is never an identifier of
    the NCHU scraper: the two end in different suffixes of different
    lengths. *)
Theorem X17_uid_namespaces_are_disjoint (s url title id id' : str) :
  Moodle.stable_uid s = Ok id ->
  Nchu.event_uid url title = Ok id' ->
  id <> id' /\ length id = 54 /\ length id' = 52.
Proof.
  unfold Moodle.stable_uid, Nchu.event_uid.
  destruct (encode_utf8 s) as [b|]; [|discriminate].
  destruct (encode_utf8 (url ++ title)) as [b'|]; [|discriminate].
  intros H H'. inversion H; subst. inversion H'; subst.
  assert (L1 : length (Sha1.hexdigest b ++ u "@ilearning-ics") = 54)
    by (rewrite length_app, Sha1Facts.hexdigest_length; reflexivity).
  assert (L2 : length (Sha1.hexdigest b' ++ u "@eeclass-ics") = 52)
    by (rewrite length_app, Sha1Facts.hexdigest_length; reflexivity).
  split; [|split; assumption].
  intros E. rewrite E in L1. lia.
Qed.

Lemma X17_uid_namespaces_are_disjoint_witness :
  exists id id',
    Moodle.stable_uid (u "https://lms.example.edu/x" ++ u "HW one") = Ok id
    /\ Nchu.event_uid (u "https://lms.example.edu/x") (u "HW one") = Ok id'
    /\ id <> id'.
Proof.
  destruct (Moodle.stable_uid (u "https://lms.example.edu/x" ++ u "HW one"))
    as [id|] eqn:E; [|vm_compute in E; discriminate E].
  destruct (Nchu.event_uid (u "https://lms.example.edu/x") (u "HW one"))
    as [id'|] eqn:E'; [|vm_compute in E'; discriminate E'].
  exists id, id'. split; [reflexivity|]. split; [reflexivity|].
  exact (proj1 (X17_uid_namespaces_are_disjoint _ _ _ _ _ E E')).
Defined.

(* ================================================================== *)
(** ** The requests of the NCHU script *)

Section NchuRequests.

Variable dtparse : bool -> str -> option datetime.
Variable urljoin : str -> str -> str.
Variable BASE : str.
Variable server : list str -> str -> reply.

(** Without deep fetch, one list URL costs one request, whatever comes of
    it. *)
Lemma nchu_fetch_list_requests u0 all_events s r s' :
  Nchu.fetch_list dtparse urljoin BASE false server u0 all_events s
  = (r, s') ->
  requests s' = requests s ++ [Nchu.to_abs urljoin BASE u0].
Proof.
  unfold Nchu.fetch_list, bind, print, sess_get, raise_for_status, lift,
    ret, raise. simpl.
  destruct (server (requests s) _) as [|st body]; simpl.
  - intros H. now inversion H.
  - destruct ((400 <=? st) && (st <? 600))%N; simpl.
    + intros H. now inversion H.
    + destruct (Nchu.parse_list_page dtparse urljoin body _); simpl;
        intros H; now inversion H.
Qed.

End NchuRequests.

(** X18: without deep fetch the NCHU script asks for the list pages and
    for nothing else: the requests of the loop of [main] are the list URLs
    made absolute, in order, up to the one on which the loop stopped, and
    all of them when the loop comes to its end. *)
Theorem X18_nchu_no_deep_fetch_no_detail_request
    (dtparse : bool -> str -> option datetime) (urljoin : str -> str -> str)
    (BASE : str) (server : list str -> str -> reply)
    (urls : list str) (all_events : list Nchu.item) (s : session) :
  exists n,
    requests (snd (Nchu.fetch_all dtparse urljoin BASE false server urls
                     all_events s))
    = requests s ++ map (Nchu.to_abs urljoin BASE) (firstn n urls)
    /\ (forall evs,
          fst (Nchu.fetch_all dtparse urljoin BASE false server urls
                 all_events s) = Ok evs ->
          firstn n urls = urls).
Proof.
  revert all_events s. induction urls as [|u0 rest IH]; intros all_events s.
  - exists 0. simpl. rewrite app_nil_r. split; reflexivity.
  - replace (Nchu.fetch_all dtparse urljoin BASE false server (u0 :: rest)
               all_events s)
      with (match Nchu.fetch_list dtparse urljoin BASE false server u0
                    all_events s with
            | (Ok evs1, s1) =>
              Nchu.fetch_all dtparse urljoin BASE false server rest evs1 s1
            | (Raise e, s1) => (Raise e, s1)
            end) by reflexivity.
    destruct (Nchu.fetch_list dtparse urljoin BASE false server u0
                all_events s) as [[evs1|e] s1] eqn:E;
      pose proof (nchu_fetch_list_requests _ _ _ _ _ _ _ _ _ E) as Hreq.
    + destruct (IH evs1 s1) as (n & Hn & Hall).
      exists (S n). split.
      * rewrite Hn, Hreq. simpl. now rewrite <- app_assoc.
      * intros evs Hevs. cbn [firstn]. f_equal. exact (Hall evs Hevs).
    + exists 1. simpl. split.
      * rewrite Hreq. reflexivity.
      * intros evs H. discriminate H.
Qed.

Lemma X18_nchu_no_deep_fetch_no_detail_request_witness :
  requests (snd (Nchu.fetch_all Site.dtparse Site.urljoin Site.BASE false
                   Site.nchu_server [u "/course/homework/58430"] [] fresh))
  = [u "https://lms.example.edu/course/homework/58430"].
Proof.
  destruct (X18_nchu_no_deep_fetch_no_detail_request Site.dtparse
              Site.urljoin Site.BASE Site.nchu_server
              [u "/course/homework/58430"] [] fresh) as (n & Hreq & Hall).
  rewrite Hreq. rewrite (Hall _ ltac:(vm_compute; reflexivity)).
  vm_compute. reflexivity.
Defined.

(* ================================================================== *)
(** ** The output file *)

Lemma lstrip_by_all (p : N -> bool) s :
  forallb p s = true -> lstrip_by p s = [].
Proof.
  induction s as [|c s IH]; simpl; [reflexivity|].
  intros H. apply andb_true_iff in H. destruct H as [Hc H].
  rewrite Hc. now apply IH.
Qed.

(** The directory of a bare file name is the empty name. *)
Lemma dirname_bare p : bare_name p = true -> dirname p = [].
Proof.
  unfold bare_name, dirname. intros H.
  assert (E : lstrip_by (fun c => negb (c =? 47)%N) (rev p) = []).
  { apply lstrip_by_all. apply forallb_forall. intros c Hc.
    apply in_rev in Hc. apply negb_true_iff in H.
    destruct (c =? 47)%N eqn:Ec; [|reflexivity].
    assert (Ht : existsb (fun c => (c =? 47)%N) p = true)
      by (apply existsb_exists; eauto).
    congruence. }
  rewrite E. reflexivity.
Qed.

(** X19: ICS_OUTPUT has to name a directory.  With a bare file name the
    scripts ask [os.makedirs] for the directory of the empty name; where
    that call raises, as it does in CPython, no run of either [main] comes
    to its end: each ends in an exception, the one of the login or of a list
    page where these fail, and else, after every page has been fetched, the
    one of [os.makedirs]. *)
Theorem X19_bare_output_name_is_refused
    (dtparse : bool -> str -> option datetime) (urljoin : str -> str -> str)
    (BASE ICS_OUTPUT : str) (COURSE_IDS HOMEWORK_URLS : list str)
    (DEEP_FETCH : bool) (LOCAL_TZ : tz)
    (server : list str -> str -> reply) (login : M unit) (now : datetime)
    (makedirs : str -> M unit) (write_lines : str -> Calendar -> M unit) :
  bare_name ICS_OUTPUT = true ->
  (forall s0, exists e s1, makedirs [] s0 = (Raise e, s1)) ->
  forall s,
    (exists e s',
       Moodle.main dtparse urljoin BASE COURSE_IDS ICS_OUTPUT LOCAL_TZ server
                   login now makedirs write_lines s = (Raise e, s'))
    /\ (exists e s',
          Nchu.main dtparse urljoin BASE HOMEWORK_URLS ICS_OUTPUT DEEP_FETCH
                    LOCAL_TZ server login now makedirs write_lines s
          = (Raise e, s')).
Proof.
  intros Hbare Hmk s. apply dirname_bare in Hbare. split.
  - destruct (Moodle.main dtparse urljoin BASE COURSE_IDS ICS_OUTPUT
                LOCAL_TZ server login now makedirs write_lines s)
      as [[cal|e] s'] eqn:H; [exfalso|eauto].
    unfold Moodle.main in H. cbv zeta in H. run_ok H.
    rewrite Hbare in Hrun3. destruct (Hmk s3) as (e & sx & He). congruence.
  - destruct (Nchu.main dtparse urljoin BASE HOMEWORK_URLS ICS_OUTPUT
                DEEP_FETCH LOCAL_TZ server login now makedirs write_lines s)
      as [[cal|e] s'] eqn:H; [exfalso|eauto].
    unfold Nchu.main in H. cbv zeta in H. run_ok H.
    rewrite Hbare in Hrun3. destruct (Hmk s3) as (e & sx & He). congruence.
Qed.

(** On the sample sites, with ICS_OUTPUT set to "ilearning.ics". *)
Lemma X19_bare_output_name_is_refused_witness :
  (exists e s',
     Moodle.main Site.dtparse Site.urljoin Site.BASE [u "101"]
       (u "ilearning.ics") Site.taipei Site.moodle_server Site.login
       Site.now Site.makedirs Site.write_lines fresh = (Raise e, s'))
  /\ (exists e s',
        Nchu.main Site.dtparse Site.urljoin Site.BASE
          [u "/course/homework/58430"] (u "ilearning.ics") true Site.taipei
          Site.nchu_server Site.login Site.now Site.makedirs
          Site.write_lines fresh = (Raise e, s')).
Proof.
  destruct (X19_bare_output_name_is_refused Site.dtparse Site.urljoin
              Site.BASE (u "ilearning.ics") [u "101"]
              [u "/course/homework/58430"] true Site.taipei
              Site.moodle_server Site.login Site.now Site.makedirs
              Site.write_lines) with (s := fresh) as [Hm Hn].
  - vm_compute. reflexivity.
  - intros s0. exists OSError, s0. reflexivity.
  - split.
    + exact Hm.
    + destruct (X19_bare_output_name_is_refused Site.dtparse Site.urljoin
                  Site.BASE (u "ilearning.ics") [u "101"]
                  [u "/course/homework/58430"] true Site.taipei
                  Site.nchu_server Site.login Site.now Site.makedirs
                  Site.write_lines) with (s := fresh) as [_ Hn'].
      * vm_compute. reflexivity.
      * intros s0. exists OSError, s0. reflexivity.
      * exact Hn'.
Defined.
